(** * jsonmapper: a shallow embedding of [jsonmapper.py]

    The module maps raw JSON data structures (what a JSON parser returns) to
    typed Python objects and back.  This file embeds the descriptor engine
    ([Field.__get__], [Field.__set__]), the leaf and composite conversions
    ([_to_python], [_to_json]), the schema collection of [MappingMeta.__new__],
    record construction ([Mapping.__init__]) and the sequence view
    ([ListField.Proxy]), and proves properties of them.

    Conventions of the embedding.
    - Python lists and dicts are mutable objects with an identity: they live
      in a heap and values refer to them by address ([VRef]).  A dict keeps
      its insertion order (an association list without repeated keys).
    - A [Mapping] instance is a value [VRecord cls data]: its class and the
      address of its [_data] dict.  A [ListField.Proxy] is a value
      [VProxy list_ field].  Neither attribute is ever reassigned after
      [__init__], so these two objects need no heap cell of their own.
    - Code runs in a state-and-exception monad over the heap.  The recursion
      between [_to_python], [_to_json] and [Mapping.__init__] is tied with a
      fuel argument.
    - The conversions that are Python builtins or library calls ([unicode],
      [int], [float], [long], [Decimal], [strptime], [timegm],
      [utcfromtimestamp]) and user supplied default producers are parameters
      of the development (class [Builtins]).
    - Attribute access [getattr(self, field_name)] / [setattr(self,
      field_name, v)] on a record looks the name up on the class of the
      record, through its method resolution order: a class carries, besides
      its [_fields], the attributes that this lookup finds.  Field names are
      assumed not to shadow the attributes of [Mapping] itself.
    - Texts are strings of bytes; where Python counts or enumerates the
      characters of a text, only ASCII texts are embedded.
    - [date], [time] and [datetime] values are naive (no tzinfo). *)

From Stdlib Require Import ZArith Ascii List Bool Lia.
From Stdlib Require String.
From stdpp Require Import base list strings sets.
Import ListNotations.

Set Warnings "-register-all".


(** ** Values *)

Definition addr := nat.

(** Keys of a dict: field names are strings, and [None] is what an unbound
    descriptor ([name=None]) uses as its key. *)
Definition key := option string.

Record date_t := mk_date { year : Z; month : Z; day : Z }.
Record time_t := mk_time { hour : Z; minute : Z; second : Z; microsecond : Z }.
Record datetime_t := mk_datetime { dt_date : date_t; dt_time : time_t }.

(** [time.struct_time]: a tuple of nine integers. *)
Record struct_time := mk_struct_time {
  tm_year : Z; tm_mon : Z; tm_mday : Z; tm_hour : Z; tm_min : Z; tm_sec : Z;
  tm_wday : Z; tm_yday : Z; tm_isdst : Z }.

Inductive decimal_t :=
| DecFinite (sign : bool) (coeff : N) (exp : Z)
| DecInfinite (sign : bool)
| DecNaN.

Inductive value : Type :=
| VNone
| VBool (b : bool)
| VInt (n : Z)
| VFloat (bits : Z)                       (* IEEE 754 binary64, as its 64 bits *)
| VStr (s : string)
| VDecimal (d : decimal_t)
| VDate (d : date_t)
| VDateTime (dt : datetime_t)
| VTime (t : time_t)
| VStructTime (st : struct_time)
| VRef (a : addr)                         (* a list or a dict object *)
| VRecord (cls : Klass) (data : addr)     (* a Mapping instance and its _data *)
| VProxy (list_ : value) (field : Field)  (* ListField.Proxy(list_, field) *)
| VFunction (fn : function)               (* a callable *)
| VDescriptor (f : Field)                 (* a Field object used as a value *)
with Field : Type :=
| MkField (kind : FieldKind) (name : option string) (default : value)
with FieldKind : Type :=
| KField | KText | KFloat | KInteger | KLong | KBoolean | KDecimal
| KDate | KDateTime | KTime
| KDict (mapping : option Klass)
| KList (field : Field)
with Klass : Type :=
| ClassObject (cname : string) (_fields : list (string * Field))
    (attributes : list (string * Attribute))
with Attribute : Type :=
| FieldAttribute (f : Field)              (* a Field object: a data descriptor *)
| OtherAttribute (v : value)              (* an object that is not a descriptor *)
with function : Type :=
| LambdaDictCopy (default : value)        (* lambda: default.copy() *)
| LambdaCopyCopy (default : value)        (* lambda: copy.copy(default) *)
| Extern (id : string).                   (* any other zero-argument callable *)

Definition f_kind (f : Field) : FieldKind := let 'MkField k _ _ := f in k.
Definition f_name (f : Field) : option string := let 'MkField _ n _ := f in n.
Definition f_default (f : Field) : value := let 'MkField _ _ d := f in d.
Definition c_name (c : Klass) : string := let 'ClassObject n _ _ := c in n.
Definition c_fields (c : Klass) : list (string * Field) := let 'ClassObject _ fs _ := c in fs.

(** What the lookup of a name on the class finds: the attribute of the first
    class of the method resolution order that has the name in its body.  A
    name that no class of the order has is not listed. *)
Definition c_attributes (c : Klass) : list (string * Attribute) :=
  let 'ClassObject _ _ attrs := c in attrs.

(** A class every field of which is found under its name by the lookup on
    the class: one that declares its fields in its own body, or inherits
    them with no other attribute of the same name earlier in the method
    resolution order. *)
Definition MkClass (cname : string) (_fields : list (string * Field)) : Klass :=
  ClassObject cname _fields (map (fun item => (fst item, FieldAttribute (snd item))) _fields).

Definition set_name (f : Field) (n : option string) : Field :=
  MkField (f_kind f) n (f_default f).

(** ** Heap objects, exceptions and the monad *)

Abbreviation dict := (list (key * value)).

Inductive obj :=
| OList (items : list value)
| ODict (items : dict).

Abbreviation heap := (list obj).

Inductive exc_class := TypeError | ValueError | AttributeError | KeyError | IndexError.

#[global] Instance exc_class_eq_dec : EqDecision exc_class.
Proof. solve_decision. Defined.

(** An exception: its class, the message (a format string as in the source)
    and the arguments of the [%] operator. *)
Record exn := PyExc { exc_class_of : exc_class; exc_msg : string; exc_args : list value }.

Inductive result (A : Type) : Type :=
| Val (a : A)
| Exc (e : exn).
Arguments Val {A} a.
Arguments Exc {A} e.

Inductive outcome (A : Type) : Type :=
| Returns (a : A) (h : heap)
| Raises (e : exn) (h : heap)
| OutOfFuel
| Unmodelled.   (* the run leaves the fragment of Python that is embedded *)
Arguments Returns {A} a h.
Arguments Raises {A} e h.
Arguments OutOfFuel {A}.
Arguments Unmodelled {A}.

Definition M (A : Type) : Type := heap -> outcome A.

Definition ret {A} (a : A) : M A := fun h => Returns a h.
Definition bind {A B} (m : M A) (k : A -> M B) : M B :=
  fun h => match m h with
           | Returns a h' => k a h'
           | Raises e h' => Raises e h'
           | OutOfFuel => OutOfFuel
           | Unmodelled => Unmodelled
           end.
Definition raise {A} (c : exc_class) (msg : string) (args : list value) : M A :=
  fun h => Raises (PyExc c msg args) h.
Definition unmodelled {A} : M A := fun _ => Unmodelled.
Definition out_of_fuel {A} : M A := fun _ => OutOfFuel.
Definition lift {A} (r : result A) : M A :=
  fun h => match r with Val a => Returns a h | Exc e => Raises e h end.

(** [try: m except cls: handler] *)
Definition try_except {A} (m : M A) (c : exc_class) (handler : M A) : M A :=
  fun h => match m h with
           | Raises e h' =>
               if decide (exc_class_of e = c) then handler h' else Raises e h'
           | o => o
           end.

Declare Scope py_scope.
Delimit Scope py_scope with py.
Notation "x <- m ;; k" := (bind m (fun x => k))
  (at level 100, m at next level, right associativity) : py_scope.
Notation "m ;;; k" := (bind m (fun _ => k))
  (at level 100, right associativity) : py_scope.
Local Open Scope py_scope.

Fixpoint mapM {A B} (f : A -> M B) (l : list A) : M (list B) :=
  match l with
  | [] => ret []
  | x :: l' => y <- f x ;; ys <- mapM f l' ;; ret (y :: ys)
  end.

(** Allocation of a new object: it gets the next free address. *)
Definition new_obj (o : obj) : M addr :=
  fun h => Returns (length h) (h ++ [o]).

Definition alloc (o : obj) : M value :=
  a <- new_obj o ;; ret (VRef a).

Fixpoint for_each {A} (l : list A) (body : A -> M unit) : M unit :=
  match l with
  | [] => ret tt
  | x :: l' => body x ;;; for_each l' body
  end.

Definition read (a : addr) : M obj :=
  fun h => match h !! a with Some o => Returns o h | None => Unmodelled end.

Definition write (a : addr) (o : obj) : M unit :=
  fun h => Returns tt (<[a := o]> h).

(** ** Dicts (insertion ordered) *)

Fixpoint dict_lookup (k : key) (d : dict) : option value :=
  match d with
  | [] => None
  | (k', v) :: d' => if decide (k' = k) then Some v else dict_lookup k d'
  end.

(** [d[k] = v]: an existing key keeps its position, a new key goes last. *)
Fixpoint dict_setitem (k : key) (v : value) (d : dict) : dict :=
  match d with
  | [] => [(k, v)]
  | (k', v') :: d' =>
      if decide (k' = k) then (k', v) :: d' else (k', v') :: dict_setitem k v d'
  end.

Fixpoint dict_delitem (k : key) (d : dict) : dict :=
  match d with
  | [] => []
  | (k', v') :: d' =>
      if decide (k' = k) then d' else (k', v') :: dict_delitem k d'
  end.

Definition dict_keys (d : dict) : list key := map fst d.

(** [fields.update(base_fields)] and [fields[field_name] = field_value] on
    the schema dict of the metaclass (string keys). *)
Fixpoint assoc_lookup {A} (k : string) (d : list (string * A)) : option A :=
  match d with
  | [] => None
  | (k', v) :: d' => if decide (k' = k) then Some v else assoc_lookup k d'
  end.

Fixpoint assoc_set {A} (k : string) (v : A) (d : list (string * A)) : list (string * A) :=
  match d with
  | [] => [(k, v)]
  | (k', v') :: d' =>
      if decide (k' = k) then (k', v) :: d' else (k', v') :: assoc_set k v d'
  end.

Definition assoc_update {A} (d other : list (string * A)) : list (string * A) :=
  fold_left (fun acc kv => assoc_set (fst kv) (snd kv) acc) other d.

(** ** Strings *)

(** [value.split('.', 1)[0]]: the text before the first occurrence of [sep]. *)
Fixpoint split_first (sep : ascii) (s : string) : string :=
  match s with
  | EmptyString => EmptyString
  | String c s' => if decide (c = sep) then EmptyString else String c (split_first sep s')
  end.

(** [value.rstrip(c)] for a one-character argument. *)
Fixpoint rstrip (c : ascii) (s : string) : string :=
  match s with
  | EmptyString => EmptyString
  | String a s' =>
      match rstrip c s' with
      | EmptyString => if decide (a = c) then EmptyString else String a EmptyString
      | t => String a t
      end
  end.

(** A text all of whose characters are ASCII: its bytes are its characters. *)
Definition is_ascii_text (s : string) : bool :=
  forallb (fun c => nat_of_ascii c <? 128) (String.list_ascii_of_string s).

Definition is_digit (c : ascii) : bool :=
  let n := nat_of_ascii c in (48 <=? n) && (n <=? 57).

(** A text matches a pattern when it has the pattern's length and agrees
    with it position by position; [None] in the pattern stands for any
    decimal digit. *)
Fixpoint matches (pattern : list (option ascii)) (s : string) : bool :=
  match pattern, s with
  | [], EmptyString => true
  | None :: pattern', String c s' => is_digit c && matches pattern' s'
  | Some c' :: pattern', String c s' => bool_decide (c = c') && matches pattern' s'
  | _, _ => false
  end.

(** ['YYYY-MM-DDTHH:MM:SSZ'] *)
Definition canonical_datetime_pattern : list (option ascii) :=
  let D := None in
  let L (c : ascii) := Some c in
  [D; D; D; D; L "-"; D; D; L "-"; D; D; L "T"; D; D; L ":"; D; D; L ":"; D; D; L "Z"]%char.

Definition is_canonical_datetime (s : string) : bool :=
  matches canonical_datetime_pattern s.

(** ** Dates and times *)

Definition is_leap (y : Z) : bool :=
  ((y mod 4 =? 0) && (negb (y mod 100 =? 0) || (y mod 400 =? 0)))%Z.

Definition days_in_month (y m : Z) : Z :=
  if (m =? 2)%Z then (if is_leap y then 29 else 28)%Z
  else if ((m =? 4) || (m =? 6) || (m =? 9) || (m =? 11))%Z then 30%Z
  else 31%Z.

Definition in_range (lo hi x : Z) : bool := ((lo <=? x) && (x <=? hi))%Z.

Definition date_valid (d : date_t) : bool :=
  in_range 1 9999 (year d) && in_range 1 12 (month d)
  && in_range 1 (days_in_month (year d) (month d)) (day d).

Definition time_valid (t : time_t) : bool :=
  in_range 0 23 (hour t) && in_range 0 59 (minute t)
  && in_range 0 59 (second t) && in_range 0 999999 (microsecond t).

Definition datetime_valid (dt : datetime_t) : bool :=
  date_valid (dt_date dt) && time_valid (dt_time dt).

(** The constructors [date(y, m, d)], [time(h, m, s)] and
    [datetime(y, m, d, h, mi, s)] raise [ValueError] on a component out of
    range. *)
Definition date_new (y m d : Z) : result value :=
  let r := mk_date y m d in
  if date_valid r then Val (VDate r)
  else Exc (PyExc ValueError "date component out of range" []).

Definition time_new (h m s : Z) : result value :=
  let r := mk_time h m s 0 in
  if time_valid r then Val (VTime r)
  else Exc (PyExc ValueError "time component out of range" []).

Definition datetime_new (y mo d h mi s : Z) : result value :=
  let r := mk_datetime (mk_date y mo d) (mk_time h mi s 0) in
  if datetime_valid r then Val (VDateTime r)
  else Exc (PyExc ValueError "datetime component out of range" []).

Definition digit (z : Z) : ascii := ascii_of_nat (48 + Z.to_nat (z mod 10)).

(** ["%02d"], ["%04d"] and ["%06d"] on the values a valid date or time holds. *)
Definition pad2 (z : Z) : string :=
  String (digit (z / 10)) (String (digit z) EmptyString).
Definition pad4 (z : Z) : string :=
  String (digit (z / 1000)) (String (digit (z / 100)) (pad2 z)).
Definition pad6 (z : Z) : string :=
  String (digit (z / 100000)) (String (digit (z / 10000)) (pad4 z)).

Definition date_isoformat (d : date_t) : string :=
  pad4 (year d) +:+ "-" +:+ pad2 (month d) +:+ "-" +:+ pad2 (day d).

Definition time_isoformat (t : time_t) : string :=
  pad2 (hour t) +:+ ":" +:+ pad2 (minute t) +:+ ":" +:+ pad2 (second t)
  +:+ (if (microsecond t =? 0)%Z then "" else "." +:+ pad6 (microsecond t)).

Definition datetime_isoformat (dt : datetime_t) : string :=
  date_isoformat (dt_date dt) +:+ "T" +:+ time_isoformat (dt_time dt).

(** [value.replace(microsecond=0)] *)
Definition time_replace_microsecond (t : time_t) (us : Z) : time_t :=
  mk_time (hour t) (minute t) (second t) us.
Definition datetime_replace_microsecond (dt : datetime_t) (us : Z) : datetime_t :=
  mk_datetime (dt_date dt) (time_replace_microsecond (dt_time dt) us).

(** ** Builtins and library calls taken as parameters *)

Class Builtins := {
  (** [sys.version_info[0] == 2] *)
  PY2 : bool;
  (** [unicode(value)] on Python 2, [str(value)] on Python 3 *)
  unicode_type : heap -> value -> result value;
  py_float : heap -> value -> result value;
  py_int : heap -> value -> result value;
  (** [long(value)] of Python 2 *)
  py_long2 : heap -> value -> result value;
  Decimal : heap -> value -> result value;
  (** [time.strptime(text, format)] *)
  strptime : string -> string -> result struct_time;
  (** [calendar.timegm] and [datetime.utcfromtimestamp] *)
  timegm : struct_time -> Z;
  utcfromtimestamp : Z -> result value;
  (** [bool(t)] of a [datetime.time] (midnight was false before Python 3.5) *)
  time_bool : time_t -> bool;
  (** calling a zero-argument callable that is not one of the module's own
      lambdas, such as [datetime.now]: what it returns or raises, and the
      objects it allocates; it may read the heap and does not mutate the
      objects that exist *)
  call_extern : string -> heap -> result value * list obj
}.

(** The three mutually recursive entry points, as seen from a method body:
    [field._to_python(value)], [field._to_json(value)] and [cls(values)]
    (which runs [Mapping.__init__] and returns the new instance). *)
Record Interp := {
  rec_to_python : Field -> value -> M value;
  rec_to_json : Field -> value -> M value;
  rec_init : Klass -> value -> M value
}.

Inductive subscript :=
| Index (i : Z)                          (* [x[i]] *)
| Slice (start stop : option Z).         (* [x[start:stop]] *)

Definition key_value (k : key) : value :=
  match k with Some s => VStr s | None => VNone end.

Definition is_none (v : value) : bool :=
  match v with VNone => true | _ => false end.

(** [isinstance(field, DictField)] *)
Definition is_DictField (f : Field) : bool :=
  match f_kind f with KDict _ => true | _ => false end.

(** [callable(v)] *)
Definition callable (v : value) : bool :=
  match v with VFunction _ => true | _ => false end.

Definition decimal_nonzero (d : decimal_t) : bool :=
  match d with DecFinite _ c _ => negb (c =? 0)%N | _ => true end.

(** [not field_value.name] *)
Definition name_unset (n : option string) : bool :=
  match n with None => true | Some s => bool_decide (s = "") end.

(** Python's index arithmetic on a sequence of length [n]. *)
Definition clamp (lo hi x : Z) : Z := Z.max lo (Z.min hi x).

Definition slice_bound (n : Z) (default : Z) (x : option Z) : Z :=
  match x with
  | None => default
  | Some i => clamp 0 n (if (i <? 0)%Z then i + n else i)%Z
  end.

Definition list_slice {A} (l : list A) (start stop : option Z) : list A :=
  let n := Z.of_nat (length l) in
  let s := slice_bound n 0 start in
  let e := slice_bound n n stop in
  take (Z.to_nat (e - s)) (drop (Z.to_nat s) l).

Definition list_index {A} (l : list A) (i : Z) : option A :=
  let n := Z.of_nat (length l) in
  let i' := (if (i <? 0)%Z then i + n else i)%Z in
  if (i' <? 0)%Z then None else l !! Z.to_nat i'.

(** [l.insert(idx, x)] *)
Definition list_insert_at {A} (l : list A) (idx : Z) (x : A) : list A :=
  let n := Z.of_nat (length l) in
  let i := Z.to_nat (clamp 0 n (if (idx <? 0)%Z then idx + n else idx)%Z) in
  take i l ++ x :: drop i l.

Section Program.
Context {B : Builtins}.

(** [long] is [int] on Python 3. *)
Definition py_long (h : heap) (v : value) : result value :=
  if PY2 then py_long2 h v else py_int h v.

Definition builtin (f : heap -> value -> result value) (v : value) : M value :=
  fun h => lift (f h v) h.

(** [len(v)] *)
Fixpoint py_len (v : value) : M nat :=
  match v with
  | VStr s => if is_ascii_text s then ret (String.length s) else unmodelled
  | VStructTime _ => ret 9
  | VRef a =>
      o <- read a ;;
      ret (match o with OList l => length l | ODict d => length d end)
  | VRecord _ data =>                       (* Mapping.__len__ *)
      o <- read data ;;
      match o with ODict d => ret (length d) | OList _ => unmodelled end
  | VProxy list_ _ => py_len list_          (* Proxy.__len__ *)
  | _ => raise TypeError "object has no len()" [v]
  end.

(** [bool(v)], the truth value used by [or] and [if] *)
Fixpoint py_bool (v : value) : M bool :=
  match v with
  | VNone => ret false
  | VBool b => ret b
  | VInt n => ret (negb (n =? 0)%Z)
  | VFloat bits => ret (negb (Z.land bits (2 ^ 63 - 1) =? 0)%Z)
  | VStr s => ret (negb (bool_decide (s = "")))
  | VDecimal d => ret (decimal_nonzero d)
  | VTime t => ret (time_bool t)
  | VRef _ | VRecord _ _ => n <- py_len v ;; ret (negb (n =? 0))
  | VProxy list_ _ =>
      (* Proxy.__nonzero__ on Python 2, Proxy.__len__ on Python 3 *)
      if PY2 then py_bool list_
      else n <- py_len list_ ;; ret (negb (n =? 0))
  | _ => ret true
  end.

(** [default.copy()] *)
Definition method_copy (v : value) : M value :=
  match v with
  | VRef a =>
      o <- read a ;;
      match o with
      | ODict d => alloc (ODict d)
      | OList l => if PY2 then raise AttributeError "copy" [v] else alloc (OList l)
      end
  | VRecord _ _ => unmodelled
  | _ => raise AttributeError "copy" [v]
  end.

(** [copy.copy(default)]: a shallow copy; immutable values and the
    identity-free [VRecord]/[VProxy] values are returned as they are. *)
Definition copy_copy (v : value) : M value :=
  match v with
  | VRef a => o <- read a ;; alloc o
  | _ => ret v
  end.

(** [default()] *)
Definition py_call (v : value) : M value :=
  match v with
  | VFunction (LambdaDictCopy d) => method_copy d
  | VFunction (LambdaCopyCopy d) => copy_copy d
  | VFunction (Extern id) =>
      fun h => let (r, new) := call_extern id h in lift r (h ++ new)
  | _ => raise TypeError "object is not callable" [v]
  end.

(** *** Raw-mapping access of a record (the [collections.MutableMapping]
    protocol over [_data]) *)

Definition Mapping__getitem__ (data : addr) (name : key) : M value :=
  o <- read data ;;
  match o with
  | ODict d =>
      match dict_lookup name d with
      | Some v => ret v
      | None => raise KeyError "%r" [key_value name]
      end
  | OList _ => unmodelled
  end.

Definition Mapping__setitem__ (data : addr) (name : key) (v : value) : M unit :=
  o <- read data ;;
  match o with
  | ODict d => write data (ODict (dict_setitem name v d))
  | OList _ => unmodelled
  end.

Definition Mapping__delitem__ (data : addr) (name : key) : M unit :=
  o <- read data ;;
  match o with
  | ODict d =>
      match dict_lookup name d with
      | Some _ => write data (ODict (dict_delitem name d))
      | None => raise KeyError "%r" [key_value name]
      end
  | OList _ => unmodelled
  end.

(** [instance.get(name)]: the mixin method of the abstract base class,
    [try: return self[name] except KeyError: return None]. *)
Definition Mapping_get (data : addr) (name : key) : M value :=
  try_except (Mapping__getitem__ data name) KeyError (ret VNone).

Definition Mapping_unwrap (self : value) : M value :=
  match self with
  | VRecord _ data => ret (VRef data)
  | _ => unmodelled
  end.

(** [field_name in values] and [values.pop(field_name)], for [values] a
    dict or a record. *)
Definition py_contains (values : value) (k : key) : M bool :=
  match values with
  | VRef a =>
      o <- read a ;;
      match o with
      | ODict d => ret (bool_decide (is_Some (dict_lookup k d)))
      | OList _ => unmodelled
      end
  | VRecord _ data =>
      try_except (Mapping__getitem__ data k ;;; ret true) KeyError (ret false)
  | _ => unmodelled
  end.

Definition py_pop (values : value) (k : key) : M value :=
  match values with
  | VRef a =>
      o <- read a ;;
      match o with
      | ODict d =>
          match dict_lookup k d with
          | Some v => write a (ODict (dict_delitem k d)) ;;; ret v
          | None => raise KeyError "%r" [key_value k]
          end
      | OList _ => unmodelled
      end
  | VRecord _ data =>
      v <- Mapping__getitem__ data k ;;
      Mapping__delitem__ data k ;;;
      ret v
  | _ => unmodelled
  end.

(** Unpacking [value] as the keyword arguments of a call (the double-star
    form): the keyword dict built from a mapping, whose keys must all be
    strings. *)
Definition unpack_kwargs (v : value) : M dict :=
  let check (d : dict) : M dict :=
    if forallb (fun k => bool_decide (is_Some k)) (dict_keys d) then ret d
    else raise TypeError "keywords must be strings" [] in
  match v with
  | VRef a =>
      o <- read a ;;
      match o with
      | ODict d => check d
      | OList _ => raise TypeError "argument after ** must be a mapping" [v]
      end
  | VRecord _ data =>
      o <- read data ;;
      match o with ODict d => check d | OList _ => unmodelled end
  | _ => raise TypeError "argument after ** must be a mapping" [v]
  end.

(** [x[index]] on a raw value. *)
Definition py_getitem (x : value) (index : subscript) : M value :=
  match x with
  | VRef a =>
      o <- read a ;;
      match o, index with
      | OList l, Index i =>
          match list_index l i with
          | Some v => ret v
          | None => raise IndexError "list index out of range" []
          end
      | OList l, Slice start stop => alloc (OList (list_slice l start stop))
      | ODict _, Index i => raise KeyError "%r" [VInt i]
      | ODict _, Slice _ _ => raise TypeError "unhashable type: 'slice'" []
      end
  | VNone | VBool _ | VInt _ | VFloat _ | VDecimal _ | VDate _ | VDateTime _
  | VTime _ | VFunction _ | VDescriptor _ =>
      raise TypeError "object is not subscriptable" [x]
  | _ => unmodelled
  end.

(** The object behind [self.list] when it is a list, for the bound methods
    [self.list.append] and [self.list.insert]; the attribute lookup fails
    on the values that have no such method. *)
Definition list_method (list_ : value) (method : string) : M addr :=
  match list_ with
  | VRef a =>
      o <- read a ;;
      match o with
      | OList _ => ret a
      | ODict _ => raise AttributeError method [list_]
      end
  | VRecord _ _ | VProxy _ _ => unmodelled
  | _ => raise AttributeError method [list_]
  end.

Definition list_update (a : addr) (f : list value -> list value) : M unit :=
  o <- read a ;;
  match o with
  | OList l => write a (OList (f l))
  | ODict _ => unmodelled
  end.

(** *** Leaf conversions *)

Definition DateField_to_python (val : value) : M value :=
  match val with
  | VStr s =>
      try_except
        (st <- lift (strptime s "%Y-%m-%d") ;;
         lift (date_new (tm_year st) (tm_mon st) (tm_mday st)))
        ValueError
        (raise ValueError "Invalid ISO date %r" [val])
  | _ => ret val
  end.

Definition DateField_to_json (val : value) : M value :=
  let val := match val with VDateTime dt => VDate (dt_date dt) | _ => val end in
  match val with
  | VDate d => ret (VStr (date_isoformat d))
  | VDateTime dt => ret (VStr (datetime_isoformat dt))
  | VTime t => ret (VStr (time_isoformat t))
  | VRecord _ _ => unmodelled
  | _ => raise AttributeError "isoformat" [val]
  end.

Definition DateTimeField_to_python (val : value) : M value :=
  match val with
  | VStr s =>
      let s1 := split_first "." s in        (* strip out microseconds *)
      let s2 := rstrip "Z" s1 in            (* remove timezone separator *)
      try_except
        (st <- lift (strptime s2 "%Y-%m-%dT%H:%M:%S") ;;
         lift (datetime_new (tm_year st) (tm_mon st) (tm_mday st)
                            (tm_hour st) (tm_min st) (tm_sec st)))
        ValueError
        (raise ValueError "Invalid ISO date/time %r" [VStr s2])
  | _ => ret val
  end.

Definition DateTimeField_to_json (val : value) : M value :=
  val <- match val with
           | VStr _ => DateTimeField_to_python val
           | _ => ret val
           end ;;
  val <- match val with
           | VStructTime st => lift (utcfromtimestamp (timegm st))
           | VDateTime _ => ret val
           | VDate d =>                     (* datetime.combine(value, time(0)) *)
               ret (VDateTime (mk_datetime d (mk_time 0 0 0 0)))
           | _ => raise TypeError "combine() argument 1 must be datetime.date" [val]
           end ;;
  match val with
  | VDateTime dt =>
      ret (VStr (datetime_isoformat (datetime_replace_microsecond dt 0) +:+ "Z"))
  | _ => unmodelled
  end.

Definition TimeField_to_python (val : value) : M value :=
  match val with
  | VStr s =>
      let s1 := split_first "." s in        (* strip out microseconds *)
      try_except
        (st <- lift (strptime s1 "%H:%M:%S") ;;
         lift (time_new (tm_hour st) (tm_min st) (tm_sec st)))
        ValueError
        (raise ValueError "Invalid ISO time %r" [VStr s1])
  | _ => ret val
  end.

Definition TimeField_to_json (val : value) : M value :=
  let val := match val with VDateTime dt => VTime (dt_time dt) | _ => val end in
  match val with
  | VTime t => ret (VStr (time_isoformat (time_replace_microsecond t 0)))
  | VDateTime dt =>
      ret (VStr (datetime_isoformat (datetime_replace_microsecond dt 0)))
  | VDate _ | VStr _ => raise TypeError "replace() takes no keyword arguments" [val]
  | VRecord _ _ => unmodelled
  | _ => raise AttributeError "replace" [val]
  end.

Section Methods.
Variable rec : Interp.

(** *** Mapping: [from_kwargs] *)

(** [cls.from_kwargs] called with keywords is [cls(values=values)], with
    [values] the fresh keyword dict of the call.  The class method binds
    the class to its first parameter, [cls]: the call rejects a keyword
    of that name. *)
Definition Mapping_from_kwargs (cls : Klass) (kwargs : dict) : M value :=
  if bool_decide (is_Some (dict_lookup (Some "cls") kwargs)) then
    raise TypeError
      (if PY2 then "from_kwargs() got multiple values for keyword argument 'cls'"
       else "from_kwargs() got multiple values for argument 'cls'") []
  else
    values <- alloc (ODict kwargs) ;;
    rec_init rec cls values.

(** *** DictField *)

Definition DictField_to_python (mapping : option Klass) (val : value) : M value :=
  match mapping with
  | None => ret val
  | Some cls => kwargs <- unpack_kwargs val ;; Mapping_from_kwargs cls kwargs
  end.

Definition DictField_to_json (mapping : option Klass) (val : value) : M value :=
  match mapping with
  | None => ret val
  | Some cls =>
      val <- match val with
               | VRecord _ _ => ret val            (* isinstance(value, Mapping) *)
               | _ => kwargs <- unpack_kwargs val ;; Mapping_from_kwargs cls kwargs
               end ;;
      Mapping_unwrap val
  end.

(** *** ListField.Proxy *)

Definition Proxy__len__ (list_ : value) : M nat := py_len list_.

Definition Proxy__getitem__ (list_ : value) (field : Field) (index : subscript) : M value :=
  item <- py_getitem list_ index ;;
  rec_to_python rec field item.

Definition Proxy__getslice__ (list_ : value) (field : Field) (i j : Z) : M value :=
  sl <- py_getitem list_ (Slice (Some i) (Some j)) ;;
  ret (VProxy sl field).

(** [for index in range(len(self)): yield self[index]], as the list of
    the reads the generator performs, one per step. *)
Definition Proxy__iter__ (list_ : value) (field : Field) : M (list (M value)) :=
  n <- Proxy__len__ list_ ;;
  ret (map (fun index => Proxy__getitem__ list_ field (Index (Z.of_nat index))) (seq 0 n)).

(** The argument handling shared by [append] and [insert]: [*args] are
    the positional values, [**kwargs] the keyword values.  The keyword
    dict is only materialized on the branch that uses it as a value. *)
Definition Proxy_argument (method_msg : string) (field : Field)
    (args : list value) (kwargs : list (string * value)) : M value :=
  if negb (bool_decide (args = [])) || negb (is_DictField field)
  then
    match args with
    | [val] => ret val
    | _ => raise TypeError method_msg [VInt (Z.of_nat (length args))]
    end
  else alloc (ODict (map (fun kv => (Some (fst kv), snd kv)) kwargs)).

Definition Proxy_append (list_ : value) (field : Field)
    (args : list value) (kwargs : list (string * value)) : M unit :=
  val <- Proxy_argument "append() takes exactly one argument (%s given)"
             field args kwargs ;;
  a <- list_method list_ "append" ;;
  item <- rec_to_json rec field val ;;
  list_update a (fun l => l ++ [item]).

Definition Proxy_insert (list_ : value) (field : Field) (idx : Z)
    (args : list value) (kwargs : list (string * value)) : M unit :=
  val <- Proxy_argument "insert() takes exactly 2 arguments (%s given)"
             field args kwargs ;;
  a <- list_method list_ "insert" ;;
  item <- rec_to_json rec field val ;;
  list_update a (fun l => list_insert_at l idx item).

(** *** Iteration, [for item in value] *)

Definition string_chars (s : string) : list value :=
  map (fun c => VStr (String c EmptyString)) (String.list_ascii_of_string s).

Definition struct_time_items (st : struct_time) : list value :=
  map VInt [tm_year st; tm_mon st; tm_mday st; tm_hour st; tm_min st;
            tm_sec st; tm_wday st; tm_yday st; tm_isdst st].

(** The items an iteration over [v] yields, each as the computation that
    produces it when the loop reaches it. *)
Definition py_iter (v : value) : M (list (M value)) :=
  match v with
  | VRef a =>
      o <- read a ;;
      ret (match o with
           | OList l => map ret l
           | ODict d => map (fun k => ret (key_value k)) (dict_keys d)
           end)
  | VRecord _ data =>                           (* Mapping.__iter__ *)
      o <- read data ;;
      match o with
      | ODict d => ret (map (fun k => ret (key_value k)) (dict_keys d))
      | OList _ => unmodelled
      end
  | VProxy list_ field => Proxy__iter__ list_ field
  | VStr s => if is_ascii_text s then ret (map ret (string_chars s)) else unmodelled
  | VStructTime st => ret (map ret (struct_time_items st))
  | _ => raise TypeError "object is not iterable" [v]
  end.

(** *** ListField *)

Definition ListField_to_python (field : Field) (val : value) : M value :=
  ret (VProxy val field).

(** [[self.field._to_json(item) for item in value]] *)
Definition ListField_to_json (field : Field) (val : value) : M value :=
  items <- py_iter val ;;
  raw <- mapM (fun next => item <- next ;; rec_to_json rec field item) items ;;
  alloc (OList raw).

(** *** The conversions of a field, by its class *)

Definition _to_python (self : Field) (val : value) : M value :=
  match f_kind self with
  | KField | KText => builtin unicode_type val
  | KFloat => builtin py_float val
  | KInteger => builtin py_int val
  | KLong => builtin py_long val
  | KBoolean => b <- py_bool val ;; ret (VBool b)
  | KDecimal => builtin Decimal val
  | KDate => DateField_to_python val
  | KDateTime => DateTimeField_to_python val
  | KTime => TimeField_to_python val
  | KDict mapping => DictField_to_python mapping val
  | KList field => ListField_to_python field val
  end.

Definition _to_json (self : Field) (val : value) : M value :=
  match f_kind self with
  | KField | KText | KFloat | KInteger | KLong | KBoolean =>
      _to_python self val                 (* Field._to_json *)
  | KDecimal => builtin unicode_type val
  | KDate => DateField_to_json val
  | KDateTime => DateTimeField_to_json val
  | KTime => TimeField_to_json val
  | KDict mapping => DictField_to_json mapping val
  | KList field => ListField_to_json field val
  end.

(** *** Field: the descriptor protocol *)

Definition Field__get__ (self : Field) (instance : value) : M value :=
  match instance with
  | VNone => ret (VDescriptor self)
  | VRecord _ data =>
      val <- Mapping_get data (f_name self) ;;
      if negb (is_none val) then rec_to_python rec self val
      else if negb (is_none (f_default self)) then
        let default := f_default self in
        if callable default then py_call default else ret default
      else ret val
  | _ => unmodelled
  end.

Definition Field__set__ (self : Field) (instance : value) (val : value) : M unit :=
  match instance with
  | VRecord _ data =>
      val <- (if negb (is_none val) then rec_to_json rec self val else ret val) ;;
      Mapping__setitem__ data (f_name self) val
  | _ => unmodelled
  end.

(** *** Attribute access on a record

    [getattr(self, name)] and [setattr(self, name, v)] look [name] up on
    the class of [self].  A Field found there is a data descriptor: its
    [__get__] or [__set__] runs.  When something else is found, or
    nothing is, the assignment creates an attribute of the instance
    itself and [_data] is not touched; these attributes of the instance
    are not part of the state, since [Mapping.__init__], the one caller,
    accesses each name once. *)

Definition class_attribute (cls : Klass) (name : string) : option Attribute :=
  assoc_lookup name (c_attributes cls).

Definition py_getattr (self : value) (name : string) : M value :=
  match self with
  | VRecord cls _ =>
      match class_attribute cls name with
      | Some (FieldAttribute f) => Field__get__ f self
      | Some (OtherAttribute v) => ret v
      | None => raise AttributeError "object has no attribute %r" [VStr name]
      end
  | _ => unmodelled
  end.

Definition py_setattr (self : value) (name : string) (v : value) : M unit :=
  match self with
  | VRecord cls _ =>
      match class_attribute cls name with
      | Some (FieldAttribute f) => Field__set__ f self v
      | Some (OtherAttribute _) | None => ret tt
      end
  | _ => unmodelled
  end.

(** *** Mapping.__init__ *)

(** The body of the loop over [self._fields.items()]; it does not use
    the descriptor the loop binds to [field]. *)
Definition Mapping__init__step (self values : value) (item : string * Field) : M unit :=
  let '(field_name, _) := item in
  present <- py_contains values (Some field_name) ;;
  if present then
    v <- py_pop values (Some field_name) ;;
    py_setattr self field_name v
  else
    v <- py_getattr self field_name ;;
    py_setattr self field_name v.

(** [cls(values)]: the instance is created and [__init__] runs on it. *)
Definition Mapping__init__ (cls : Klass) (values : value) : M value :=
  given <- py_bool values ;;
  values <- (if given then ret values else alloc (ODict [])) ;;
  data <- new_obj (ODict []) ;;
  let self := VRecord cls data in
  for_each (c_fields cls) (Mapping__init__step self values) ;;;
  ret self.

End Methods.

(** Tying the knot: a call made with no fuel left does not return. *)
Fixpoint interp (fuel : nat) : Interp :=
  match fuel with
  | O => {| rec_to_python := fun _ _ => out_of_fuel;
            rec_to_json := fun _ _ => out_of_fuel;
            rec_init := fun _ _ => out_of_fuel |}
  | S n => {| rec_to_python := _to_python (interp n);
              rec_to_json := _to_json (interp n);
              rec_init := Mapping__init__ (interp n) |}
  end.

End Program.

(** ** Field constructors *)

Section Constructors.
Context {B : Builtins}.

Definition Field__init__ (kind : FieldKind) (name : option string) (default : value) : Field :=
  MkField kind name default.

(** [DictField(mapping, name, default)] *)
Definition DictField__init__ (mapping : option Klass) (name : option string)
    (default : value) : M Field :=
  given <- py_bool default ;;
  default <- (if given then ret default else alloc (ODict [])) ;;   (* default or {} *)
  ret (Field__init__ (KDict mapping) name (VFunction (LambdaDictCopy default))).

(** What [ListField] may receive as its [field] argument: a descriptor,
    or a class.  [type(field) is type] holds for the Field classes; a
    Mapping subclass has the metaclass [MappingMeta] as its type, so the
    test fails for it and the class itself is kept as [self.field], which
    is not a descriptor and lies outside the embedding. *)
Inductive field_class :=
| CField | CText | CFloat | CInteger | CLong | CBoolean | CDecimal
| CDate | CDateTime | CTime | CDict | CList.

Inductive field_arg :=
| FieldInstance (f : Field)
| FieldClass (c : field_class)
| MappingClass (cls : Klass).

(** [field()] for a Field class *)
Definition instantiate (c : field_class) : M Field :=
  match c with
  | CField => ret (Field__init__ KField None VNone)
  | CText => ret (Field__init__ KText None VNone)
  | CFloat => ret (Field__init__ KFloat None VNone)
  | CInteger => ret (Field__init__ KInteger None VNone)
  | CLong => ret (Field__init__ KLong None VNone)
  | CBoolean => ret (Field__init__ KBoolean None VNone)
  | CDecimal => ret (Field__init__ KDecimal None VNone)
  | CDate => ret (Field__init__ KDate None VNone)
  | CDateTime => ret (Field__init__ KDateTime None VNone)
  | CTime => ret (Field__init__ KTime None VNone)
  | CDict => DictField__init__ None None VNone
  | CList => raise TypeError "__init__() missing 1 required positional argument" []
  end.

(** [ListField(field, name, default)] *)
Definition ListField__init__ (field : field_arg) (name : option string)
    (default : value) : M Field :=
  given <- py_bool default ;;
  default <- (if given then ret default else alloc (OList [])) ;;   (* default or [] *)
  field <- match field with
           | FieldInstance f => ret f
           | FieldClass c => instantiate c
           | MappingClass _ => unmodelled
           end ;;
  ret (Field__init__ (KList field) name (VFunction (LambdaCopyCopy default))).

End Constructors.

(** ** MappingMeta.__new__

    At class creation the descriptors are Field objects with an identity:
    the metaclass binds the name of an unnamed descriptor in place.  The
    store holds the Field objects; a class body refers to them by index. *)

Definition field_ref := nat.
Definition field_store := list Field.

(** An attribute of a class body: a Field object, or anything else. *)
Inductive attr :=
| AttrField (r : field_ref)
| AttrOther.

(** The [_fields] of a class: names to Field objects. *)
Definition schema := list (string * field_ref).

(** [if not field_value.name: field_value.name = field_name] *)
Definition bind_name (r : field_ref) (field_name : string) (store : field_store) : field_store :=
  match store !! r with
  | Some f => if name_unset (f_name f) then <[r := set_name f (Some field_name)]> store
              else store
  | None => store
  end.

(** The loop over the class body. *)
Definition MappingMeta__new__step (acc : schema * field_store) (item : string * attr)
    : schema * field_store :=
  let '(fields, store) := acc in
  let '(field_name, field_value) := item in
  match field_value with
  | AttrField r => (assoc_set field_name r fields, bind_name r field_name store)
  | AttrOther => (fields, store)
  end.

(** [bases]: for each base class, [getattr(base, '_fields', {})], which is
    [None] here for a base that has no [_fields].  [dct]: the class body.
    Returns the [_fields] attached to the new class and the store. *)
Definition MappingMeta__new__ (bases : list (option schema)) (dct : list (string * attr))
    (store : field_store) : schema * field_store :=
  let fields :=
    fold_left (fun fields base => assoc_update fields (default [] base)) bases [] in
  fold_left MappingMeta__new__step dct (fields, store).

(** ** An instance of the parameters

    One instance of [Builtins], on which the examples below run.  Its
    conversions are defined on the text, integers and floats that need no
    conversion, and raise [TypeError] on other inputs; its [strptime] reads the numeric directives at their full
    width. *)

Module Example.

Definition digit_val (c : ascii) : Z := Z.of_nat (nat_of_ascii c - 48).

Fixpoint read_digits (n : nat) (s : string) (acc : Z) : option (Z * string) :=
  match n with
  | O => Some (acc, s)
  | S n' =>
      match s with
      | String c s' =>
          if is_digit c then read_digits n' s' (acc * 10 + digit_val c)%Z else None
      | EmptyString => None
      end
  end.

Definition set_directive (d : ascii) (z : Z) (st : struct_time) : option struct_time :=
  let 'mk_struct_time y mo md h mi s wd yd dst := st in
  if decide (d = "Y"%char) then Some (mk_struct_time z mo md h mi s wd yd dst)
  else if decide (d = "m"%char) then Some (mk_struct_time y z md h mi s wd yd dst)
  else if decide (d = "d"%char) then Some (mk_struct_time y mo z h mi s wd yd dst)
  else if decide (d = "H"%char) then Some (mk_struct_time y mo md z mi s wd yd dst)
  else if decide (d = "M"%char) then Some (mk_struct_time y mo md h z s wd yd dst)
  else if decide (d = "S"%char) then Some (mk_struct_time y mo md h mi z wd yd dst)
  else None.

Fixpoint parse (fmt : list ascii) (s : string) (st : struct_time) : option struct_time :=
  match fmt with
  | [] => match s with EmptyString => Some st | _ => None end
  | c :: fmt' =>
      match fmt' with
      | d :: fmt'' =>
          if decide (c = "%"%char) then
            match read_digits (if decide (d = "Y"%char) then 4 else 2) s 0 with
            | Some (z, s') =>
                match set_directive d z st with
                | Some st' => parse fmt'' s' st'
                | None => None
                end
            | None => None
            end
          else
            match s with
            | String c' s' => if decide (c = c') then parse fmt' s' st else None
            | EmptyString => None
            end
      | [] =>
          match s with
          | String c' EmptyString => if decide (c = c') then Some st else None
          | _ => None
          end
      end
  end.

Definition parse_time (text format : string) : result struct_time :=
  match parse (String.list_ascii_of_string format) text
              (mk_struct_time 1900 1 1 0 0 0 0 1 (-1)) with
  | Some st => Val st
  | None => Exc (PyExc ValueError "time data %r does not match format %r"
                       [VStr text; VStr format])
  end.

Definition days_from_civil (y m d : Z) : Z :=
  let y' := (if m <=? 2 then y - 1 else y)%Z in
  let era := (y' / 400)%Z in
  let yoe := (y' - era * 400)%Z in
  let doy := ((153 * (m + (if 2 <? m then -3 else 9)) + 2) / 5 + d - 1)%Z in
  let doe := (yoe * 365 + yoe / 4 - yoe / 100 + doy)%Z in
  (era * 146097 + doe - 719468)%Z.

Definition civil_from_days (z : Z) : date_t :=
  let z := (z + 719468)%Z in
  let era := (z / 146097)%Z in
  let doe := (z - era * 146097)%Z in
  let yoe := ((doe - doe / 1460 + doe / 36524 - doe / 146096) / 365)%Z in
  let doy := (doe - (365 * yoe + yoe / 4 - yoe / 100))%Z in
  let mp := ((5 * doy + 2) / 153)%Z in
  let d := (doy - (153 * mp + 2) / 5 + 1)%Z in
  let m := (mp + (if mp <? 10 then 3 else -9))%Z in
  mk_date (yoe + era * 400 + (if m <=? 2 then 1 else 0))%Z m d.

Definition epoch_seconds (st : struct_time) : Z :=
  (days_from_civil (tm_year st) (tm_mon st) (tm_mday st) * 86400
   + tm_hour st * 3600 + tm_min st * 60 + tm_sec st)%Z.

Definition utc_of_seconds (t : Z) : result value :=
  let secs := (t mod 86400)%Z in
  let dt := mk_datetime (civil_from_days (t / 86400))
              (mk_time (secs / 3600) (secs / 60 mod 60) (secs mod 60) 0) in
  if datetime_valid dt then Val (VDateTime dt)
  else Exc (PyExc ValueError "year is out of range" []).

Definition text_of (h : heap) (v : value) : result value :=
  match v with
  | VStr s => Val (VStr s)
  | _ => Exc (PyExc TypeError "conversion outside the example instance" [v])
  end.

Definition int_of (h : heap) (v : value) : result value :=
  match v with
  | VInt n => Val (VInt n)
  | VBool b => Val (VInt (if b then 1 else 0))
  | _ => Exc (PyExc TypeError "conversion outside the example instance" [v])
  end.

Definition float_of (h : heap) (v : value) : result value :=
  match v with
  | VFloat x => Val (VFloat x)
  | _ => Exc (PyExc TypeError "conversion outside the example instance" [v])
  end.

Definition no_conversion (h : heap) (v : value) : result value :=
  Exc (PyExc TypeError "conversion outside the example instance" [v]).

(** Three producers: the builtin types [list] and [dict] used as default
    factories, and a clock that always shows the same instant. *)
Definition producers (id : string) (h : heap) : result value * list obj :=
  if decide (id = "list") then (Val (VRef (length h)), [OList []])
  else if decide (id = "dict") then (Val (VRef (length h)), [ODict []])
  else if decide (id = "now") then
    (Val (VDateTime (mk_datetime (mk_date 2007 4 1) (mk_time 15 30 0 9876))), [])
  else (Exc (PyExc TypeError "object is not callable" [VStr id]), []).

Definition builtins : Builtins := {|
  PY2 := false;
  unicode_type := text_of;
  py_float := float_of;
  py_int := int_of;
  py_long2 := int_of;
  Decimal := no_conversion;
  strptime := parse_time;
  timegm := epoch_seconds;
  utcfromtimestamp := utc_of_seconds;
  time_bool := fun _ => true;
  call_extern := producers
|}.

End Example.


(** ** The contracts of the specification, in its words *)

(** The raw value a record stores for a field name, if any. *)
Definition stored_raw (h : heap) (data : addr) (name : key) : option value :=
  match h !! data with
  | Some (ODict d) => dict_lookup name d
  | _ => None
  end.

Section Contracts.
Context {B : Builtins}.

(** Resolving a configured default: invoke it if it is a zero-argument
    producer, else use it as it is. *)
Definition resolve_default (default : value) : M value :=
  if callable default then py_call default else ret default.

(** Contract on read: the typed conversion of the raw value when it is
    present and not null; otherwise the resolved default when one is
    configured; otherwise null. *)
Definition read_contract (to_typed : Field -> value -> M value)
    (self : Field) (data : addr) : M value :=
  fun h =>
    let fallback :=
      if is_none (f_default self) then Returns VNone h
      else resolve_default (f_default self) h in
    match stored_raw h data (f_name self) with
    | Some raw => if is_none raw then fallback else to_typed self raw h
    | None => fallback
    end.

End Contracts.

(** ** Predicates on heaps used in the statements *)

(** From [h] to [h'] the heap has not shrunk, and the objects at the
    addresses below [k] are unchanged, but for those in [S]. *)
Definition heap_frame (k : nat) (S : addr -> Prop) (h h' : heap) : Prop :=
  length h <= length h' /\ forall a, a < k -> ~ S a -> h' !! a = h !! a.

(** A computation that, run on a heap of at least [k] objects, leaves the
    objects below [k] and outside [S] as they are. *)
Definition preserves {A} (k : nat) (S : addr -> Prop) (m : M A) : Prop :=
  forall h, k <= length h ->
    match m h with
    | Returns _ h' | Raises _ h' => heap_frame k S h h'
    | _ => True
    end.

Definition nowhere : addr -> Prop := fun _ => False.

(** The object a call of [cls(values)] may mutate: the one behind [values]. *)
Definition behind (values : value) : addr -> Prop :=
  fun a => match values with
           | VRef a' | VRecord _ a' => a = a'
           | _ => False
           end.

(** ** Schema inheritance, in the words of the specification *)

(** The field the ancestors contribute under a name: that of the
    last-listed ancestor that has one. *)
Fixpoint inherited (bases : list (option schema)) (n : string) : option field_ref :=
  match bases with
  | [] => None
  | base :: bases' =>
      match inherited bases' n with
      | Some r => Some r
      | None => assoc_lookup n (default [] base)
      end
  end.

(** The field the class body declares under a name. *)
Definition declared (dct : list (string * attr)) (n : string) : option field_ref :=
  match assoc_lookup n dct with
  | Some (AttrField r) => Some r
  | _ => None
  end.

(** A Python dict has no repeated key. *)
Definition is_dict {K A} (d : list (K * A)) : Prop := NoDup (map fst d).

(** The lookup of each field's name on the class finds the descriptor that
    [_fields] holds under that name: no field is shadowed by an attribute
    of a class that comes earlier in the method resolution order. *)
Definition fields_resolve (cls : Klass) : Prop :=
  forall n f, (n, f) ∈ c_fields cls -> class_attribute cls n = Some (FieldAttribute f).

(** The date-time value 2007-04-01 15:30:00 of the specification's example. *)
Definition datetime_2007_04_01 : value :=
  VDateTime (mk_datetime (mk_date 2007 4 1) (mk_time 15 30 0 0)).

(** ** Record construction, in the words of the specification *)

Section Construction.
Context {B : Builtins}.
Variable rec : Interp.
(** The new record, the mapping the loop reads from, and the items the
    input mapping had when the construction began. *)
Variables (self values : value) (input : dict).

(** One step per declared field, from the heap before the step to the
    heap after the last step. *)
Inductive constructs : list (string * Field) -> heap -> heap -> Prop :=
| constructs_done h :
    constructs [] h h
| constructs_given field_name field fields h v h1 h2 h3 :
    (* the field's name is a key of the input: *)
    dict_lookup (Some field_name) input = Some v ->
    (* the key is removed from the mapping, *)
    py_pop values (Some field_name) h = Returns v h1 ->
    (* and its value goes through the typed write *)
    Field__set__ rec field self v h1 = Returns tt h2 ->
    constructs fields h2 h3 ->
    constructs ((field_name, field) :: fields) h h3
| constructs_default field_name field fields h v h1 h2 h3 :
    (* the field's name is not a key of the input: *)
    dict_lookup (Some field_name) input = None ->
    (* a typed read, *)
    Field__get__ rec field self h = Returns v h1 ->
    (* whose result is written back through the typed write *)
    Field__set__ rec field self v h1 = Returns tt h2 ->
    constructs fields h2 h3 ->
    constructs ((field_name, field) :: fields) h h3.

End Construction.

(** The stored names of the declared fields. *)
Definition stored_names (fields : list (string * Field)) : list key :=
  map (fun item => f_name (snd item)) fields.

(** The keys under which the input is read. *)
Definition declared_keys (fields : list (string * Field)) : list key :=
  map (fun item => Some (fst item)) fields.

(** What the construction stored for the field [f] declared as [n]: the
    value [v] it started from (the input's, or the result of the typed
    read), converted to [raw] unless null, at some point [ha] of the run
    from [h] to [h'].  [S] holds the two objects the loop mutates: the
    mapping it reads from and the record's backing store. *)
Definition written {B : Builtins} (rec : Interp) (self : value) (S : addr -> Prop)
    (input : dict) (h h' : heap) (n : string) (f : Field) (raw : value) : Prop :=
  exists v hx ha hb,
    heap_frame (length h) S h hx
    /\ match dict_lookup (Some n) input with
       | Some v' => v' = v /\ heap_frame (length hx) S hx ha
       | None => Field__get__ rec f self hx = Returns v ha
       end
    /\ (if is_none v then Returns v ha else rec_to_json rec f v ha) = Returns raw hb
    /\ heap_frame (length hb) S hb h'.

(** The record's slot for [name] is absent, or holds an explicit null. *)
Definition slot_empty (h : heap) (data : addr) (name : key) : Prop :=
  exists d, h !! data = Some (ODict d)
            /\ (dict_lookup name d = None \/ dict_lookup name d = Some VNone).

(** ** Raw JSON values and their representation in the heap *)

Inductive json :=
| JNull
| JBool (b : bool)
| JInt (n : Z)
| JFloat (bits : Z)
| JStr (s : string)
| JList (items : list json)
| JDict (items : list (string * json)).

Fixpoint json_size (j : json) : nat :=
  match j with
  | JList items => S (list_sum (map json_size items))
  | JDict items => S (list_sum (map (fun kj => json_size (snd kj)) items))
  | _ => 1
  end.

(** [represents S h j v]: in the heap [h] the value [v] is the JSON value
    [j], through objects none of which is in [S]. *)
Inductive represents (S : addr -> Prop) (h : heap) : json -> value -> Prop :=
| represents_null : represents S h JNull VNone
| represents_bool b : represents S h (JBool b) (VBool b)
| represents_int n : represents S h (JInt n) (VInt n)
| represents_float x : represents S h (JFloat x) (VFloat x)
| represents_str s : represents S h (JStr s) (VStr s)
| represents_list a items vs :
    ~ S a -> h !! a = Some (OList vs) ->
    Forall2 (represents S h) items vs ->
    represents S h (JList items) (VRef a)
| represents_dict a items d :
    ~ S a -> h !! a = Some (ODict d) ->
    Forall2 (fun kj kv => fst kv = Some (fst kj) /\ represents S h (snd kj) (snd kv))
      items d ->
    represents S h (JDict items) (VRef a).

(** The entries of a raw mapping. *)
Definition represents_items (S : addr -> Prop) (h : heap)
    (items : list (string * json)) (d : dict) : Prop :=
  Forall2 (fun kj kv => fst kv = Some (fst kj) /\ represents S h (snd kj) (snd kv))
    items d.

(** ** Round trip: the schemas, the raw input and what the record must hold *)

(** The raw form of the default of a field, for the defaults below: null,
    a number, a truth value or a text that is kept as it is, and the
    function that a composite field installs, which returns an empty
    container. *)
Definition default_json (f : Field) : json :=
  match f_default f with
  | VBool b => JBool b
  | VInt n => JInt n
  | VFloat x => JFloat x
  | VStr s => JStr s
  | VFunction _ => match f_kind f with KList _ => JList [] | _ => JDict [] end
  | _ => JNull
  end.

(** [raw_item f j]: [j] is a well-formed value in raw form for the field
    [f], what [to_raw] of [f] produces.  Date and time fields are left out:
    no text is a raw item for them here.  A mapping for a nested schema
    has no key [cls], holds declared keys only, and under each a null or a
    raw item of the field. *)
Fixpoint raw_item (f : Field) (j : json) : Prop :=
  match f with
  | MkField kind _ _ =>
      match kind with
      | KField | KText | KDecimal => exists s, j = JStr s
      | KFloat => exists x, j = JFloat x
      | KInteger | KLong => exists n, j = JInt n
      | KBoolean => exists b, j = JBool b
      | KDate | KTime => False
      | KDateTime =>
          exists dt, datetime_valid dt = true /\ microsecond (dt_time dt) = 0%Z
                     /\ j = JStr (datetime_isoformat dt +:+ "Z")
      | KDict None => True
      | KDict (Some (ClassObject _ fields _)) =>
          exists items,
            j = JDict items /\ assoc_lookup "cls" items = None
            /\ NoDup (map fst items)
            /\ (forall n, n ∈ map fst items -> n ∈ map fst fields)
            /\ (fix each (fs : list (string * Field)) : Prop :=
                  match fs with
                  | [] => True
                  | (n, f') :: fs' =>
                      (forall j', assoc_lookup n items = Some j' ->
                                  j' = JNull \/ raw_item f' j')
                      /\ each fs'
                  end) fields
      | KList elt => exists items, j = JList items /\ Forall (raw_item elt) items
      end
  end.

(** The items of a raw mapping that is well-formed input for [cls]: keys
    that are declared, values that are null or in raw form for the
    field. *)
Definition raw_mapping (cls : Klass) (items : list (string * json)) : Prop :=
  NoDup (map fst items)
  /\ (forall n, n ∈ map fst items -> n ∈ map fst (c_fields cls))
  /\ Forall (fun nf => forall j', assoc_lookup (fst nf) items = Some j' ->
                                  j' = JNull \/ raw_item (snd nf) j') (c_fields cls).

(** The default of a field is null, a value in raw form for the field, or
    the function a composite field installs, copying an empty container
    that the heap holds outside [S]. *)
Definition default_plain (S : addr -> Prop) (h : heap) (f : Field) : Prop :=
  match f_default f with
  | VNone => True
  | VBool _ | VInt _ | VFloat _ | VStr _ => raw_item f (default_json f)
  | VFunction (LambdaDictCopy (VRef c)) =>
      (exists mapping, f_kind f = KDict mapping) /\ ~ S c /\ h !! c = Some (ODict [])
  | VFunction (LambdaCopyCopy (VRef c)) =>
      (exists elt, f_kind f = KList elt) /\ ~ S c /\ h !! c = Some (OList [])
  | _ => False
  end.

(** A schema, at every level of nesting: no two fields of a class have the
    same name; every descriptor is found under the name it is declared
    under by the lookup on the class, is stored under that name, and has a
    default as above. *)
Fixpoint field_plain (S : addr -> Prop) (h : heap) (f : Field) : Prop :=
  match f with
  | MkField kind _ _ =>
      match kind with
      | KList elt => field_plain S h elt
      | KDict (Some (ClassObject _ fields attrs)) =>
          NoDup (map fst fields)
          /\ (fix each (fs : list (string * Field)) : Prop :=
                match fs with
                | [] => True
                | (n, f') :: fs' =>
                    (f_name f' = Some n
                     /\ assoc_lookup n attrs = Some (FieldAttribute f')
                     /\ default_plain S h f' /\ field_plain S h f')
                    /\ each fs'
                end) fields
      | _ => True
      end
  end.

Definition class_plain (S : addr -> Prop) (h : heap) (cls : Klass) : Prop :=
  field_plain S h (MkField (KDict (Some cls)) None VNone).

(** [complete f j]: the raw value [j] of the field [f] with, in every
    mapping for a nested schema, the fields that the mapping has no value
    for added, each with its default in raw form; the fields come in the
    order of their declaration. *)
Fixpoint complete (f : Field) (j : json) : json :=
  match f with
  | MkField kind _ _ =>
      match kind, j with
      | KList elt, JList items => JList (map (complete elt) items)
      | KDict (Some (ClassObject _ fields _)), JDict items =>
          JDict ((fix each (fs : list (string * Field)) : list (string * json) :=
                    match fs with
                    | [] => []
                    | (n, f') :: fs' =>
                        (n, match assoc_lookup n items with
                            | Some j' => complete f' j'
                            | None => complete f' (default_json f')
                            end) :: each fs'
                    end) fields)
      | _, _ => j
      end
  end.

(** The items of [r.unwrap()] for a record of [cls] constructed from a
    mapping with the items [items]. *)
Definition completed (cls : Klass) (items : list (string * json)) : list (string * json) :=
  map (fun nf => (fst nf, match assoc_lookup (fst nf) items with
                          | Some j' => complete (snd nf) j'
                          | None => complete (snd nf) (default_json (snd nf))
                          end)) (c_fields cls).

(** The fuel that the raw conversion of a value of the field [f] needs at
    most: one unit per call of [_to_json] and of a class. *)
Fixpoint fuel_needed (f : Field) : nat :=
  match f with
  | MkField kind _ _ =>
      match kind with
      | KList elt => S (fuel_needed elt)
      | KDict (Some (ClassObject _ fields _)) =>
          S (S ((fix each (fs : list (string * Field)) : nat :=
                   match fs with
                   | [] => 0
                   | (_, f') :: fs' => Nat.max (fuel_needed f') (each fs')
                   end) fields))
      | _ => 1
      end
  end.

(** The fuel a construction of a record of [cls] needs at most. *)
Definition class_fuel (cls : Klass) : nat :=
  foldr (fun nf acc => Nat.max (fuel_needed (snd nf)) acc) 0 (c_fields cls).

(** The leaf codecs reproduce a value that is already in raw form. *)
Definition leaf_codecs_roundtrip (B : Builtins) : Prop :=
  (forall h s, unicode_type h (VStr s) = Val (VStr s))
  /\ (forall h n, py_int h (VInt n) = Val (VInt n))
  /\ (forall h n, py_long2 h (VInt n) = Val (VInt n))
  /\ (forall h x, py_float h (VFloat x) = Val (VFloat x))
  /\ (forall dt,
        datetime_valid dt = true -> microsecond (dt_time dt) = 0%Z ->
        exists st,
          strptime (datetime_isoformat dt) "%Y-%m-%dT%H:%M:%S" = Val st
          /\ mk_datetime (mk_date (tm_year st) (tm_mon st) (tm_mday st))
               (mk_time (tm_hour st) (tm_min st) (tm_sec st) 0) = dt).

(** ** The rest of the sequence view *)

(** The position of [l[i]] in [l], when the index is in range; a negative
    index counts from the end. *)
Definition list_position {A} (l : list A) (i : Z) : option nat :=
  let n := Z.of_nat (length l) in
  let i' := (if (i <? 0)%Z then i + n else i)%Z in
  if ((0 <=? i') && (i' <? n))%Z then Some (Z.to_nat i') else None.

Section SequenceView.
Context {B : Builtins}.

(** [x[index] = item] on a raw value.  Slice assignment and the keys of a
    dict that are not texts lie outside the embedding. *)
Definition py_setitem (x : value) (index : subscript) (item : value) : M unit :=
  match x with
  | VRef a =>
      o <- read a ;;
      match o, index with
      | OList l, Index i =>
          match list_position l i with
          | Some n => write a (OList (<[n := item]> l))
          | None => raise IndexError "list assignment index out of range" []
          end
      | _, _ => unmodelled
      end
  | VNone | VBool _ | VInt _ | VFloat _ | VStr _ | VDecimal _ | VDate _
  | VDateTime _ | VTime _ | VStructTime _ | VFunction _ | VDescriptor _ =>
      raise TypeError "object does not support item assignment" [x]
  | _ => unmodelled
  end.

(** [del x[index]] on a raw value. *)
Definition py_delitem (x : value) (index : subscript) : M unit :=
  match x with
  | VRef a =>
      o <- read a ;;
      match o, index with
      | OList l, Index i =>
          match list_position l i with
          | Some n => write a (OList (delete n l))
          | None => raise IndexError "list assignment index out of range" []
          end
      | ODict _, Index i => raise KeyError "%r" [VInt i]
      | _, Slice _ _ => unmodelled
      end
  | VNone | VBool _ | VInt _ | VFloat _ | VStr _ | VDecimal _ | VDate _
  | VDateTime _ | VTime _ | VStructTime _ | VFunction _ | VDescriptor _ =>
      raise TypeError "object does not support item deletion" [x]
  | _ => unmodelled
  end.

(** [list_.pop] applied to the arguments [args], for [list_] a list: the index argument is
    converted first, then an empty list is refused, then the index is
    checked. *)
Definition list_pop (list_ : value) (args : list value) : M value :=
  let pop_at (a : addr) (l : list value) (i : Z) : M value :=
    match l with
    | [] => raise IndexError "pop from empty list" []
    | _ =>
        match list_position l i with
        | Some n =>
            match l !! n with
            | Some item => write a (OList (delete n l)) ;;; ret item
            | None => unmodelled
            end
        | None => raise IndexError "pop index out of range" []
        end
    end in
  match list_ with
  | VRef a =>
      o <- read a ;;
      match o with
      | OList l =>
          match args with
          | [] => pop_at a l (-1)%Z
          | [VInt i] => pop_at a l i
          | [VBool b] => pop_at a l (if b then 1 else 0)%Z
          | [arg] => raise TypeError "object cannot be interpreted as an integer" [arg]
          | _ => raise TypeError "pop expected at most 1 argument, got %d"
                       [VInt (Z.of_nat (length args))]
          end
      | ODict _ => unmodelled                 (* dict.pop(key, default) *)
      end
  | VRecord _ _ | VProxy _ _ => unmodelled
  | _ => raise AttributeError "pop" [list_]
  end.

(** [for item in x: body(item)] for [x] a list that the body may grow:
    the list iterator reads the list again at each step. *)
Fixpoint for_list (steps : nat) (a : addr) (i : nat) (body : value -> M unit) : M unit :=
  match steps with
  | O => out_of_fuel
  | S steps' =>
      o <- read a ;;
      match o with
      | OList l =>
          match l !! i with
          | Some item => body item ;;; for_list steps' a (S i) body
          | None => ret tt
          end
      | ODict _ => unmodelled
      end
  end.

Section ViewMethods.
Variable rec : Interp.

Definition Proxy__setitem__ (list_ : value) (field : Field) (index : subscript)
    (val : value) : M unit :=
  item <- rec_to_json rec field val ;;
  py_setitem list_ index item.

Definition Proxy__delitem__ (list_ : value) (index : subscript) : M unit :=
  py_delitem list_ index.

Definition Proxy_pop (list_ : value) (field : Field) (args : list value) : M value :=
  item <- list_pop list_ args ;;
  rec_to_python rec field item.

(** [for item in list: self.append(item)].  Appending grows the view's
    own list, so a list argument is iterated step by step; the other
    iterables cannot be changed by the loop and are iterated as in
    [py_iter]. *)
Definition Proxy_extend (steps : nat) (list_ : value) (field : Field)
    (other : value) : M unit :=
  let body (item : value) := Proxy_append rec list_ field [item] [] in
  let over_items : M unit :=
    items <- py_iter rec other ;;
    for_each items (fun next => item <- next ;; body item) in
  match other with
  | VRef b =>
      o <- read b ;;
      match o with
      | OList _ => for_list steps b 0 body
      | ODict _ => over_items
      end
  | _ => over_items
  end.

End ViewMethods.

End SequenceView.

(** ** Mapping.build *)

(** [for attrname, attrval in d.items()]: binding the name of a descriptor
    that has none.  An attribute that is not a Field has no [name] the
    embedding knows of. *)
Definition Mapping_build_step (acc : option (schema * field_store)) (item : string * attr)
    : option (schema * field_store) :=
  match acc with
  | Some (fields, store) =>
      let '(attrname, attrval) := item in
      match attrval with
      | AttrField r => Some (assoc_set attrname r fields, bind_name r attrname store)
      | AttrOther => None
      end
  | None => None
  end.

(** [cls.build] called with the keywords [d], for [cls] a class whose
    [_fields] is [base]: the
    names are bound, [d['_fields']] is set to the dict just built, and the
    three-argument [type] call creates the class through the metaclass of
    [cls], which computes [_fields] anew from [cls] and [d]. *)
Definition Mapping_build (base : option schema) (d : list (string * attr))
    (store : field_store) : option (schema * field_store) :=
  match fold_left Mapping_build_step d (Some ([], store)) with
  | Some (_, store') =>
      Some (MappingMeta__new__ [base] (assoc_set "_fields" AttrOther d) store')
  | None => None
  end.

(** ** Reading back the ISO texts *)

(** [strptime] reads back the texts that [isoformat] writes for a valid
    date, time or date-time without microseconds. *)
Definition strptime_reads_isoformat (B : Builtins) : Prop :=
  (forall d, date_valid d = true ->
     exists st, strptime (date_isoformat d) "%Y-%m-%d" = Val st
                /\ mk_date (tm_year st) (tm_mon st) (tm_mday st) = d)
  /\ (forall t, time_valid t = true -> microsecond t = 0%Z ->
     exists st, strptime (time_isoformat t) "%H:%M:%S" = Val st
                /\ mk_time (tm_hour st) (tm_min st) (tm_sec st) 0 = t)
  /\ (forall dt, datetime_valid dt = true -> microsecond (dt_time dt) = 0%Z ->
     exists st, strptime (datetime_isoformat dt) "%Y-%m-%dT%H:%M:%S" = Val st
                /\ mk_datetime (mk_date (tm_year st) (tm_mon st) (tm_mday st))
                     (mk_time (tm_hour st) (tm_min st) (tm_sec st) 0) = dt).

(** * Properties *)

Local Open Scope py_scope.

(** ** The monad *)

Lemma bind_returns {A C} (m : M A) (k : A -> M C) h a h' :
  m h = Returns a h' -> bind m k h = k a h'.
Proof. intros Hm. unfold bind. rewrite Hm. reflexivity. Qed.

Lemma bind_raises {A C} (m : M A) (k : A -> M C) h e h' :
  m h = Raises e h' -> bind m k h = Raises e h'.
Proof. intros Hm. unfold bind. rewrite Hm. reflexivity. Qed.

(** Inversion of a bind that returns. *)
Lemma bind_inv_returns {A C} (m : M A) (k : A -> M C) h c h' :
  bind m k h = Returns c h' ->
  exists a h1, m h = Returns a h1 /\ k a h1 = Returns c h'.
Proof.
  unfold bind. destruct (m h) as [a h1| | |]; try discriminate. eauto.
Qed.

(** Inversion of a bind that raises. *)
Lemma bind_inv_raises {A C} (m : M A) (k : A -> M C) h e h' :
  bind m k h = Raises e h' ->
  m h = Raises e h' \/ exists a h1, m h = Returns a h1 /\ k a h1 = Raises e h'.
Proof.
  unfold bind. destruct (m h) as [a h1|e1 h1| |]; try discriminate.
  - right. eauto.
  - intros [= -> ->]. left. reflexivity.
Qed.


(** ** What a run leaves untouched *)

Lemma lookup_alloc_new (h : heap) o : (h ++ [o]) !! length h = Some o.
Proof. rewrite lookup_app_r by lia. by rewrite Nat.sub_diag. Qed.

Lemma lookup_alloc_old (h : heap) o a x :
  h !! a = Some x -> (h ++ [o]) !! a = Some x.
Proof. intros H. by apply lookup_app_l_Some. Qed.

Lemma lookup_write_same (h : heap) a o x :
  h !! a = Some x -> <[a := o]> h !! a = Some o.
Proof. intros H. apply list_lookup_insert_eq. by eapply lookup_lt_Some. Qed.

Lemma lookup_write_other (h : heap) a b o : a <> b -> <[a := o]> h !! b = h !! b.
Proof. intros H. by apply list_lookup_insert_ne. Qed.

Lemma heap_frame_refl k S h : heap_frame k S h h.
Proof. split; [lia | reflexivity]. Qed.

Lemma heap_frame_trans k S h1 h2 h3 :
  heap_frame k S h1 h2 -> heap_frame k S h2 h3 -> heap_frame k S h1 h3.
Proof.
  intros [Hl1 H1] [Hl2 H2]. split; [lia|].
  intros a Ha HS. rewrite H2, H1 by assumption. reflexivity.
Qed.

Lemma heap_frame_weaken k k' (S S' : addr -> Prop) h h' :
  k' <= k -> (forall a, S a -> S' a) ->
  heap_frame k S h h' -> heap_frame k' S' h h'.
Proof.
  intros Hk HS [Hl H]. split; [exact Hl|].
  intros a Ha HS'. apply H; [lia | intros HSa; apply HS', HS, HSa].
Qed.

Lemma heap_frame_app k S (h : heap) new : k <= length h -> heap_frame k S h (h ++ new).
Proof.
  intros Hk. split; [rewrite length_app; lia|].
  intros a Ha _. apply lookup_app_l. lia.
Qed.

Lemma heap_frame_write k (S : addr -> Prop) (h : heap) a o :
  k <= a \/ S a -> heap_frame k S h (<[a := o]> h).
Proof.
  intros Ha. split; [rewrite length_insert; lia|].
  intros b Hb HS. apply lookup_write_other. intros ->. destruct Ha; [lia | done].
Qed.

Section Preserves.
Context {A C : Type} (k : nat) (S : addr -> Prop).

Lemma preserves_ret (a : A) : preserves k S (ret a).
Proof. intros h _. apply heap_frame_refl. Qed.

Lemma preserves_raise c msg args : preserves k S (@raise A c msg args).
Proof. intros h _. apply heap_frame_refl. Qed.

Lemma preserves_unmodelled : preserves k S (@unmodelled A).
Proof. intros h _. exact I. Qed.

Lemma preserves_out_of_fuel : preserves k S (@out_of_fuel A).
Proof. intros h _. exact I. Qed.

Lemma preserves_lift (r : result A) : preserves k S (lift r).
Proof. intros h _. destruct r; apply heap_frame_refl. Qed.

Lemma preserves_bind (m : M A) (f : A -> M C) :
  preserves k S m -> (forall a, preserves k S (f a)) -> preserves k S (bind m f).
Proof.
  intros Hm Hf h Hk. unfold bind. specialize (Hm h Hk).
  destruct (m h) as [a h1|e h1| |]; try done.
  assert (k <= length h1) as Hk1 by (destruct Hm; lia).
  specialize (Hf a h1 Hk1).
  destruct (f a h1); try done; eapply heap_frame_trans; eassumption.
Qed.

Lemma preserves_try_except (m handler : M A) c :
  preserves k S m -> preserves k S handler -> preserves k S (try_except m c handler).
Proof.
  intros Hm Hh h Hk. unfold try_except. specialize (Hm h Hk).
  destruct (m h) as [a h1|e h1| |]; try done.
  destruct (decide _); [|done].
  assert (k <= length h1) as Hk1 by (destruct Hm; lia).
  specialize (Hh h1 Hk1).
  destruct (handler h1); try done; eapply heap_frame_trans; eassumption.
Qed.

Lemma preserves_weaken (S' : addr -> Prop) (m : M A) :
  (forall a, S a -> S' a) -> preserves k S m -> preserves k S' m.
Proof.
  intros HS Hm h Hh. specialize (Hm h Hh).
  destruct (m h); try done; (eapply heap_frame_weaken; [|eassumption..]; lia).
Qed.

End Preserves.

Lemma preserves_read k S a : preserves k S (read a).
Proof. intros h _. unfold read. destruct (h !! a); [apply heap_frame_refl | exact I]. Qed.

Lemma preserves_new_obj k S o : preserves k S (new_obj o).
Proof. intros h Hk. by apply heap_frame_app. Qed.

Lemma preserves_write k (S : addr -> Prop) a o :
  k <= a \/ S a -> preserves k S (write a o).
Proof. intros Ha h _. by apply heap_frame_write. Qed.

Lemma preserves_mapM {A C} k S (f : A -> M C) (l : list A) :
  (forall x, preserves k S (f x)) -> preserves k S (mapM f l).
Proof.
  intros Hf. induction l as [|x l IH]; simpl.
  - apply preserves_ret.
  - apply preserves_bind; [apply Hf | intros y].
    apply preserves_bind; [apply IH | intros ys]. apply preserves_ret.
Qed.

Lemma preserves_mapM_Forall {A C} k S (f : A -> M C) (l : list A) :
  Forall (fun x => preserves k S (f x)) l -> preserves k S (mapM f l).
Proof.
  induction 1 as [|x l Hx _ IH]; simpl.
  - apply preserves_ret.
  - apply preserves_bind; [apply Hx | intros y].
    apply preserves_bind; [apply IH | intros ys]. apply preserves_ret.
Qed.

Lemma preserves_for_each {A} k S (body : A -> M unit) (l : list A) :
  (forall x, preserves k S (body x)) -> preserves k S (for_each l body).
Proof.
  intros Hb. induction l as [|x l IH]; simpl.
  - apply preserves_ret.
  - apply preserves_bind; [apply Hb | intros _; apply IH].
Qed.

(** Compositional proof of [preserves]: follow the structure of the code,
    and use the lemmas of the functions already treated. *)
Create HintDb pres.

#[global] Hint Resolve preserves_read preserves_new_obj preserves_lift : pres.

Ltac preserves_step :=
  lazymatch goal with
  | |- preserves _ _ (ret _) => apply preserves_ret
  | |- preserves _ _ (raise _ _ _) => apply preserves_raise
  | |- preserves _ _ unmodelled => apply preserves_unmodelled
  | |- preserves _ _ out_of_fuel => apply preserves_out_of_fuel
  | |- preserves _ _ (bind _ _) => apply preserves_bind; [|intros ?]
  | |- preserves _ _ (try_except _ _ _) => apply preserves_try_except
  | |- preserves _ _ (match ?x with _ => _ end) => destruct x
  | |- preserves _ _ (if ?b then _ else _) => destruct b
  | |- preserves _ _ _ => solve [auto with pres]
  end.

Ltac preserves_auto := repeat preserves_step.

Section PreservesProgram.
Context {B : Builtins}.

Lemma preserves_alloc k S o : preserves k S (alloc o).
Proof. unfold alloc. preserves_auto. Qed.
Hint Resolve preserves_alloc : pres.

Lemma preserves_builtin k S f v : preserves k S (builtin f v).
Proof. intros h _. unfold builtin. destruct (f h v); apply heap_frame_refl. Qed.
Hint Resolve preserves_builtin : pres.

Lemma preserves_py_len k S v : preserves k S (py_len v).
Proof. induction v; simpl; preserves_auto. Qed.
Hint Resolve preserves_py_len : pres.

Lemma preserves_py_bool k S v : preserves k S (py_bool v).
Proof.
  induction v; simpl; preserves_auto; try apply preserves_py_len.
Qed.
Hint Resolve preserves_py_bool : pres.

Lemma preserves_method_copy k S v : preserves k S (method_copy v).
Proof. unfold method_copy. preserves_auto. Qed.
Hint Resolve preserves_method_copy : pres.

Lemma preserves_copy_copy k S v : preserves k S (copy_copy v).
Proof. unfold copy_copy. preserves_auto. Qed.
Hint Resolve preserves_copy_copy : pres.

Lemma preserves_py_call k S v : preserves k S (py_call v).
Proof.
  unfold py_call.
  destruct v as [| | | | | | | | | | | | |[d|d|id]|]; try solve [preserves_auto].
  intros h Hk. destruct (call_extern id h) as [r new].
  destruct r; cbn; by apply heap_frame_app.
Qed.
Hint Resolve preserves_py_call : pres.

Lemma preserves_Mapping__getitem__ k S data name :
  preserves k S (Mapping__getitem__ data name).
Proof. unfold Mapping__getitem__. preserves_auto. Qed.
Hint Resolve preserves_Mapping__getitem__ : pres.

Lemma preserves_Mapping_get k S data name : preserves k S (Mapping_get data name).
Proof. unfold Mapping_get. preserves_auto. Qed.
Hint Resolve preserves_Mapping_get : pres.

Lemma preserves_Mapping__setitem__ k (S : addr -> Prop) data name v :
  k <= data \/ S data -> preserves k S (Mapping__setitem__ data name v).
Proof.
  intros Hd. unfold Mapping__setitem__.
  apply preserves_bind; [auto with pres | intros [l|d]]; preserves_auto.
  by apply preserves_write.
Qed.
Hint Resolve preserves_Mapping__setitem__ : pres.

Lemma preserves_Mapping__delitem__ k (S : addr -> Prop) data name :
  k <= data \/ S data -> preserves k S (Mapping__delitem__ data name).
Proof.
  intros Hd. unfold Mapping__delitem__.
  apply preserves_bind; [auto with pres | intros [l|d]]; [preserves_auto|].
  destruct (dict_lookup name d); [by apply preserves_write | preserves_auto].
Qed.
Hint Resolve preserves_Mapping__delitem__ : pres.

Lemma preserves_py_contains k S values name : preserves k S (py_contains values name).
Proof.
  unfold py_contains. preserves_auto.
Qed.
Hint Resolve preserves_py_contains : pres.

Lemma preserves_py_pop k values name : preserves k (behind values) (py_pop values name).
Proof.
  assert (forall a o, behind values a -> preserves k (behind values) (write a o))
    as Hw by (intros; apply preserves_write; by right).
  unfold py_pop. destruct values; try solve [preserves_auto].
  - apply preserves_bind; [auto with pres | intros [l|d]]; [preserves_auto|].
    destruct (dict_lookup name d); [|preserves_auto].
    apply preserves_bind; [by apply Hw | intros _; preserves_auto].
  - apply preserves_bind; [auto with pres | intros v].
    apply preserves_bind; [|intros _; preserves_auto].
    apply preserves_Mapping__delitem__. by right.
Qed.
Hint Resolve preserves_py_pop : pres.

Lemma preserves_unpack_kwargs k S v : preserves k S (unpack_kwargs v).
Proof. unfold unpack_kwargs. preserves_auto. Qed.
Hint Resolve preserves_unpack_kwargs : pres.

Lemma preserves_py_getitem k S x index : preserves k S (py_getitem x index).
Proof. unfold py_getitem. preserves_auto. Qed.
Hint Resolve preserves_py_getitem : pres.

Lemma preserves_Mapping_unwrap k S v : preserves k S (Mapping_unwrap v).
Proof. unfold Mapping_unwrap. preserves_auto. Qed.
Hint Resolve preserves_Mapping_unwrap : pres.

Lemma preserves_DateField_to_python k S v : preserves k S (DateField_to_python v).
Proof. unfold DateField_to_python. preserves_auto. Qed.
Hint Resolve preserves_DateField_to_python : pres.

Lemma preserves_DateField_to_json k S v : preserves k S (DateField_to_json v).
Proof. unfold DateField_to_json. destruct v; preserves_auto. Qed.
Hint Resolve preserves_DateField_to_json : pres.

Lemma preserves_DateTimeField_to_python k S v :
  preserves k S (DateTimeField_to_python v).
Proof. unfold DateTimeField_to_python. preserves_auto. Qed.
Hint Resolve preserves_DateTimeField_to_python : pres.

Lemma preserves_DateTimeField_to_json k S v :
  preserves k S (DateTimeField_to_json v).
Proof.
  unfold DateTimeField_to_json. preserves_auto.
Qed.
Hint Resolve preserves_DateTimeField_to_json : pres.

Lemma preserves_TimeField_to_python k S v : preserves k S (TimeField_to_python v).
Proof. unfold TimeField_to_python. preserves_auto. Qed.
Hint Resolve preserves_TimeField_to_python : pres.

Lemma preserves_TimeField_to_json k S v : preserves k S (TimeField_to_json v).
Proof. unfold TimeField_to_json. destruct v; preserves_auto. Qed.
Hint Resolve preserves_TimeField_to_json : pres.

End PreservesProgram.

#[global] Hint Resolve preserves_alloc preserves_builtin preserves_py_len
  preserves_py_bool preserves_method_copy preserves_copy_copy preserves_py_call
  preserves_Mapping__getitem__ preserves_Mapping_get preserves_py_contains
  preserves_py_pop preserves_unpack_kwargs preserves_py_getitem
  preserves_Mapping_unwrap preserves_DateField_to_python
  preserves_DateField_to_json preserves_DateTimeField_to_python
  preserves_DateTimeField_to_json preserves_TimeField_to_python
  preserves_TimeField_to_json : pres.


(** Only the addresses below [k] matter: exceptions at or above [k] can be
    dropped. *)
Lemma preserves_outside {A} k (S S' : addr -> Prop) (m : M A) :
  (forall a, S a -> k <= a \/ S' a) -> preserves k S m -> preserves k S' m.
Proof.
  intros HS Hm h Hh. specialize (Hm h Hh).
  destruct (m h) as [x h'|e h'| |]; try done;
    (destruct Hm as [Hl Hm]; split; [exact Hl|];
     intros a Ha HS'; apply Hm; [exact Ha|];
     intros HSa; destruct (HS a HSa); [lia | done]).
Qed.

(** A bind whose continuation is only known to preserve the heap for the
    results the first computation can return. *)
Lemma preserves_bind_dep {A C} k S (m : M A) (f : A -> M C) (Q : A -> Prop) :
  preserves k S m ->
  (forall h a h1, k <= length h -> m h = Returns a h1 -> Q a) ->
  (forall a, Q a -> preserves k S (f a)) ->
  preserves k S (bind m f).
Proof.
  intros Hm HQ Hf h Hk. unfold bind. specialize (Hm h Hk).
  destruct (m h) as [a h1|e h1| |] eqn:Hmh; try done.
  assert (k <= length h1) as Hk1 by (destruct Hm; lia).
  specialize (Hf a (HQ _ _ _ Hk Hmh) h1 Hk1).
  destruct (f a h1); try done; eapply heap_frame_trans; eassumption.
Qed.

Lemma new_obj_fresh k o h a h1 :
  k <= length h -> new_obj o h = Returns a h1 -> k <= a.
Proof. unfold new_obj. intros Hk [= <- _]. exact Hk. Qed.

Lemma alloc_fresh k o h v h1 :
  k <= length h -> alloc o h = Returns v h1 -> exists a, v = VRef a /\ k <= a.
Proof. unfold alloc, bind, new_obj, ret. intros Hk [= <- _]. eauto. Qed.

Section PreservesMethods.
Context {B : Builtins}.
Variable rec : Interp.
Variable k : nat.
Hypothesis rec_to_python_preserves :
  forall f v, preserves k nowhere (rec_to_python rec f v).
Hypothesis rec_to_json_preserves :
  forall f v, preserves k nowhere (rec_to_json rec f v).
Hypothesis rec_init_preserves :
  forall cls values, preserves k (behind values) (rec_init rec cls values).

Lemma preserves_nowhere {A} S (m : M A) : preserves k nowhere m -> preserves k S m.
Proof. apply preserves_weaken. intros a []. Qed.

Hint Resolve preserves_nowhere : pres.

Lemma preserves_rec_to_python S f v : preserves k S (rec_to_python rec f v).
Proof. auto with pres. Qed.

Lemma preserves_rec_to_json S f v : preserves k S (rec_to_json rec f v).
Proof. auto with pres. Qed.

Hint Resolve preserves_rec_to_python preserves_rec_to_json : pres.

Lemma preserves_Mapping_from_kwargs S cls kwargs :
  preserves k S (Mapping_from_kwargs rec cls kwargs).
Proof.
  unfold Mapping_from_kwargs.
  case_bool_decide; [apply preserves_raise|].
  eapply preserves_bind_dep; [auto with pres | intros h a h1; apply alloc_fresh |].
  intros v (a & -> & Ha).
  eapply preserves_outside; [|apply rec_init_preserves].
  intros a' Ha'. left. simpl in Ha'. lia.
Qed.

Hint Resolve preserves_Mapping_from_kwargs : pres.

Lemma preserves_DictField_to_python S mapping v :
  preserves k S (DictField_to_python rec mapping v).
Proof. unfold DictField_to_python. preserves_auto. Qed.

Lemma preserves_DictField_to_json S mapping v :
  preserves k S (DictField_to_json rec mapping v).
Proof. unfold DictField_to_json. preserves_auto. Qed.

Lemma preserves_Proxy__getitem__ S list_ field index :
  preserves k S (Proxy__getitem__ rec list_ field index).
Proof. unfold Proxy__getitem__. preserves_auto. Qed.

Lemma preserves_Proxy__getslice__ S list_ field i j :
  preserves k S (Proxy__getslice__ list_ field i j).
Proof. unfold Proxy__getslice__. preserves_auto. Qed.

Hint Resolve preserves_DictField_to_python preserves_DictField_to_json
  preserves_Proxy__getitem__ : pres.

(** Every item an iteration yields is produced without touching the heap
    below [k]. *)
Lemma py_iter_items S v h items h' :
  py_iter rec v h = Returns items h' ->
  Forall (fun next => preserves k S next) items.
Proof.
  assert (forall (f : key -> value) (l : list key),
            Forall (fun next => preserves k S next) (map (fun x => ret (f x)) l))
    as Hkeys.
  { intros f l. apply Forall_forall. intros next Hin.
    apply list_elem_of_In, in_map_iff in Hin as (x & <- & _). apply preserves_ret. }
  assert (forall l : list value,
            Forall (fun next : M value => preserves k S next) (map ret l))
    as Hvals.
  { intros l. apply Forall_forall. intros next Hin.
    apply list_elem_of_In, in_map_iff in Hin as (x & <- & _). apply preserves_ret. }
  unfold py_iter. destruct v; try discriminate.
  - destruct (is_ascii_text s); [|discriminate].
    intros [= <- _]. apply (Hvals (string_chars s)).
  - intros [= <- _]. apply (Hvals (struct_time_items st)).
  - intros Hr. apply bind_inv_returns in Hr as (o & h1 & _ & Hr).
    destruct o; injection Hr as <- _; [apply Hvals | apply Hkeys].
  - intros Hr. apply bind_inv_returns in Hr as (o & h1 & _ & Hr).
    destruct o; [discriminate|]. injection Hr as <- _. apply Hkeys.
  - intros Hr. unfold Proxy__iter__ in Hr.
    apply bind_inv_returns in Hr as (n & h1 & _ & Hr). injection Hr as <- _.
    apply Forall_forall. intros next Hin.
    apply list_elem_of_In, in_map_iff in Hin as (x & <- & _). auto with pres.
Qed.

Lemma preserves_py_iter S v : preserves k S (py_iter rec v).
Proof.
  unfold py_iter, Proxy__iter__, Proxy__len__. destruct v; preserves_auto.
Qed.

Lemma preserves_ListField_to_json S field v :
  preserves k S (ListField_to_json rec field v).
Proof.
  unfold ListField_to_json. intros h Hk. unfold bind at 1.
  pose proof (preserves_py_iter S v h Hk) as Hit.
  destruct (py_iter rec v h) as [items h1|e h1| |] eqn:Hiter; try done.
  assert (k <= length h1) as Hk1 by (destruct Hit; lia).
  assert (preserves k S
            (raw <- mapM (fun next => item <- next ;; rec_to_json rec field item) items ;;
             alloc (OList raw))) as Hrest.
  { apply preserves_bind; [|intros raw; auto with pres].
    apply preserves_mapM_Forall.
    eapply Forall_impl; [eapply py_iter_items, Hiter|].
    intros next Hnext. cbv beta in *.
    apply preserves_bind; [exact Hnext | intros item; auto with pres]. }
  specialize (Hrest h1 Hk1).
  destruct (bind (mapM _ items) _ h1); try done;
    eapply heap_frame_trans; eassumption.
Qed.

Hint Resolve preserves_ListField_to_json : pres.

Lemma preserves__to_python S self v : preserves k S (_to_python rec self v).
Proof.
  unfold _to_python, ListField_to_python. destruct (f_kind self); preserves_auto.
Qed.

Lemma preserves__to_json S self v : preserves k S (_to_json rec self v).
Proof.
  unfold _to_json. destruct (f_kind self) eqn:Hk;
    try apply preserves__to_python; preserves_auto.
Qed.

Lemma preserves_Field__get__ S self instance :
  preserves k S (Field__get__ rec self instance).
Proof. unfold Field__get__. preserves_auto. Qed.

Lemma preserves_Field__set__ (S : addr -> Prop) self cls data v :
  k <= data \/ S data ->
  preserves k S (Field__set__ rec self (VRecord cls data) v).
Proof.
  intros Hd. unfold Field__set__. preserves_auto;
    by apply preserves_Mapping__setitem__.
Qed.

Hint Resolve preserves_Field__get__ : pres.

Lemma preserves_py_getattr S self name : preserves k S (py_getattr rec self name).
Proof. unfold py_getattr. preserves_auto. Qed.

Lemma preserves_py_setattr (S : addr -> Prop) cls data name v :
  k <= data \/ S data ->
  preserves k S (py_setattr rec (VRecord cls data) name v).
Proof.
  intros Hd. unfold py_setattr.
  destruct (class_attribute cls name) as [[f|v']|]; try apply preserves_ret.
  by apply preserves_Field__set__.
Qed.

Hint Resolve preserves_py_getattr : pres.

Lemma preserves_Mapping__init__ cls values :
  preserves k (behind values) (Mapping__init__ rec cls values).
Proof.
  unfold Mapping__init__.
  apply preserves_bind; [auto with pres | intros given].
  eapply (preserves_bind_dep _ _ _ _
            (fun values' => values' = values \/ exists a, values' = VRef a /\ k <= a)).
  { destruct given; auto with pres. apply preserves_ret. }
  { intros h v h1 Hk. destruct given.
    - intros [= <- _]. by left.
    - intros Ha. right. eapply alloc_fresh; eassumption. }
  intros values' Hvalues'.
  eapply preserves_bind_dep;
    [auto with pres | intros h a h1; apply new_obj_fresh |].
  intros data Hdata. cbv beta.
  apply preserves_bind; [|intros _; apply preserves_ret].
  apply preserves_for_each. intros [field_name field].
  unfold Mapping__init__step.
  apply preserves_bind; [auto with pres | intros present].
  assert (preserves k (behind values) (py_pop values' (Some field_name))) as Hpop.
  { destruct Hvalues' as [-> | (a & -> & Ha)]; [auto with pres|].
    eapply preserves_outside; [|apply preserves_py_pop].
    intros a' Ha'. left. simpl in Ha'. lia. }
  destruct present.
  - apply preserves_bind; [exact Hpop | intros v].
    apply preserves_py_setattr. by left.
  - apply preserves_bind; [auto with pres | intros v].
    apply preserves_py_setattr. by left.
Qed.

End PreservesMethods.

Section PreservesInterp.
Context {B : Builtins}.

(** Whatever the fuel: a conversion leaves every existing object as it
    is, and a construction mutates at most the mapping it was given. *)
Lemma interp_preserves (fuel k : nat) :
  (forall f v, preserves k nowhere (rec_to_python (interp fuel) f v))
  /\ (forall f v, preserves k nowhere (rec_to_json (interp fuel) f v))
  /\ (forall cls values,
        preserves k (behind values) (rec_init (interp fuel) cls values)).
Proof.
  induction fuel as [|n (IHp & IHj & IHi)]; simpl.
  - repeat split; intros; apply preserves_out_of_fuel.
  - repeat split; intros.
    + by apply preserves__to_python.
    + by apply preserves__to_json.
    + by apply preserves_Mapping__init__.
Qed.

End PreservesInterp.

(** ** Equations of the primitive operations *)

Section Operations.
Context {B : Builtins}.

Lemma read_lookup a o (h : heap) : h !! a = Some o -> read a h = Returns o h.
Proof. intros Ha. unfold read. rewrite Ha. reflexivity. Qed.

Lemma py_bool_dict a (d : dict) (h : heap) :
  h !! a = Some (ODict d) ->
  py_bool (VRef a) h = Returns (negb (bool_decide (d = []))) h.
Proof.
  intros Ha. cbn [py_bool py_len]. unfold bind, read, ret. rewrite Ha.
  destruct d; reflexivity.
Qed.

Lemma py_contains_dict a (d : dict) k (h : heap) :
  h !! a = Some (ODict d) ->
  py_contains (VRef a) k h = Returns (bool_decide (is_Some (dict_lookup k d))) h.
Proof.
  intros Ha. unfold py_contains.
  rewrite (bind_returns _ _ _ _ _ (read_lookup _ _ _ Ha)). reflexivity.
Qed.

Lemma py_pop_dict a (d : dict) k v (h : heap) :
  h !! a = Some (ODict d) -> dict_lookup k d = Some v ->
  py_pop (VRef a) k h = Returns v (<[a := ODict (dict_delitem k d)]> h).
Proof.
  intros Ha Hk. unfold py_pop.
  rewrite (bind_returns _ _ _ _ _ (read_lookup _ _ _ Ha)), Hk. reflexivity.
Qed.

Lemma Mapping__setitem__dict data (d : dict) k v (h : heap) :
  h !! data = Some (ODict d) ->
  Mapping__setitem__ data k v h =
    Returns tt (<[data := ODict (dict_setitem k v d)]> h).
Proof.
  intros Ha. unfold Mapping__setitem__.
  rewrite (bind_returns _ _ _ _ _ (read_lookup _ _ _ Ha)). reflexivity.
Qed.

Lemma Mapping_get_stored data name (h : heap) (d : dict) :
  h !! data = Some (ODict d) ->
  Mapping_get data name h = Returns (default VNone (dict_lookup name d)) h.
Proof.
  intros Hd. unfold Mapping_get, try_except, Mapping__getitem__.
  rewrite (bind_returns _ _ _ _ _ (read_lookup _ _ _ Hd)).
  destruct (dict_lookup name d); reflexivity.
Qed.

(** Attribute access that finds a Field runs the descriptor. *)
Lemma py_setattr_descriptor rec cls data n f v :
  class_attribute cls n = Some (FieldAttribute f) ->
  py_setattr rec (VRecord cls data) n v = Field__set__ rec f (VRecord cls data) v.
Proof. intros Hn. unfold py_setattr. by rewrite Hn. Qed.

Lemma py_getattr_descriptor rec cls data n f :
  class_attribute cls n = Some (FieldAttribute f) ->
  py_getattr rec (VRecord cls data) n = Field__get__ rec f (VRecord cls data).
Proof. intros Hn. unfold py_getattr. by rewrite Hn. Qed.

Lemma Mapping__init__step_descriptor rec cls data values n f0 f :
  class_attribute cls n = Some (FieldAttribute f) ->
  Mapping__init__step rec (VRecord cls data) values (n, f0) =
    (present <- py_contains values (Some n) ;;
     if present then
       v <- py_pop values (Some n) ;; Field__set__ rec f (VRecord cls data) v
     else
       v <- Field__get__ rec f (VRecord cls data) ;;
       Field__set__ rec f (VRecord cls data) v).
Proof.
  intros Hn. unfold Mapping__init__step, py_setattr, py_getattr.
  by rewrite Hn.
Qed.

Lemma assoc_lookup_fmap {A C} (g : A -> C) n (l : list (string * A)) :
  assoc_lookup n (map (fun item => (fst item, g (snd item))) l) =
  g <$> assoc_lookup n l.
Proof.
  induction l as [|[n' x] l IH]; simpl; [reflexivity|].
  destruct (decide (n' = n)); [reflexivity | exact IH].
Qed.

Lemma assoc_lookup_elem_of {A} n (x : A) (l : list (string * A)) :
  NoDup (map fst l) -> (n, x) ∈ l -> assoc_lookup n l = Some x.
Proof.
  induction l as [|[n' x'] l IH]; simpl; intros Hnd Hin.
  - by apply elem_of_nil in Hin.
  - apply NoDup_cons in Hnd as [Hn' Hnd].
    apply elem_of_cons in Hin as [[= <- <-]|Hin].
    + by rewrite decide_True.
    + rewrite decide_False; [by apply IH|].
      intros ->. apply Hn'. apply list_elem_of_fmap. by exists (n, x).
Qed.

Lemma class_attribute_MkClass cname fields n :
  class_attribute (MkClass cname fields) n = FieldAttribute <$> assoc_lookup n fields.
Proof. unfold class_attribute, MkClass. cbn [c_attributes]. apply assoc_lookup_fmap. Qed.

(** A class built from its fields alone resolves every one of them. *)
Lemma fields_resolve_MkClass cname fields :
  is_dict fields -> fields_resolve (MkClass cname fields).
Proof.
  intros Hnd n f Hin. rewrite class_attribute_MkClass.
  cbn [c_fields MkClass] in Hin.
  by rewrite (assoc_lookup_elem_of _ _ _ Hnd Hin).
Qed.

(** A call of [from_kwargs] that returns had no keyword named [cls]. *)
Lemma Mapping_from_kwargs_returns rec cls kwargs (h : heap) r h' :
  Mapping_from_kwargs rec cls kwargs h = Returns r h' ->
  dict_lookup (Some "cls") kwargs = None
  /\ rec_init rec cls (VRef (length h)) (h ++ [ODict kwargs]) = Returns r h'.
Proof.
  unfold Mapping_from_kwargs. case_bool_decide as Hcls; [discriminate|].
  intros Hr. split; [|exact Hr].
  destruct (dict_lookup (Some "cls") kwargs); [|reflexivity].
  exfalso. apply Hcls. eauto.
Qed.

Lemma list_method_list list_ l method (h : heap) :
  h !! list_ = Some (OList l) ->
  list_method (VRef list_) method h = Returns list_ h.
Proof.
  intros Ha. unfold list_method.
  rewrite (bind_returns _ _ _ _ _ (read_lookup _ _ _ Ha)). reflexivity.
Qed.

Lemma list_update_list a l f (h : heap) :
  h !! a = Some (OList l) ->
  list_update a f h = Returns tt (<[a := OList (f l)]> h).
Proof.
  intros Ha. unfold list_update.
  rewrite (bind_returns _ _ _ _ _ (read_lookup _ _ _ Ha)). reflexivity.
Qed.

Lemma mapM_ret_items {C} (f : value -> M C) (l : list value) :
  mapM (fun next => item <- next ;; f item) (map ret l) = mapM f l.
Proof.
  induction l as [|x l IH]; simpl; [reflexivity|]. rewrite IH. reflexivity.
Qed.

(** The raw form of a raw list: the items are converted in order and
    stored in a new list. *)
Lemma ListField_to_json_list rec field a l (h : heap) :
  h !! a = Some (OList l) ->
  ListField_to_json rec field (VRef a) h =
    (raw <- mapM (rec_to_json rec field) l ;; alloc (OList raw)) h.
Proof.
  intros Ha. unfold ListField_to_json, py_iter.
  unfold bind at 1. unfold bind at 1. rewrite (read_lookup _ _ _ Ha).
  unfold ret at 1. rewrite mapM_ret_items. reflexivity.
Qed.

Lemma dict_lookup_setitem k n v (d : dict) :
  dict_lookup n (dict_setitem k v d) =
    if decide (k = n) then Some v else dict_lookup n d.
Proof.
  induction d as [|[k' v'] d IH]; simpl.
  - destruct (decide (k = n)); reflexivity.
  - destruct (decide (k' = k)) as [->|Hne]; simpl.
    + destruct (decide (k = n)); reflexivity.
    + destruct (decide (k' = n)) as [->|Hne'].
      * destruct (decide (k = n)); [congruence | reflexivity].
      * exact IH.
Qed.

Lemma dict_lookup_delitem_ne k n (d : dict) :
  k <> n -> dict_lookup n (dict_delitem k d) = dict_lookup n d.
Proof.
  intros Hne. induction d as [|[k' v'] d IH]; simpl; [reflexivity|].
  destruct (decide (k' = k)) as [->|Hne'].
  - destruct (decide (k = n)); [congruence | reflexivity].
  - simpl. destruct (decide (k' = n)); [reflexivity | exact IH].
Qed.

Lemma dict_lookup_None k (d : dict) : k ∉ dict_keys d -> dict_lookup k d = None.
Proof.
  induction d as [|[k' v'] d IH]; simpl; [reflexivity|].
  intros Hn. apply not_elem_of_cons in Hn as [Hne Hn].
  destruct (decide (k' = k)); [congruence | auto].
Qed.

Lemma dict_lookup_Some_key k v (d : dict) : dict_lookup k d = Some v -> k ∈ dict_keys d.
Proof.
  induction d as [|[k' v'] d IH]; simpl; [discriminate|].
  destruct (decide (k' = k)) as [->|]; [intros _; left | intros Hl; right; auto].
Qed.

Lemma dict_lookup_delitem_eq k (d : dict) :
  is_dict d -> dict_lookup k (dict_delitem k d) = None.
Proof.
  unfold is_dict. induction d as [|[k' v'] d IH]; simpl; [reflexivity|].
  intros Hnd. apply NoDup_cons in Hnd as [Hk Hnd].
  destruct (decide (k' = k)) as [->|Hne].
  - by apply dict_lookup_None.
  - simpl. destruct (decide (k' = k)); [congruence | auto].
Qed.

End Operations.
(** ** Field.__get__ *)

Section FieldRead.
Context {B : Builtins}.


(** The three cases of the contract, one by one. *)
Lemma read_contract_present to_typed self data h raw :
  stored_raw h data (f_name self) = Some raw -> raw <> VNone ->
  read_contract to_typed self data h = to_typed self raw h.
Proof.
  intros Hs Hn. unfold read_contract. rewrite Hs.
  destruct raw; try reflexivity. congruence.
Qed.

Lemma read_contract_default to_typed self data h :
  stored_raw h data (f_name self) = None \/
  stored_raw h data (f_name self) = Some VNone ->
  f_default self <> VNone ->
  read_contract to_typed self data h =
    if callable (f_default self) then py_call (f_default self) h
    else Returns (f_default self) h.
Proof.
  intros Hs Hn. unfold read_contract, resolve_default.
  assert (is_none (f_default self) = false) as ->
    by (destruct (f_default self); try reflexivity; congruence).
  destruct Hs as [-> | ->]; simpl; destruct (callable _); reflexivity.
Qed.

Lemma read_contract_null to_typed self data h :
  stored_raw h data (f_name self) = None \/
  stored_raw h data (f_name self) = Some VNone ->
  f_default self = VNone ->
  read_contract to_typed self data h = Returns VNone h.
Proof.
  intros Hs Hn. unfold read_contract. rewrite Hn.
  destruct Hs as [-> | ->]; reflexivity.
Qed.

End FieldRead.


(** ** ListField.Proxy: arity of [append] and [insert] *)

Section ProxyArity.
Context {B : Builtins}.

Lemma Proxy_argument_arity msg field args kwargs h :
  args <> [] \/ is_DictField field = false ->
  length args <> 1 ->
  Proxy_argument msg field args kwargs h =
    Raises (PyExc TypeError msg [VInt (Z.of_nat (length args))]) h.
Proof.
  intros Hguard Hlen. unfold Proxy_argument.
  assert (negb (bool_decide (args = [])) || negb (is_DictField field) = true) as ->.
  { destruct Hguard as [Hne | ->]; [|apply orb_true_r].
    rewrite bool_decide_eq_false_2 by done. reflexivity. }
  destruct args as [|a [|b args]]; simpl in *; try reflexivity. lia.
Qed.

(** C5 (as amended). [append] and [insert] raise the arity error, before
    anything is converted or stored, when they receive more than one
    positional value, or no positional value on a view whose element
    descriptor is not a nested-record field; the heap, and so the
    underlying raw sequence, is left as it was. *)
Theorem Proxy_arity_error (rec : Interp) (list_ : value) (field : Field)
    (idx : Z) (args : list value) (kwargs : list (string * value)) (h : heap) :
  args <> [] \/ is_DictField field = false ->
  length args <> 1 ->
  Proxy_append rec list_ field args kwargs h =
    Raises (PyExc TypeError "append() takes exactly one argument (%s given)"
              [VInt (Z.of_nat (length args))]) h
  /\ Proxy_insert rec list_ field idx args kwargs h =
    Raises (PyExc TypeError "insert() takes exactly 2 arguments (%s given)"
              [VInt (Z.of_nat (length args))]) h.
Proof.
  intros Hguard Hlen. unfold Proxy_append, Proxy_insert, bind.
  rewrite !Proxy_argument_arity by assumption. split; reflexivity.
Qed.

End ProxyArity.

(** [append(a, b)] on a view over a list of one text. *)
Lemma Proxy_arity_error_witness :
  let B := Example.builtins in
  let h := [OList [VStr "x"]] in
  let field := MkField KText None VNone in
  Proxy_append (interp 1) (VRef 0) field [VStr "a"; VStr "b"] [] h =
    Raises (PyExc TypeError "append() takes exactly one argument (%s given)" [VInt 2]) h
  /\ Proxy_insert (interp 1) (VRef 0) field 0 [VStr "a"; VStr "b"] [] h =
    Raises (PyExc TypeError "insert() takes exactly 2 arguments (%s given)" [VInt 2]) h.
Proof.
  intros B h field.
  apply (Proxy_arity_error (interp 1) (VRef 0) field 0 [VStr "a"; VStr "b"] [] h).
  - left. discriminate.
  - simpl. lia.
Defined.

(** C5, as stated, fails: a positional value together with keyword values
    raises nothing; the keywords are ignored and the value is appended.
    Likewise [append()] with no argument at all on a view of nested records
    appends the raw form of an empty keyword set. *)
Lemma Proxy_append_positional_with_keywords :
  let B := Example.builtins in
  Proxy_append (interp 1) (VRef 0) (MkField KText None VNone)
    [VStr "a"] [("k", VStr "v")] [OList []]
  = Returns tt [OList [VStr "a"]]
  /\ Proxy_append (interp 1) (VRef 0) (MkField (KDict None) None VNone)
    [] [] [OList []]
  = Returns tt [OList [VRef 1]; ODict []].
Proof. split; reflexivity. Qed.

(** ** ListField.Proxy: reading an index and a slice *)

Section ProxyRead.
Context {B : Builtins}.

(** X26. The two read methods of a view over the raw list [l] stored at
    address [a]: [__getslice__(i, j)], which Python 2 calls for a slice
    read, returns a new view with the same element descriptor, wrapping a
    new list that holds the raw items of [l[i:j]] as they are (nothing is
    converted); [__getitem__(i)] returns the element descriptor's typed
    conversion of the raw item at [i]. *)
Theorem Proxy_read (fuel : nat) (a : addr) (field : Field) (l : list value)
    (h : heap) :
  h !! a = Some (OList l) ->
  (forall i j,
     Proxy__getslice__ (VRef a) field i j h =
       Returns (VProxy (VRef (length h)) field)
               (h ++ [OList (list_slice l (Some i) (Some j))]))
  /\ (forall i item,
     list_index l i = Some item ->
     Proxy__getitem__ (interp fuel) (VRef a) field (Index i) h =
       rec_to_python (interp fuel) field item h).
Proof.
  intros Ha. split.
  - intros i j. unfold Proxy__getslice__, py_getitem, bind, read.
    rewrite Ha. reflexivity.
  - intros i item Hi. unfold Proxy__getitem__, py_getitem, bind, read.
    rewrite Ha, Hi. reflexivity.
Qed.

(** The items of a slice are items of the list, in order. *)
Lemma list_slice_sublist {A} (l : list A) start stop :
  sublist (list_slice l start stop) l.
Proof.
  unfold list_slice.
  etrans; [apply sublist_take | apply sublist_drop].
Qed.

End ProxyRead.

(** A view over three raw date-time texts: the slice [1:3] is a view over
    the two raw texts, the item at [-1] is the typed date-time. *)
Lemma Proxy_read_witness :
  let B := Example.builtins in
  let field := MkField KDateTime None VNone in
  let l := [VStr "2007-04-01T15:30:00Z"; VStr "2008-01-02T03:04:05Z";
            VStr "2009-12-31T23:59:59Z"] in
  let h := [OList l] in
  Proxy__getslice__ (VRef 0) field 1 3 h =
    Returns (VProxy (VRef 1) field)
      [OList l; OList [VStr "2008-01-02T03:04:05Z"; VStr "2009-12-31T23:59:59Z"]]
  /\ Proxy__getitem__ (interp 1) (VRef 0) field (Index (-1)) h =
    Returns (VDateTime (mk_datetime (mk_date 2009 12 31) (mk_time 23 59 59 0))) h.
Proof.
  intros B field l h.
  destruct (Proxy_read 1 0 field l h eq_refl) as [Hslice Hitem].
  split.
  - exact (Hslice 1%Z 3%Z).
  - rewrite (Hitem (-1)%Z (VStr "2009-12-31T23:59:59Z") eq_refl). reflexivity.
Defined.

(** C6. On Python 3 a slice read [view[1:3]] never reaches [__getslice__]:
    it is the call [view.__getitem__(slice(1, 3))].  On a view over three
    raw date-time texts this call returns a plain list that holds the two
    raw texts of the slice, where [__getslice__] returns a view over such a
    list. *)
Theorem Proxy_slice_read_returns_list :
  let B := Example.builtins in
  let field := MkField KDateTime None VNone in
  let l := [VStr "2007-04-01T15:30:00Z"; VStr "2008-01-02T03:04:05Z";
            VStr "2009-12-31T23:59:59Z"] in
  let sliced := [VStr "2008-01-02T03:04:05Z"; VStr "2009-12-31T23:59:59Z"] in
  let h := [OList l] in
  PY2 = false
  /\ Proxy__getitem__ (interp 1) (VRef 0) field (Slice (Some 1%Z) (Some 3%Z)) h =
       Returns (VRef 1) [OList l; OList sliced]
  /\ Proxy__getslice__ (VRef 0) field 1 3 h =
       Returns (VProxy (VRef 1) field) [OList l; OList sliced].
Proof. repeat split. Qed.

(** ** DictField *)

Section DictFieldConversions.
Context {B : Builtins}.

Lemma for_each_returns {A} (l : list A) (body : A -> M unit) h u h' :
  for_each l body h = Returns u h' -> u = tt.
Proof. destruct u. reflexivity. Qed.

(** A construction that returns, returns an instance of the class. *)
Lemma Mapping__init__returns_instance rec cls values h r h' :
  Mapping__init__ rec cls values h = Returns r h' ->
  exists data, r = VRecord cls data.
Proof.
  unfold Mapping__init__, bind.
  destruct (py_bool values h) as [given h1| | |]; try discriminate.
  destruct ((if given then ret values else alloc (ODict [])) h1)
    as [values' h2| | |]; try discriminate.
  unfold new_obj.
  destruct (for_each _ _ _) as [u h3| | |]; try discriminate.
  unfold ret. intros [= <- <-]. eauto.
Qed.

Lemma unpack_kwargs_dict a d h :
  h !! a = Some (ODict d) ->
  Forall (fun k => is_Some k) (dict_keys d) ->
  unpack_kwargs (VRef a) h = Returns d h.
Proof.
  intros Ha Hk. unfold unpack_kwargs, bind, read. rewrite Ha.
  assert (forallb (fun k => bool_decide (is_Some k)) (dict_keys d) = true) as ->;
    [|reflexivity].
  apply forallb_forall. intros k Hin. apply bool_decide_eq_true.
  rewrite Forall_forall in Hk. apply Hk. by apply list_elem_of_In.
Qed.

(** The call [cls.from_kwargs] with keywords none of which is named
    [cls]: the keywords become a new dict, from which [cls] constructs. *)
Lemma Mapping_from_kwargs_call rec cls kwargs h :
  dict_lookup (Some "cls") kwargs = None ->
  Mapping_from_kwargs rec cls kwargs h =
    rec_init rec cls (VRef (length h)) (h ++ [ODict kwargs]).
Proof.
  intros Hcls. unfold Mapping_from_kwargs. rewrite Hcls.
  rewrite bool_decide_eq_false_2; [reflexivity | by intros [? ?]].
Qed.


End DictFieldConversions.


(** ** DateTimeField *)

Lemma is_digit_digit (z : Z) : is_digit (digit z) = true.
Proof.
  unfold digit.
  assert (0 <= z mod 10 < 10)%Z as Hr by (apply Z.mod_pos_bound; lia).
  assert (exists n : nat, Z.to_nat (z mod 10) = n /\ n < 10) as (n & -> & Hn).
  { exists (Z.to_nat (z mod 10)). split; [reflexivity | lia]. }
  do 10 (destruct n as [|n]; [reflexivity|]). lia.
Qed.

Lemma rstrip_split_first_Z (c sep : ascii) (s : string) :
  c <> sep ->
  rstrip c (split_first sep (s +:+ String c EmptyString)) =
  rstrip c (split_first sep s).
Proof.
  intros Hne. induction s as [|a s IH]; simpl.
  - destruct (decide (c = sep)) as [|_]; [congruence|]. simpl.
    destruct (decide (c = c)); [reflexivity | congruence].
  - destruct (decide (a = sep)); [reflexivity|]. simpl. rewrite IH. reflexivity.
Qed.

Lemma split_first_fraction (sep : ascii) (s frac : string) :
  split_first sep (s +:+ String sep frac) = split_first sep s.
Proof.
  induction s as [|a s IH]; simpl.
  - destruct (decide (sep = sep)); [reflexivity | congruence].
  - destruct (decide (a = sep)); [reflexivity|]. rewrite IH. reflexivity.
Qed.

Lemma datetime_text_canonical (dt : datetime_t) :
  is_canonical_datetime
    (datetime_isoformat (datetime_replace_microsecond dt 0) +:+ "Z") = true.
Proof.
  destruct dt as [[y mo d] [hh mi ss us]].
  unfold is_canonical_datetime, datetime_isoformat, date_isoformat, time_isoformat,
    datetime_replace_microsecond, time_replace_microsecond, pad4, pad2.
  cbv -[digit is_digit Z.div andb]. rewrite !is_digit_digit. reflexivity.
Qed.

Section DateTimeText.
Context {B : Builtins}.

(** Parsing a text yields a valid date-time with no microseconds, or
    raises; the heap is not touched. *)
Lemma DateTimeField_to_python_text (s : string) (h : heap) :
  (exists dt, DateTimeField_to_python (VStr s) h = Returns (VDateTime dt) h
              /\ datetime_valid dt = true /\ microsecond (dt_time dt) = 0%Z)
  \/ (exists e, DateTimeField_to_python (VStr s) h = Raises e h).
Proof.
  unfold DateTimeField_to_python, try_except, bind, lift.
  destruct (strptime _ _) as [st|e].
  - unfold datetime_new.
    destruct (datetime_valid _) eqn:Hv.
    + left. eexists. split; [reflexivity|]. split; [exact Hv | reflexivity].
    + right. cbn. eexists. reflexivity.
  - right. destruct (decide _); eexists; reflexivity.
Qed.

Lemma DateTimeField_to_json_via_typed (s : string) (h : heap) :
  DateTimeField_to_json (VStr s) h =
    (typed <- DateTimeField_to_python (VStr s) ;; DateTimeField_to_json typed) h.
Proof.
  unfold DateTimeField_to_json at 1.
  destruct (DateTimeField_to_python_text s h) as [(dt & Hp & _) | (e & Hp)].
  - rewrite (bind_returns _ _ _ _ _ Hp).
    symmetry. rewrite (bind_returns _ _ _ _ _ Hp). reflexivity.
  - rewrite (bind_raises _ _ _ _ _ Hp).
    symmetry. rewrite (bind_raises _ _ _ _ _ Hp). reflexivity.
Qed.

Lemma DateTimeField_to_json_text_returns (s : string) (h : heap) raw h' :
  DateTimeField_to_json (VStr s) h = Returns raw h' ->
  exists text, raw = VStr text /\ is_canonical_datetime text = true /\ h' = h.
Proof.
  unfold DateTimeField_to_json.
  destruct (DateTimeField_to_python_text s h) as [(dt & Hp & _) | (e & Hp)].
  - rewrite (bind_returns _ _ _ _ _ Hp). cbn. intros [= <- <-].
    eexists. split; [reflexivity|]. split; [apply datetime_text_canonical | reflexivity].
  - rewrite (bind_raises _ _ _ _ _ Hp). discriminate.
Qed.

Lemma DateTimeField_to_python_same_stem (s t : string) (h : heap) :
  rstrip "Z" (split_first "." s) = rstrip "Z" (split_first "." t) ->
  DateTimeField_to_python (VStr s) h = DateTimeField_to_python (VStr t) h.
Proof. intros Hst. unfold DateTimeField_to_python. rewrite Hst. reflexivity. Qed.

Lemma DateTimeField_to_json_same_stem (s t : string) (h : heap) :
  rstrip "Z" (split_first "." s) = rstrip "Z" (split_first "." t) ->
  DateTimeField_to_json (VStr s) h = DateTimeField_to_json (VStr t) h.
Proof.
  intros Hst. unfold DateTimeField_to_json, bind.
  rewrite (DateTimeField_to_python_same_stem s t h Hst). reflexivity.
Qed.

Lemma datetime_replace_microsecond_zero (dt : datetime_t) :
  microsecond (dt_time dt) = 0%Z -> datetime_replace_microsecond dt 0 = dt.
Proof. destruct dt as [d [hh mi ss us]]. simpl. by intros ->. Qed.

(** The raw conversion of a text renders the date-time the parser reads
    from it. *)
Lemma DateTimeField_to_json_renders (s : string) (h : heap) (dt : datetime_t) :
  DateTimeField_to_python (VStr s) h = Returns (VDateTime dt) h ->
  DateTimeField_to_json (VStr s) h =
    Returns (VStr (datetime_isoformat dt +:+ "Z")) h.
Proof.
  intros Hp. unfold DateTimeField_to_json.
  rewrite (bind_returns _ _ _ _ _ Hp). cbn.
  destruct (DateTimeField_to_python_text s h) as [(dt' & Hp' & _ & Hus) | (e & Hp')];
    rewrite Hp' in Hp; [|discriminate].
  injection Hp as ->. by rewrite datetime_replace_microsecond_zero.
Qed.

Lemma DateTimeField_to_json_raises (s : string) (h : heap) (e : exn) :
  DateTimeField_to_python (VStr s) h = Raises e h ->
  DateTimeField_to_json (VStr s) h = Raises e h.
Proof.
  intros Hp. unfold DateTimeField_to_json. by rewrite (bind_raises _ _ _ _ _ Hp).
Qed.

(** The parser on a text whose stem [strptime] reads. *)
Lemma DateTimeField_to_python_reads (s : string) (h : heap) (st : struct_time) :
  let dt := mk_datetime (mk_date (tm_year st) (tm_mon st) (tm_mday st))
              (mk_time (tm_hour st) (tm_min st) (tm_sec st) 0) in
  strptime (rstrip "Z" (split_first "." s)) "%Y-%m-%dT%H:%M:%S" = Val st ->
  datetime_valid dt = true ->
  DateTimeField_to_python (VStr s) h = Returns (VDateTime dt) h.
Proof.
  intros dt Hst Hv. unfold DateTimeField_to_python, try_except, bind, lift.
  rewrite Hst. unfold datetime_new. fold dt. by rewrite Hv.
Qed.

(** C10. On a text [s], the raw conversion of a date-time field is the
    raw conversion of the typed conversion of [s].  The typed conversion
    parses [s] into a date-time or raises: the raw conversion renders that
    date-time, as YYYY-MM-DDTHH:MM:SS followed by Z, or raises the same
    exception.  The date-time is the one [strptime] reads from [s] without
    its fractional part and trailing Z.  A typed write of [s] stores
    the rendered text in the record; a trailing Z and a fractional part of
    the input do not change the result. *)
Theorem DateTimeField_to_json_canonicalizes (s : string) :
  (forall h,
     DateTimeField_to_json (VStr s) h =
       (typed <- DateTimeField_to_python (VStr s) ;; DateTimeField_to_json typed) h)
  /\ (forall h,
     (exists dt, DateTimeField_to_python (VStr s) h = Returns (VDateTime dt) h
                 /\ datetime_valid dt = true /\ microsecond (dt_time dt) = 0%Z)
     \/ (exists e, DateTimeField_to_python (VStr s) h = Raises e h))
  /\ (forall h dt,
     DateTimeField_to_python (VStr s) h = Returns (VDateTime dt) h ->
     DateTimeField_to_json (VStr s) h =
       Returns (VStr (datetime_isoformat dt +:+ "Z")) h
     /\ DateTimeField_to_json (VDateTime dt) h =
       Returns (VStr (datetime_isoformat dt +:+ "Z")) h
     /\ is_canonical_datetime (datetime_isoformat dt +:+ "Z") = true)
  /\ (forall h e,
     DateTimeField_to_python (VStr s) h = Raises e h ->
     DateTimeField_to_json (VStr s) h = Raises e h)
  /\ (forall h st,
     strptime (rstrip "Z" (split_first "." s)) "%Y-%m-%dT%H:%M:%S" = Val st ->
     datetime_valid
       (mk_datetime (mk_date (tm_year st) (tm_mon st) (tm_mday st))
          (mk_time (tm_hour st) (tm_min st) (tm_sec st) 0)) = true ->
     DateTimeField_to_json (VStr s) h =
       Returns (VStr (pad4 (tm_year st) +:+ "-" +:+ pad2 (tm_mon st) +:+ "-"
                      +:+ pad2 (tm_mday st) +:+ "T" +:+ pad2 (tm_hour st) +:+ ":"
                      +:+ pad2 (tm_min st) +:+ ":" +:+ pad2 (tm_sec st) +:+ "Z")) h)
  /\ (forall h raw h',
     DateTimeField_to_json (VStr s) h = Returns raw h' ->
     exists text, raw = VStr text /\ is_canonical_datetime text = true /\ h' = h)
  /\ (forall fuel name dflt cls data d h dt,
     h !! data = Some (ODict d) ->
     DateTimeField_to_python (VStr s) h = Returns (VDateTime dt) h ->
     Field__set__ (interp (S fuel)) (MkField KDateTime name dflt)
       (VRecord cls data) (VStr s) h =
       Returns tt
         (<[data := ODict (dict_setitem name (VStr (datetime_isoformat dt +:+ "Z")) d)]> h))
  /\ (forall fuel name dflt cls data d h h',
     h !! data = Some (ODict d) ->
     Field__set__ (interp (S fuel)) (MkField KDateTime name dflt)
       (VRecord cls data) (VStr s) h = Returns tt h' ->
     exists dt,
       DateTimeField_to_python (VStr s) h = Returns (VDateTime dt) h
       /\ is_canonical_datetime (datetime_isoformat dt +:+ "Z") = true
       /\ h' = <[data := ODict (dict_setitem name (VStr (datetime_isoformat dt +:+ "Z")) d)]> h)
  /\ (forall h,
     DateTimeField_to_json (VStr (s +:+ "Z")) h = DateTimeField_to_json (VStr s) h)
  /\ (forall frac h,
     DateTimeField_to_json (VStr (s +:+ "." +:+ frac)) h =
       DateTimeField_to_json (VStr s) h).
Proof.
  assert (forall h dt,
            DateTimeField_to_python (VStr s) h = Returns (VDateTime dt) h ->
            is_canonical_datetime (datetime_isoformat dt +:+ "Z") = true) as Hcanon.
  { intros h dt Hp.
    destruct (DateTimeField_to_python_text s h) as [(dt' & Hp' & _ & Hus) | (e & Hp')];
      rewrite Hp' in Hp; [|discriminate].
    injection Hp as ->.
    rewrite <- (datetime_replace_microsecond_zero dt Hus).
    apply datetime_text_canonical. }
  assert (forall fuel name dflt cls data d h dt,
            h !! data = Some (ODict d) ->
            DateTimeField_to_python (VStr s) h = Returns (VDateTime dt) h ->
            Field__set__ (interp (S fuel)) (MkField KDateTime name dflt)
              (VRecord cls data) (VStr s) h =
              Returns tt
                (<[data := ODict (dict_setitem name
                                    (VStr (datetime_isoformat dt +:+ "Z")) d)]> h))
    as Hwrite.
  { intros fuel name dflt cls data d h dt Hd Hp.
    unfold Field__set__. cbn [is_none negb].
    change (rec_to_json (interp (S fuel)) (MkField KDateTime name dflt) (VStr s))
      with (DateTimeField_to_json (VStr s)).
    rewrite (bind_returns _ _ _ _ _ (DateTimeField_to_json_renders s h dt Hp)).
    unfold Mapping__setitem__, bind, read, write. rewrite Hd. reflexivity. }
  split; [apply DateTimeField_to_json_via_typed|].
  split; [apply DateTimeField_to_python_text|].
  split; [|split; [apply DateTimeField_to_json_raises|]].
  { intros h dt Hp. split; [by apply DateTimeField_to_json_renders|].
    split; [|by eapply Hcanon].
    destruct (DateTimeField_to_python_text s h) as [(dt' & Hp' & _ & Hus) | (e & Hp')];
      rewrite Hp' in Hp; [|discriminate].
    injection Hp as ->. unfold DateTimeField_to_json. cbn.
    by rewrite datetime_replace_microsecond_zero. }
  split; [|split; [apply DateTimeField_to_json_text_returns|]].
  { intros h st Hst Hv.
    rewrite (DateTimeField_to_json_renders s h _
               (DateTimeField_to_python_reads s h st Hst Hv)).
    unfold datetime_isoformat, date_isoformat, time_isoformat. cbn.
    reflexivity. }
  split; [exact Hwrite|].
  split; [|split].
  - intros fuel name dflt cls data d h h' Hd Hset.
    destruct (DateTimeField_to_python_text s h) as [(dt & Hp & _) | (e & Hp)].
    + exists dt. split; [exact Hp|]. split; [by eapply Hcanon|].
      rewrite (Hwrite fuel name dflt cls data d h dt Hd Hp) in Hset. congruence.
    + unfold Field__set__ in Hset. cbn [is_none negb] in Hset.
      change (rec_to_json (interp (S fuel)) (MkField KDateTime name dflt) (VStr s))
        with (DateTimeField_to_json (VStr s)) in Hset.
      by rewrite (bind_raises _ _ _ _ _ (DateTimeField_to_json_raises s h e Hp)) in Hset.
  - intros h. apply DateTimeField_to_json_same_stem.
    apply rstrip_split_first_Z. discriminate.
  - intros frac h. apply DateTimeField_to_json_same_stem.
    f_equal. apply (split_first_fraction "." s frac).
Qed.

End DateTimeText.

(** ** MappingMeta.__new__ *)

Section SchemaInheritance.

Lemma assoc_lookup_set {A} (k n : string) (v : A) d :
  assoc_lookup n (assoc_set k v d) =
    if decide (k = n) then Some v else assoc_lookup n d.
Proof.
  induction d as [|[k' v'] d IH]; simpl.
  - destruct (decide (k = n)); reflexivity.
  - destruct (decide (k' = k)) as [->|Hne]; simpl.
    + destruct (decide (k = n)); reflexivity.
    + destruct (decide (k' = n)) as [->|Hne'].
      * destruct (decide (k = n)); [congruence | reflexivity].
      * exact IH.
Qed.

Lemma assoc_lookup_None {A} (n : string) (d : list (string * A)) :
  n ∉ map fst d -> assoc_lookup n d = None.
Proof.
  induction d as [|[k v] d IH]; simpl; [reflexivity|].
  intros Hn. apply not_elem_of_cons in Hn as [Hne Hn].
  destruct (decide (k = n)); [congruence | auto].
Qed.

Lemma assoc_lookup_update {A} (n : string) (d other : list (string * A)) :
  is_dict other ->
  assoc_lookup n (assoc_update d other) =
    match assoc_lookup n other with
    | Some v => Some v
    | None => assoc_lookup n d
    end.
Proof.
  unfold assoc_update, is_dict. revert d.
  induction other as [|[k v] other IH]; intros d Hnd; simpl; [reflexivity|].
  apply NoDup_cons in Hnd as [Hk Hnd]. rewrite IH by assumption.
  destruct (decide (k = n)) as [->|Hne].
  - rewrite (assoc_lookup_None n other Hk), assoc_lookup_set.
    destruct (decide (n = n)); [reflexivity | congruence].
  - rewrite assoc_lookup_set.
    destruct (decide (k = n)); [congruence | reflexivity].
Qed.

Lemma inherited_fold (n : string) (bases : list (option schema)) (acc : schema) :
  Forall (fun base => is_dict (default [] base)) bases ->
  assoc_lookup n
    (fold_left (fun fields base => assoc_update fields (default [] base)) bases acc) =
    match inherited bases n with
    | Some r => Some r
    | None => assoc_lookup n acc
    end.
Proof.
  intros Hb. revert acc. induction Hb as [|base bases Hd _ IH]; intros acc; simpl.
  - reflexivity.
  - rewrite IH. destruct (inherited bases n); [reflexivity|].
    apply assoc_lookup_update, Hd.
Qed.

Lemma declared_fold (n : string) (dct : list (string * attr)) fields store :
  is_dict dct ->
  assoc_lookup n (fst (fold_left MappingMeta__new__step dct (fields, store))) =
    match declared dct n with
    | Some r => Some r
    | None => assoc_lookup n fields
    end.
Proof.
  unfold is_dict, declared. revert fields store.
  induction dct as [|[k a] dct IH]; intros fields store Hnd; simpl; [reflexivity|].
  apply NoDup_cons in Hnd as [Hk Hnd].
  destruct a as [r|]; rewrite IH by assumption;
    (destruct (decide (k = n)) as [->|Hne];
     [rewrite (assoc_lookup_None n dct Hk) | destruct (assoc_lookup n dct) as [[]|]];
     rewrite ?assoc_lookup_set; try reflexivity;
     destruct (decide _); congruence).
Qed.

(** C7. The [_fields] the metaclass attaches to a new class is the union
    of the ancestors' fields and the fields of the class body: under each
    name it holds the field the body declares, if it declares one, and
    otherwise the field of the last-listed ancestor that has one. *)
Theorem MappingMeta__new__fields (bases : list (option schema))
    (dct : list (string * attr)) (store : field_store) (n : string) :
  Forall (fun base => is_dict (default [] base)) bases ->
  is_dict dct ->
  assoc_lookup n (fst (MappingMeta__new__ bases dct store)) =
    match declared dct n with
    | Some r => Some r
    | None => inherited bases n
    end.
Proof.
  intros Hb Hd. unfold MappingMeta__new__.
  rewrite declared_fold by assumption.
  destruct (declared dct n); [reflexivity|].
  rewrite inherited_fold by assumption.
  destruct (inherited bases n); reflexivity.
Qed.

End SchemaInheritance.

(** Two ancestors that both have a field [x], and a body that declares [y]
    and overrides [z]: [x] comes from the ancestor listed last, [z] from
    the body. *)
Lemma MappingMeta__new__fields_witness :
  let A := Some [("x", 0); ("z", 1)] in
  let C := Some [("x", 2)] in
  let dct := [("y", AttrField 3); ("z", AttrField 4); ("helper", AttrOther)] in
  let store := replicate 5 (MkField KText None VNone) in
  let fields := fst (MappingMeta__new__ [A; None; C] dct store) in
  assoc_lookup "x" fields = Some 2
  /\ assoc_lookup "z" fields = Some 4
  /\ fields = [("x", 2); ("z", 4); ("y", 3)].
Proof.
  intros A C dct store fields.
  assert (Forall (fun base : option schema => is_dict (default [] base)) [A; None; C])
    as Hb by (repeat (constructor; [unfold is_dict; compute_done|]); constructor).
  assert (is_dict dct) as Hd by (unfold is_dict; compute_done).
  split; [|split].
  - exact (MappingMeta__new__fields [A; None; C] dct store "x" Hb Hd).
  - exact (MappingMeta__new__fields [A; None; C] dct store "z" Hb Hd).
  - reflexivity.
Defined.

(** ** A mutation through the sequence view reaches the record *)

Section SequenceView.
Context {B : Builtins}.

(** C4. A class with one sequence-of-date-time field, [name]; a record of
    it constructed from a mapping that gives the field an empty sequence;
    the view read from the field; [append] of 2007-04-01 15:30:00 on the
    view.  The view wraps the very list object the record stores, the
    append puts the raw text in that object, and [unwrap()] is the
    mapping of [name] to the one-item list of the raw text. *)


End SequenceView.


(** ** Mapping.__init__ *)

Section RecordConstruction.
Context {B : Builtins}.

Lemma preserves_returns {A} k S (m : M A) h a h' :
  preserves k S m -> k <= length h -> m h = Returns a h' -> heap_frame k S h h'.
Proof. intros Hm Hk Hr. specialize (Hm h Hk). rewrite Hr in Hm. exact Hm. Qed.

Lemma heap_frame_lookup k (S : addr -> Prop) (h h' : heap) a o :
  heap_frame k S h h' -> a < k -> ~ S a -> h !! a = Some o -> h' !! a = Some o.
Proof. intros [_ Hf] Ha HS Ho. rewrite Hf by assumption. exact Ho. Qed.

Lemma heap_frame_length k S (h h' : heap) : heap_frame k S h h' -> length h <= length h'.
Proof. intros [Hl _]. exact Hl. Qed.

Lemma Field__get__interp_preserves fuel k self instance :
  preserves k nowhere (Field__get__ (interp fuel) self instance).
Proof.
  destruct (interp_preserves fuel k) as (Hp & Hj & Hi).
  by apply preserves_Field__get__.
Qed.

(** A typed write that returns: the value (unless null) is converted,
    which leaves the existing objects as they are, and the result is
    stored under the descriptor's name. *)
Lemma Field__set__returns fuel self cls data v (h h2 : heap) e :
  h !! data = Some (ODict e) ->
  Field__set__ (interp fuel) self (VRecord cls data) v h = Returns tt h2 ->
  exists raw h1,
    (if is_none v then Returns v h else rec_to_json (interp fuel) self v h)
      = Returns raw h1
    /\ heap_frame (length h) nowhere h h1
    /\ h2 = <[data := ODict (dict_setitem (f_name self) raw e)]> h1.
Proof.
  intros Hd Hset. unfold Field__set__ in Hset.
  apply bind_inv_returns in Hset as (raw & h1 & Hconv & Hstore).
  assert (heap_frame (length h) nowhere h h1) as Hfr.
  { destruct (is_none v); cbn [negb] in Hconv.
    - injection Hconv as <- <-. apply heap_frame_refl.
    - destruct (interp_preserves fuel (length h)) as (_ & Hj & _).
      eapply preserves_returns; [apply Hj | lia | exact Hconv]. }
  exists raw, h1. split; [|split; [exact Hfr|]].
  - destruct (is_none v); exact Hconv.
  - assert (h1 !! data = Some (ODict e)) as Hd1.
    { eapply heap_frame_lookup; [exact Hfr | by eapply lookup_lt_Some | intros [] | exact Hd]. }
    rewrite (Mapping__setitem__dict _ _ _ _ _ Hd1) in Hstore. congruence.
Qed.

Lemma dict_delitem_is_dict k (d : dict) : is_dict d -> is_dict (dict_delitem k d).
Proof.
  unfold is_dict. induction d as [|[k' v'] d IH]; simpl; [done|].
  intros Hnd. apply NoDup_cons in Hnd as [Hk Hnd].
  destruct (decide (k' = k)); [exact Hnd|]. simpl. apply NoDup_cons. split; [|auto].
  intros Hin. apply Hk. clear -Hin.
  induction d as [|[k'' v''] d IH]; simpl in *; [done|].
  destruct (decide (k'' = k)); [by right|].
  simpl in Hin. apply elem_of_cons in Hin as [->|Hin]; [by left | right; auto].
Qed.

Variable fuel : nat.
Variables (cls : Klass) (data m : addr) (input : dict).

Let self := VRecord cls data.
Let touched : addr -> Prop := fun a => a = m \/ a = data.

(** One iteration of the loop of [__init__], for a name under which the
    class has the descriptor [f]. *)
Lemma Mapping__init__step_returns (n : string) (f0 f : Field) (h hs : heap)
    (dm e : dict) :
  class_attribute cls n = Some (FieldAttribute f) ->
  m <> data -> h !! m = Some (ODict dm) -> h !! data = Some (ODict e) ->
  Mapping__init__step (interp fuel) self (VRef m) (n, f0) h = Returns tt hs ->
  exists v ha raw hb,
    match dict_lookup (Some n) dm with
    | Some v' =>
        v' = v /\ py_pop (VRef m) (Some n) h = Returns v ha
        /\ ha = <[m := ODict (dict_delitem (Some n) dm)]> h
    | None =>
        Field__get__ (interp fuel) f self h = Returns v ha
        /\ heap_frame (length h) nowhere h ha
    end
    /\ Field__set__ (interp fuel) f self v ha = Returns tt hs
    /\ (if is_none v then Returns v ha else rec_to_json (interp fuel) f v ha)
       = Returns raw hb
    /\ heap_frame (length ha) nowhere ha hb
    /\ ha !! data = Some (ODict e)
    /\ hs = <[data := ODict (dict_setitem (f_name f) raw e)]> hb.
Proof.
  intros Hres Hne Hm Hd Hstep.
  assert (m < length h) as Hlm by (by eapply lookup_lt_Some).
  assert (data < length h) as Hld by (by eapply lookup_lt_Some).
  unfold self in Hstep.
  rewrite (Mapping__init__step_descriptor _ _ _ _ _ _ _ Hres) in Hstep.
  fold self in Hstep.
  rewrite (bind_returns _ _ _ _ _ (py_contains_dict _ _ (Some n) _ Hm)) in Hstep.
  destruct (dict_lookup (Some n) dm) as [v|] eqn:Hv.
  - rewrite bool_decide_eq_true_2 in Hstep by eauto.
    rewrite (bind_returns _ _ _ _ _ (py_pop_dict _ _ _ _ _ Hm Hv)) in Hstep.
    set (h1 := <[m := ODict (dict_delitem (Some n) dm)]> h) in *.
    assert (h1 !! data = Some (ODict e)) as Hd1
      by (unfold h1; rewrite lookup_write_other by done; exact Hd).
    destruct (Field__set__returns _ _ _ _ _ _ _ _ Hd1 Hstep)
      as (raw & h2 & Hconv & Hfr & ->).
    exists v, h1, raw, h2.
    split; [split; [reflexivity|]; split; [by apply py_pop_dict | reflexivity]|].
    repeat split; try assumption; apply Hfr.
  - rewrite bool_decide_eq_false_2 in Hstep by (by intros [? ?]).
    apply bind_inv_returns in Hstep as (v & h1 & Hget & Hset).
    assert (heap_frame (length h) nowhere h h1) as Hfr1.
    { eapply preserves_returns;
        [apply Field__get__interp_preserves | lia | exact Hget]. }
    assert (h1 !! data = Some (ODict e)) as Hd1
      by (eapply heap_frame_lookup; [exact Hfr1 | lia | intros [] | exact Hd]).
    destruct (Field__set__returns _ _ _ _ _ _ _ _ Hd1 Hset)
      as (raw & h2 & Hconv & Hfr & ->).
    exists v, h1, raw, h2.
    split; [split; assumption|].
    repeat split; try assumption; apply Hfr.
Qed.

(** The heap after an iteration. *)
Lemma Mapping__init__step_state (n : string) (f : Field) (h ha hb : heap)
    (dm e : dict) (v raw : value) :
  m <> data -> h !! m = Some (ODict dm) -> h !! data = Some (ODict e) ->
  match dict_lookup (Some n) dm with
  | Some v' => ha = <[m := ODict (dict_delitem (Some n) dm)]> h
  | None => heap_frame (length h) nowhere h ha
  end ->
  heap_frame (length ha) nowhere ha hb ->
  let dm1 := match dict_lookup (Some n) dm with
             | Some _ => dict_delitem (Some n) dm
             | None => dm
             end in
  let e1 := dict_setitem (f_name f) raw e in
  let hs := <[data := ODict e1]> hb in
  hs !! m = Some (ODict dm1) /\ hs !! data = Some (ODict e1)
  /\ heap_frame (length h) touched h ha
  /\ length h <= length ha
  /\ heap_frame (length hb) touched hb hs
  /\ heap_frame (length h) touched h hs.
Proof.
  intros Hne Hm Hd Hpop Hfr dm1 e1 hs.
  assert (m < length h) as Hlm by (by eapply lookup_lt_Some).
  assert (data < length h) as Hld by (by eapply lookup_lt_Some).
  assert (heap_frame (length h) touched h ha /\ length h <= length ha
          /\ ha !! m = Some (ODict dm1) /\ ha !! data = Some (ODict e))
    as (Hfa & Hla & Hma & Hda).
  { unfold dm1. destruct (dict_lookup (Some n) dm); subst.
    - split; [apply heap_frame_write; right; by left|].
      split; [by rewrite length_insert|].
      split; [eapply lookup_write_same; exact Hm|].
      rewrite lookup_write_other by done. exact Hd.
    - split; [eapply heap_frame_weaken; [| |exact Hpop]; [lia | intros a []]|].
      split; [by eapply heap_frame_length|].
      split; eapply heap_frame_lookup; try exact Hpop; try done; intros []. }
  assert (heap_frame (length hb) touched hb hs) as Hbs
    by (apply heap_frame_write; right; by right).
  assert (hb !! m = Some (ODict dm1)) as Hmb
    by (eapply heap_frame_lookup; [exact Hfr | lia | intros [] | exact Hma]).
  assert (hb !! data = Some (ODict e)) as Hdb
    by (eapply heap_frame_lookup; [exact Hfr | lia | intros [] | exact Hda]).
  split; [unfold hs; rewrite lookup_write_other by done; exact Hmb|].
  split; [eapply lookup_write_same; exact Hdb|].
  split; [exact Hfa|]. split; [exact Hla|]. split; [exact Hbs|].
  eapply heap_frame_trans; [exact Hfa|].
  eapply heap_frame_trans;
    [eapply heap_frame_weaken; [| |exact Hfr]; [lia | intros a []]|].
  eapply heap_frame_weaken; [| |exact Hbs]; [|done].
  pose proof (heap_frame_length _ _ _ _ Hfr). lia.
Qed.

Lemma dict_keys_setitem_new k v (d : dict) :
  k ∉ dict_keys d -> dict_keys (dict_setitem k v d) = dict_keys d ++ [k].
Proof.
  induction d as [|[k' v'] d IH]; simpl; [done|].
  intros Hk. apply not_elem_of_cons in Hk as [Hne Hk].
  destruct (decide (k' = k)); [congruence|]. simpl. by rewrite IH.
Qed.

Lemma written_later (h hs h' : heap) n f raw :
  heap_frame (length h) touched h hs ->
  written (interp fuel) self touched input hs h' n f raw ->
  written (interp fuel) self touched input h h' n f raw.
Proof.
  intros Hfr (v & hx & ha & hb & Hx & Hv & Hconv & Hb).
  exists v, hx, ha, hb. split; [|done].
  eapply heap_frame_trans; [exact Hfr|].
  eapply heap_frame_weaken; [| |exact Hx]; [by eapply heap_frame_length | done].
Qed.

(** The loop of [__init__], from any of its iterations on. *)
Lemma Mapping__init__loop (fields : list (string * Field)) :
  forall (h h' : heap) (dm e : dict),
    (forall n f, (n, f) ∈ fields -> class_attribute cls n = Some (FieldAttribute f)) ->
    NoDup (map fst fields) -> is_dict dm -> m <> data ->
    h !! m = Some (ODict dm) -> h !! data = Some (ODict e) ->
    (forall n, n ∈ map fst fields ->
               dict_lookup (Some n) dm = dict_lookup (Some n) input) ->
    for_each fields (Mapping__init__step (interp fuel) self (VRef m)) h
      = Returns tt h' ->
    constructs (interp fuel) self (VRef m) input fields h h'
    /\ exists dm' e',
        h' !! m = Some (ODict dm') /\ h' !! data = Some (ODict e')
        /\ is_dict dm'
        /\ (forall k, dict_lookup k dm' =
                      if bool_decide (k ∈ declared_keys fields) then None
                      else dict_lookup k dm)
        /\ (forall k, is_Some (dict_lookup k e) \/ k ∈ stored_names fields ->
                      is_Some (dict_lookup k e'))
        /\ heap_frame (length h) touched h h'
        /\ (forall k, k ∉ stored_names fields ->
                      dict_lookup k e' = dict_lookup k e)
        /\ (NoDup (stored_names fields) ->
            (Forall (fun k => k ∉ dict_keys e) (stored_names fields) ->
             dict_keys e' = dict_keys e ++ stored_names fields)
            /\ Forall (fun item =>
                         exists raw,
                           dict_lookup (f_name (snd item)) e' = Some raw
                           /\ written (interp fuel) self touched input h h'
                                (fst item) (snd item) raw) fields).
Proof.
  induction fields as [|[n f] fields IH];
    intros h h' dm e Hres Hnd Hdm Hne Hm Hd Hin Hrun.
  { injection Hrun as <-. split; [constructor|].
    exists dm, e. split; [done|]. split; [done|]. split; [done|].
    split; [|split; [|split; [|split; [|split]]]].
    - intros k. rewrite bool_decide_eq_false_2; [done | apply not_elem_of_nil].
    - intros k [Hk|Hk]; [exact Hk | by apply elem_of_nil in Hk].
    - apply heap_frame_refl.
    - done.
    - intros _. simpl. by rewrite app_nil_r.
    - constructor. }
  cbn [map fst] in Hnd. apply NoDup_cons in Hnd as [Hn Hnd].
  cbn [for_each] in Hrun.
  apply bind_inv_returns in Hrun as ([] & hs & Hstep & Hrest).
  assert (dict_lookup (Some n) dm = dict_lookup (Some n) input) as Hkey
    by (apply Hin; left).
  destruct (Mapping__init__step_returns n f f h hs dm e
              (Hres n f ltac:(left)) Hne Hm Hd Hstep)
    as (v & ha & raw & hb & Hfirst & Hset & Hconv & Hfr & Hda & ->).
  set (dm1 := match dict_lookup (Some n) dm with
              | Some _ => dict_delitem (Some n) dm
              | None => dm
              end).
  set (e1 := dict_setitem (f_name f) raw e).
  set (hs := <[data := ODict e1]> hb) in *.
  destruct (Mapping__init__step_state n f h ha hb dm e v raw Hne Hm Hd)
    as (Hm1 & Hd1 & Hfa & Hla & Hbs & Hfs); [|exact Hfr|].
  { destruct (dict_lookup (Some n) dm); [apply Hfirst | apply Hfirst]. }
  fold dm1 e1 hs in Hm1, Hd1, Hbs, Hfs.
  assert (is_dict dm1) as Hdm1
    by (unfold dm1; destruct (dict_lookup (Some n) dm);
        [by apply dict_delitem_is_dict | done]).
  assert (forall k, dict_lookup k dm1 =
                    if decide (k = Some n) then None else dict_lookup k dm) as Hlk.
  { intros k. unfold dm1. destruct (dict_lookup (Some n) dm) eqn:Hv.
    - case_decide as Hk; [subst; by apply dict_lookup_delitem_eq|].
      by apply dict_lookup_delitem_ne.
    - case_decide as Hk; [by subst | done]. }
  destruct (IH hs h' dm1 e1 (fun n' f' Hin' => Hres n' f' ltac:(by right))
              Hnd Hdm1 Hne Hm1 Hd1)
    as (Hc & dm' & e' & Hm' & Hd' & Hdm' & Hlk' & He' & Hfr' & Hkeep & Hvals).
  { intros n' Hn'. rewrite Hlk.
    case_decide as Hnn; [injection Hnn as ->; done|].
    apply Hin. by right. }
  { exact Hrest. }
  split.
  { destruct (dict_lookup (Some n) dm) as [v'|] eqn:Hv.
    - destruct Hfirst as (-> & Hpop & _).
      eapply constructs_given; [by rewrite <- Hkey | exact Hpop | exact Hset | exact Hc].
    - destruct Hfirst as (Hget & _).
      eapply constructs_default; [by rewrite <- Hkey | exact Hget | exact Hset | exact Hc]. }
  exists dm', e'. split; [exact Hm'|]. split; [exact Hd'|]. split; [exact Hdm'|].
  assert (length hb = length hs) as Hlbs by (unfold hs; by rewrite length_insert).
  assert (heap_frame (length h) touched h h') as Hframe.
  { eapply heap_frame_trans; [exact Hfs|].
    eapply heap_frame_weaken; [| |exact Hfr']; [|done].
    by eapply heap_frame_length. }
  split; [|split; [|split; [exact Hframe|split]]].
  - intros k. rewrite Hlk', Hlk. unfold declared_keys. cbn [map fst].
    repeat (case_bool_decide || case_decide); subst; try done;
      exfalso;
      match goal with
      | H : _ ∉ _ |- _ => apply H; first [by left | by right]
      | H : _ ∈ _ :: _ |- _ => apply elem_of_cons in H as [?|?]; done
      end.
  - intros k Hk. apply He'. unfold stored_names in Hk. cbn [map snd] in Hk.
    assert (is_Some (dict_lookup (f_name f) e1)) as Hstored.
    { unfold e1. rewrite dict_lookup_setitem. by rewrite decide_True. }
    destruct Hk as [Hk|Hk].
    + left. unfold e1. rewrite dict_lookup_setitem. by case_decide.
    + apply elem_of_cons in Hk as [->|Hk]; [by left | by right].
  - intros k Hk. unfold stored_names in Hk. cbn [map snd] in Hk.
    apply not_elem_of_cons in Hk as [Hkf Hk].
    rewrite (Hkeep k Hk). unfold e1. rewrite dict_lookup_setitem.
    by rewrite decide_False.
  - intros Hnames. unfold stored_names in Hnames. cbn [map snd] in Hnames.
    apply NoDup_cons in Hnames as [Hfn Hnames].
    destruct (Hvals Hnames) as [Hkeys Hwritten].
    split.
    + intros Hnew. unfold stored_names in Hnew. cbn [map snd] in Hnew.
      apply Forall_cons in Hnew as [Hfe Hnew].
      rewrite Hkeys.
      * unfold e1. rewrite dict_keys_setitem_new by done.
        rewrite <- app_assoc. reflexivity.
      * apply Forall_forall. intros k Hk.
        unfold e1. rewrite dict_keys_setitem_new by done.
        rewrite Forall_forall in Hnew.
        intros Hin'. apply elem_of_app in Hin' as [Hin'|Hin'].
        -- by apply (Hnew k).
        -- apply list_elem_of_singleton in Hin' as ->. done.
    + constructor.
      * exists raw. cbn [fst snd]. split.
        -- rewrite (Hkeep _ Hfn). unfold e1. rewrite dict_lookup_setitem.
           by rewrite decide_True.
        -- exists v, h, ha, hb. split; [apply heap_frame_refl|].
           split; [|split; [exact Hconv|]].
           ++ rewrite <- Hkey.
              destruct (dict_lookup (Some n) dm); [|apply Hfirst].
              split; [apply Hfirst | exact Hfa].
           ++ eapply heap_frame_trans; [exact Hbs|].
              rewrite Hlbs. exact Hfr'.
      * eapply Forall_impl; [exact Hwritten|].
        intros [n' f'] (raw' & Hraw' & Hw). exists raw'. split; [exact Hraw'|].
        eapply written_later; [exact Hfs | exact Hw].
Qed.

End RecordConstruction.

Section RecordConstructionMain.
Context {B : Builtins}.

(** Up to the loop: the mapping the loop reads from is the one given, or
    a new empty dict when the given one is empty; then the backing store
    is allocated. *)
Lemma Mapping__init__enters_loop (fuel : nat) (cls : Klass) (m : addr)
    (input : dict) (h h' : heap) (r : value) :
  h !! m = Some (ODict input) ->
  Mapping__init__ (interp fuel) cls (VRef m) h = Returns r h' ->
  exists (m' data : addr) (h0 : heap),
    r = VRecord cls data /\ length h <= data /\ m' <> data
    /\ (m' = m \/ (input = [] /\ length h <= m'))
    /\ h0 !! m' = Some (ODict input) /\ h0 !! data = Some (ODict [])
    /\ heap_frame (length h) nowhere h h0
    /\ for_each (c_fields cls)
         (Mapping__init__step (interp fuel) (VRecord cls data) (VRef m')) h0
       = Returns tt h'.
Proof.
  intros Hm Hrun.
  assert (m < length h) as Hlm by (by eapply lookup_lt_Some).
  unfold Mapping__init__ in Hrun.
  rewrite (bind_returns _ _ _ _ _ (py_bool_dict _ _ _ Hm)) in Hrun.
  destruct (decide (input = [])) as [->|Hne].
  - (* an empty mapping is falsy: the loop reads a new, empty dict *)
    rewrite bool_decide_eq_true_2 in Hrun by done. cbn [negb] in Hrun.
    erewrite bind_returns in Hrun by reflexivity.
    erewrite bind_returns in Hrun by reflexivity.
    set (m' := length h) in *.
    set (h_a := h ++ [ODict []]) in *.
    set (data := length h_a) in *.
    set (h0 := h_a ++ [ODict []]) in *.
    apply bind_inv_returns in Hrun as ([] & h1 & Hloop & Hret).
    injection Hret as <- <-.
    assert (length h_a = S (length h)) as Hla
      by (unfold h_a; rewrite length_app; simpl; lia).
    exists m', data, h0.
    split; [reflexivity|]. split; [unfold data; lia|].
    split; [unfold data, m'; lia|]. split; [right; split; [done | unfold m'; lia]|].
    split; [apply lookup_alloc_old, lookup_alloc_new|].
    split; [apply lookup_alloc_new|]. split; [|exact Hloop].
    unfold h0, h_a. rewrite <- app_assoc. by apply heap_frame_app.
  - (* the loop reads the mapping itself *)
    rewrite bool_decide_eq_false_2 in Hrun by done. cbn [negb] in Hrun.
    erewrite bind_returns in Hrun by reflexivity.
    erewrite bind_returns in Hrun by reflexivity.
    set (data := length h) in *.
    set (h0 := h ++ [ODict []]) in *.
    apply bind_inv_returns in Hrun as ([] & h1 & Hloop & Hret).
    injection Hret as <- <-.
    exists m, data, h0.
    split; [reflexivity|]. split; [unfold data; lia|].
    split; [unfold data; lia|]. split; [by left|].
    split; [by apply lookup_alloc_old|].
    split; [apply lookup_alloc_new|]. split; [|exact Hloop].
    by apply heap_frame_app.
Qed.

(** X27. A construction that returns, for a class none of whose fields is
    shadowed: a record of [cls] is constructed from the mapping at [m],
    whose items are [input], in one step per declared field, in order.
    For a field whose name is a key of the input the key is popped from
    the mapping and its value goes through the typed write; for a field
    whose name is not a key, a typed read is performed and its result
    goes through the typed write.  Afterwards the backing store of the
    new record holds an entry under the name of every declared field, and
    the input mapping has lost exactly the declared keys. *)
Theorem Mapping__init__constructs (fuel : nat) (cls : Klass) (m : addr)
    (input : dict) (h h' : heap) (r : value) :
  fields_resolve cls ->
  is_dict (c_fields cls) -> is_dict input ->
  h !! m = Some (ODict input) ->
  Mapping__init__ (interp fuel) cls (VRef m) h = Returns r h' ->
  exists (data : addr) (values : value) (h0 : heap) (stored remaining : dict),
    r = VRecord cls data /\ length h <= data
    /\ h0 !! data = Some (ODict [])
    /\ constructs (interp fuel) r values input (c_fields cls) h0 h'
    /\ h' !! data = Some (ODict stored)
    /\ Forall (fun k => is_Some (dict_lookup k stored)) (stored_names (c_fields cls))
    /\ h' !! m = Some (ODict remaining)
    /\ (forall k, dict_lookup k remaining =
                  if bool_decide (k ∈ declared_keys (c_fields cls)) then None
                  else dict_lookup k input).
Proof.
  intros Hres Hfields Hinput Hm Hrun.
  assert (m < length h) as Hlm by (by eapply lookup_lt_Some).
  destruct (Mapping__init__enters_loop _ _ _ _ _ _ _ Hm Hrun)
    as (m' & data & h0 & -> & Hdata & Hmd & Hm' & Hm0 & Hd0 & Hfr0 & Hloop).
  destruct (Mapping__init__loop fuel cls data m' input (c_fields cls) h0 h' input []
              Hres Hfields Hinput Hmd Hm0 Hd0 (fun n _ => eq_refl) Hloop)
    as (Hc & dm' & e' & Hmm' & Hd' & Hdm' & Hlk' & He' & Hfr' & _).
  assert (length h <= length h0) as Hl0 by (by eapply heap_frame_length).
  destruct Hm' as [-> | [-> Hfresh]].
  - exists data, (VRef m), h0, e', dm'.
    split; [reflexivity|]. split; [exact Hdata|]. split; [exact Hd0|].
    split; [exact Hc|]. split; [exact Hd'|]. split; [|split].
    + apply Forall_forall. intros k Hk. apply He'. by right.
    + exact Hmm'.
    + exact Hlk'.
  - exists data, (VRef m'), h0, e', [].
    split; [reflexivity|]. split; [exact Hdata|]. split; [exact Hd0|].
    split; [exact Hc|]. split; [exact Hd'|]. split; [|split].
    + apply Forall_forall. intros k Hk. apply He'. by right.
    + eapply heap_frame_lookup; [exact Hfr'| lia | intros [?|?]; lia |].
      eapply heap_frame_lookup; [exact Hfr0 | lia | intros [] | exact Hm].
    + intros k. by destruct (bool_decide _).
Qed.

End RecordConstructionMain.

(** A [Person] with a text field and a date-time field whose default is a
    producer, built from a mapping that gives the name and an undeclared
    key. *)
Lemma Mapping__init__constructs_witness :
  let B := Example.builtins in
  let name := MkField KText (Some "name") VNone in
  let added := MkField KDateTime (Some "added") (VFunction (Extern "now")) in
  let cls := MkClass "Person" [("name", name); ("added", added)] in
  let input := [(Some "name", VStr "John Doe"); (Some "extra", VInt 1)] in
  let h := [ODict input] in
  let r := VRecord cls 1 in
  let h' := [ODict [(Some "extra", VInt 1)];
             ODict [(Some "name", VStr "John Doe");
                    (Some "added", VStr "2007-04-01T15:30:00Z")]] in
  exists (data : addr) (values : value) (h0 : heap) (stored remaining : dict),
    r = VRecord cls data /\ length h <= data
    /\ h0 !! data = Some (ODict [])
    /\ constructs (interp 1) r values input (c_fields cls) h0 h'
    /\ h' !! data = Some (ODict stored)
    /\ Forall (fun k => is_Some (dict_lookup k stored)) (stored_names (c_fields cls))
    /\ h' !! 0 = Some (ODict remaining)
    /\ (forall k, dict_lookup k remaining =
                  if bool_decide (k ∈ declared_keys (c_fields cls)) then None
                  else dict_lookup k input).
Proof.
  intros B name added cls input h r h'.
  apply (Mapping__init__constructs 1 cls 0 input h h' r).
  - apply fields_resolve_MkClass. unfold is_dict. compute_done.
  - unfold is_dict. compute_done.
  - unfold is_dict. compute_done.
  - reflexivity.
  - reflexivity.
Defined.

(** ** Mapping.__init__ on raw date and time texts *)

Section RawDateInput.
Context {B : Builtins}.

(** The construction from a mapping with one item, for a class with one
    field declared under the item's key: the key is popped and the value
    goes through the typed write of the field. *)
Lemma Mapping__init__one_field (fuel : nat) (cname n : string) (f : Field) (v : value) :
  let cls := MkClass cname [(n, f)] in
  Mapping__init__ (interp fuel) cls (VRef 0) [ODict [(Some n, v)]] =
    (Field__set__ (interp fuel) f (VRecord cls 1) v ;;; ret (VRecord cls 1))
      [ODict []; ODict []].
Proof.
  intros cls. unfold Mapping__init__.
  rewrite (bind_returns _ _ _ _ _
             (py_bool_dict 0 [(Some n, v)] [ODict [(Some n, v)]] eq_refl)).
  rewrite bool_decide_eq_false_2 by discriminate. cbn [negb].
  erewrite bind_returns by reflexivity.
  erewrite bind_returns by reflexivity.
  cbn [c_fields cls MkClass for_each length app].
  set (h_a := [ODict [(Some n, v)]; ODict []]).
  assert (h_a !! 0 = Some (ODict [(Some n, v)])) as Hm by reflexivity.
  assert (Mapping__init__step (interp fuel) (VRecord cls 1) (VRef 0) (n, f) h_a =
            Field__set__ (interp fuel) f (VRecord cls 1) v [ODict []; ODict []])
    as Hstep.
  { rewrite (Mapping__init__step_descriptor _ _ _ _ _ _ f)
      by (unfold cls; rewrite class_attribute_MkClass; cbn; by rewrite decide_True).
    rewrite (bind_returns _ _ _ _ _ (py_contains_dict _ _ (Some n) _ Hm)).
    cbn [dict_lookup]. rewrite decide_True by reflexivity.
    rewrite bool_decide_eq_true_2 by eauto.
    erewrite bind_returns;
      [|apply (py_pop_dict _ _ _ v _ Hm); cbn; by rewrite decide_True].
    cbn [dict_delitem]. rewrite decide_True by reflexivity.
    reflexivity. }
  unfold bind. fold cls. rewrite Hstep.
  destruct (Field__set__ _ _ _ _ _) as [[] h1|e h1| |]; reflexivity.
Qed.

(** C1. A class with one date field (or one time field), and a record of
    it constructed from the raw mapping that gives the field the text
    [s]: the key is popped, its value goes through the typed write, and
    the raw conversion there raises on the text, so that no record is
    constructed and nothing is stored; this whatever [s] is, a date or a
    time in raw form included.  The same construction from a date or a
    time in typed form stores its raw form, and the raw conversion of
    the date-time field, given a text, parses it first. *)
Theorem Mapping__init__raw_date_raises (fuel : nat) (cname n : string)
    (dflt : value) (s : string) :
  let h := [ODict [(Some n, VStr s)]] in
  let date_cls := MkClass cname [(n, MkField KDate (Some n) dflt)] in
  let time_cls := MkClass cname [(n, MkField KTime (Some n) dflt)] in
  Mapping__init__ (interp (S fuel)) date_cls (VRef 0) h =
    Raises (PyExc AttributeError "isoformat" [VStr s]) [ODict []; ODict []]
  /\ Mapping__init__ (interp (S fuel)) time_cls (VRef 0) h =
    Raises (PyExc TypeError "replace() takes no keyword arguments" [VStr s])
      [ODict []; ODict []]
  /\ (forall d,
     Mapping__init__ (interp (S fuel)) date_cls (VRef 0) [ODict [(Some n, VDate d)]] =
       Returns (VRecord date_cls 1)
         [ODict []; ODict [(Some n, VStr (date_isoformat d))]])
  /\ (forall t,
     Mapping__init__ (interp (S fuel)) time_cls (VRef 0) [ODict [(Some n, VTime t)]] =
       Returns (VRecord time_cls 1)
         [ODict []; ODict [(Some n, VStr (time_isoformat (time_replace_microsecond t 0)))]])
  /\ (forall name h0,
     _to_json (interp fuel) (MkField KDateTime name dflt) (VStr s) h0 =
       (typed <- DateTimeField_to_python (VStr s) ;; DateTimeField_to_json typed) h0).
Proof.
  intros h date_cls time_cls.
  split; [|split; [|split; [|split]]].
  - unfold h, date_cls. rewrite Mapping__init__one_field. reflexivity.
  - unfold h, time_cls. rewrite Mapping__init__one_field. reflexivity.
  - intros d. unfold date_cls. rewrite Mapping__init__one_field. reflexivity.
  - intros t. unfold time_cls. rewrite Mapping__init__one_field. reflexivity.
  - intros name h0. apply DateTimeField_to_json_via_typed.
Qed.

End RawDateInput.

(** ** Defaults of the composite fields *)

Section CompositeDefaults.
Context {B : Builtins}.

Lemma py_bool_heap v (h : heap) b h' : py_bool v h = Returns b h' -> h' = h.
Proof.
  assert (forall v (h : heap) len h', py_len v h = Returns len h' -> h' = h) as Hlen.
  { clear. induction v; intros h0 len h0'; simpl; try discriminate;
      try (unfold ret; congruence); try apply IHv.
    - destruct (is_ascii_text s); [unfold ret; congruence | discriminate].
    - unfold bind, read. destruct (h0 !! a) as [[]|]; try discriminate;
        unfold ret; congruence.
    - unfold bind, read. destruct (h0 !! data) as [[]|]; try discriminate;
        unfold ret; congruence. }
  revert h b h'. induction v; intros h0 truth h0'; cbn [py_bool];
    try (unfold ret; congruence).
  - intros Hb. apply bind_inv_returns in Hb as (len & h1 & Hn & Hr).
    apply Hlen in Hn as ->. unfold ret in Hr. congruence.
  - intros Hb. apply bind_inv_returns in Hb as (len & h1 & Hn & Hr).
    apply Hlen in Hn as ->. unfold ret in Hr. congruence.
  - destruct PY2; [apply IHv|].
    intros Hb. apply bind_inv_returns in Hb as (len & h1 & Hn & Hr).
    apply Hlen in Hn as ->. unfold ret in Hr. congruence.
Qed.

Lemma py_bool_None (h : heap) : py_bool VNone h = Returns false h.
Proof. reflexivity. Qed.

Lemma py_bool_true_not_None v (h h' : heap) :
  py_bool v h = Returns true h' -> v <> VNone.
Proof. intros Hb ->. discriminate. Qed.

(** [default or container]: the default when it is true, else a new
    empty container; never null. *)
Lemma default_or_container default o (h : heap) d h' :
  (given <- py_bool default ;; if given then ret default else alloc o) h
    = Returns d h' ->
  d <> VNone.
Proof.
  intros Hr. apply bind_inv_returns in Hr as (given & h1 & Hb & Hr).
  destruct given.
  - injection Hr as <- _. by eapply py_bool_true_not_None.
  - unfold alloc, bind, new_obj, ret in Hr. injection Hr as <- _. discriminate.
Qed.

Lemma DictField__init__default mapping name default (h : heap) f h' :
  DictField__init__ mapping name default h = Returns f h' ->
  exists d, f = MkField (KDict mapping) name (VFunction (LambdaDictCopy d))
            /\ d <> VNone.
Proof.
  unfold DictField__init__. intros Hr.
  apply bind_inv_returns in Hr as (given & h1 & Hb & Hr).
  apply bind_inv_returns in Hr as (d & h2 & Hd & Hr).
  injection Hr as <- _. exists d. split; [reflexivity|].
  eapply (default_or_container default (ODict []) h d h2).
  by rewrite (bind_returns _ _ _ _ _ Hb).
Qed.

Lemma ListField__init__default field name default (h : heap) f h' :
  ListField__init__ field name default h = Returns f h' ->
  exists elt d, f = MkField (KList elt) name (VFunction (LambdaCopyCopy d))
                /\ d <> VNone.
Proof.
  unfold ListField__init__. intros Hr.
  apply bind_inv_returns in Hr as (given & h1 & Hb & Hr).
  apply bind_inv_returns in Hr as (d & h2 & Hd & Hr).
  apply bind_inv_returns in Hr as (elt & h3 & Helt & Hr).
  injection Hr as <- _. exists elt, d. split; [reflexivity|].
  eapply (default_or_container default (OList []) h d h2).
  by rewrite (bind_returns _ _ _ _ _ Hb).
Qed.

(** Reading a field whose slot is empty and whose default is a function
    calls the function. *)
Lemma Field__get__calls_default rec self cls data fn (h : heap) :
  slot_empty h data (f_name self) ->
  f_default self = VFunction fn ->
  Field__get__ rec self (VRecord cls data) h = py_call (VFunction fn) h.
Proof.
  intros (d & Hd & Hslot) Hdef. unfold Field__get__.
  rewrite (bind_returns _ _ _ _ _ (Mapping_get_stored _ (f_name self) _ _ Hd)).
  rewrite Hdef. destruct Hslot as [-> | ->]; reflexivity.
Qed.

Lemma method_copy_dict c d0 (h : heap) :
  h !! c = Some (ODict d0) ->
  method_copy (VRef c) h = Returns (VRef (length h)) (h ++ [ODict d0]).
Proof.
  intros Hc. unfold method_copy.
  rewrite (bind_returns _ _ _ _ _ (read_lookup _ _ _ Hc)). reflexivity.
Qed.

Lemma copy_copy_object c o (h : heap) :
  h !! c = Some o ->
  copy_copy (VRef c) h = Returns (VRef (length h)) (h ++ [o]).
Proof.
  intros Hc. unfold copy_copy.
  rewrite (bind_returns _ _ _ _ _ (read_lookup _ _ _ Hc)). reflexivity.
Qed.

Lemma method_copy_not_None d (h : heap) v h' :
  method_copy d h = Returns v h' -> v <> VNone.
Proof.
  unfold method_copy. destruct d; try discriminate.
  intros Hr. apply bind_inv_returns in Hr as (o & h1 & _ & Hr).
  destruct o; [destruct PY2; [discriminate|]|];
    unfold alloc, bind, new_obj, ret in Hr; injection Hr as <- _; discriminate.
Qed.

Lemma copy_copy_not_None d (h : heap) v h' :
  d <> VNone -> copy_copy d h = Returns v h' -> v <> VNone.
Proof.
  intros Hd. unfold copy_copy. destruct d; try (intros [= <- _]; done).
  intros Hr. apply bind_inv_returns in Hr as (o & h1 & _ & Hr).
  unfold alloc, bind, new_obj, ret in Hr; injection Hr as <- _; discriminate.
Qed.

(** *** The container a construction stores for an absent composite field *)

Lemma for_each_app {A} (l1 l2 : list A) (body : A -> M unit) (h : heap) :
  for_each (l1 ++ l2) body h = (for_each l1 body ;;; for_each l2 body) h.
Proof.
  revert h. induction l1 as [|x l1 IH]; intros h; simpl; [reflexivity|].
  unfold bind.
  destruct (body x h) as [[] h1| | |]; try reflexivity. rewrite IH. reflexivity.
Qed.

Lemma preserves_length {A} (m : M A) (h : heap) a h' :
  preserves 0 nowhere m -> m h = Returns a h' -> length h <= length h'.
Proof.
  intros Hm Hr. eapply heap_frame_length, preserves_returns; [exact Hm | lia | exact Hr].
Qed.

Lemma Mapping__init__returns_fresh fuel cls values (h : heap) r h' :
  Mapping__init__ (interp fuel) cls values h = Returns r h' ->
  exists data, r = VRecord cls data /\ length h <= data < length h'.
Proof.
  unfold Mapping__init__. intros Hr.
  apply bind_inv_returns in Hr as (given & h1 & Hb & Hr).
  apply py_bool_heap in Hb as ->.
  apply bind_inv_returns in Hr as (values' & h2 & Hv & Hr).
  assert (length h <= length h2) as Hl2.
  { destruct given; [injection Hv as _ <-; lia|].
    eapply preserves_length; [apply preserves_alloc | exact Hv]. }
  apply bind_inv_returns in Hr as (data & h3 & Hd & Hr).
  injection Hd as <- <-.
  apply bind_inv_returns in Hr as ([] & h4 & Hloop & Hr).
  injection Hr as <- <-.
  exists (length h2). split; [reflexivity|]. split; [exact Hl2|].
  destruct (interp_preserves fuel 0) as (Hp & Hj & Hi).
  assert (length (h2 ++ [ODict []]) <= length h4) as Hl4.
  { eapply preserves_length; [|exact Hloop].
    apply preserves_for_each. intros [field_name field].
    unfold Mapping__init__step.
    apply preserves_bind; [auto with pres | intros present].
    destruct present.
    - apply preserves_bind.
      + eapply preserves_outside; [|apply preserves_py_pop]. intros a _. left. lia.
      + intros v. apply preserves_py_setattr; [done.. | left; lia].
    - apply preserves_bind; [by apply preserves_py_getattr | intros v].
      apply preserves_py_setattr; [done.. | left; lia]. }
  rewrite length_app in Hl4. simpl in Hl4. lia.
Qed.

Lemma rec_init_returns_fresh fuel cls values (h : heap) r h' :
  rec_init (interp fuel) cls values h = Returns r h' ->
  exists data, r = VRecord cls data /\ length h <= data < length h'.
Proof.
  destruct fuel as [|k]; [discriminate|]. apply Mapping__init__returns_fresh.
Qed.

(** The raw form of a container, for a composite field, is a container:
    the same one for an opaque nested-object field, a new one otherwise. *)
Lemma composite_to_json_container fuel f a0 (ha : heap) raw hb :
  is_DictField f = true \/ (exists elt, f_kind f = KList elt) ->
  a0 < length ha ->
  rec_to_json (interp fuel) f (VRef a0) ha = Returns raw hb ->
  exists a, raw = VRef a /\ a < length hb /\ (a = a0 \/ length ha <= a).
Proof.
  intros Hkind Ha0 Hr. destruct fuel as [|k]; [discriminate|].
  cbn [interp rec_to_json] in Hr. unfold _to_json in Hr.
  unfold is_DictField in Hkind.
  destruct (f_kind f) as [| | | | | | | | | |mapping|elt];
    try (destruct Hkind as [?|[? ?]]; discriminate).
  - unfold DictField_to_json in Hr. destruct mapping as [c'|].
    + apply bind_inv_returns in Hr as (r' & h1 & Hrec & Hun).
      apply bind_inv_returns in Hrec as (kwargs & h2 & Hkw & Hrec).
      apply Mapping_from_kwargs_returns in Hrec as [_ Hrec].
      apply rec_init_returns_fresh in Hrec as (data' & -> & Hd1 & Hd2).
      injection Hun as <- <-. exists data'. split; [reflexivity|].
      split; [exact Hd2|]. right.
      assert (length ha <= length h2)
        by (eapply preserves_length; [apply preserves_unpack_kwargs | exact Hkw]).
      rewrite length_app in Hd1. simpl in Hd1.
      lia.
    + injection Hr as <- <-. exists a0. split; [reflexivity|]. split; [exact Ha0 | by left].
  - unfold ListField_to_json in Hr.
    apply bind_inv_returns in Hr as (items & h1 & Hit & Hr).
    apply bind_inv_returns in Hr as (raws & h2 & Hmap & Hal).
    unfold alloc, bind, new_obj, ret in Hal. injection Hal as <- <-.
    exists (length h2). split; [reflexivity|].
    split; [rewrite length_app; simpl; lia|]. right.
    destruct (interp_preserves k 0) as (Hp & Hj & Hi).
    assert (length ha <= length h1)
      by (eapply preserves_length; [by apply preserves_py_iter | exact Hit]).
    assert (length h1 <= length h2).
    { eapply preserves_length; [|exact Hmap].
      apply preserves_mapM_Forall.
      eapply Forall_impl; [eapply (py_iter_items _ 0), Hit; done|].
      intros next Hnext. cbv beta in *.
      apply preserves_bind; [exact Hnext | intros item; apply Hj]. }
    lia.
Qed.

(** A record of a class none of whose fields is shadowed, constructed
    from a mapping that has no value for a composite field [f], stores,
    under the name of [f], a container allocated during the
    construction. *)
Lemma Mapping__init__stores_new_container (fuel : nat) (cls : Klass) (m : addr)
    (input : dict) (h h' : heap) (r : value)
    (pre post : list (string * Field)) (n : string) (f : Field) (c : addr) (o : obj) :
  c_fields cls = pre ++ (n, f) :: post ->
  fields_resolve cls ->
  is_dict (c_fields cls) -> NoDup (stored_names (c_fields cls)) -> is_dict input ->
  h !! m = Some (ODict input) -> dict_lookup (Some n) input = None ->
  is_DictField f = true \/ (exists elt, f_kind f = KList elt) ->
  (f_default f = VFunction (LambdaDictCopy (VRef c)) /\ exists d0, o = ODict d0)
  \/ f_default f = VFunction (LambdaCopyCopy (VRef c)) ->
  h !! c = Some o -> c <> m ->
  Mapping__init__ (interp fuel) cls (VRef m) h = Returns r h' ->
  exists data stored a,
    r = VRecord cls data /\ h' !! data = Some (ODict stored)
    /\ dict_lookup (f_name f) stored = Some (VRef a)
    /\ length h <= a < length h'
    /\ h' !! c = Some o.
Proof.
  intros Hsplit Hres Hfields Hnames Hinput Hm Hn Hkind Hdef Hc Hcm Hrun.
  unfold fields_resolve in Hres. rewrite Hsplit in Hres.
  assert (c < length h) as Hlc by (by eapply lookup_lt_Some).
  destruct (Mapping__init__enters_loop _ _ _ _ _ _ _ Hm Hrun)
    as (m' & data & h0 & -> & Hdata & Hmd & Hm' & Hm0 & Hd0 & Hfr0 & Hloop).
  assert (length h <= length h0) as Hl0 by (by eapply heap_frame_length).
  assert (c <> m') as Hcm' by (destruct Hm' as [-> | [_ ?]]; [done | lia]).
  assert (c <> data) as Hcd by lia.
  assert (h0 !! c = Some o) as Hc0
    by (eapply heap_frame_lookup; [exact Hfr0 | lia | intros [] | exact Hc]).
  rewrite Hsplit in *. clear Hsplit.
  unfold is_dict in Hfields. rewrite map_app in Hfields. cbn [map fst] in Hfields.
  apply NoDup_app in Hfields as (Hpre & Hpre_post & Hpost).
  apply NoDup_cons in Hpost as [Hn_post Hpost].
  unfold stored_names in Hnames. rewrite map_app in Hnames. cbn [map snd] in Hnames.
  apply NoDup_app in Hnames as (Hspre & Hspre_post & Hspost).
  apply NoDup_cons in Hspost as [Hf_post Hspost].
  rewrite for_each_app in Hloop.
  apply bind_inv_returns in Hloop as ([] & hp & Hloop_pre & Hloop).
  cbn [for_each] in Hloop.
  apply bind_inv_returns in Hloop as ([] & hs & Hstep & Hloop_post).
  (* the fields before [f] *)
  destruct (Mapping__init__loop fuel cls data m' input pre h0 hp input []
              (fun n' f' Hin' => Hres n' f' ltac:(apply elem_of_app; by left))
              Hpre Hinput Hmd Hm0 Hd0 (fun n _ => eq_refl) Hloop_pre)
    as (_ & dmp & ep & Hmp & Hdp & Hdmp & Hlkp & _ & Hfrp & Hkeepp & _).
  assert (length h0 <= length hp) as Hlp by (by eapply heap_frame_length).
  assert (m' < length h0) as Hlm' by (by eapply lookup_lt_Some).
  assert (data < length h0) as Hld by (by eapply lookup_lt_Some).
  assert (hp !! c = Some o) as Hcp.
  { eapply heap_frame_lookup; [exact Hfrp | lia | intros [?|?]; done | exact Hc0]. }
  assert (dict_lookup (Some n) dmp = None) as Hnp.
  { rewrite Hlkp. case_bool_decide; [done | exact Hn]. }
  assert (dict_lookup (f_name f) ep = None) as Hfp.
  { rewrite Hkeepp; [reflexivity|].
    intros Hin. apply (Hspre_post _ Hin). left. }
  (* the step of [f]: a typed read of the default, then a typed write *)
  destruct (Mapping__init__step_returns fuel cls data m' n f f hp hs dmp ep
              (Hres n f ltac:(apply elem_of_app; right; left)) Hmd Hmp Hdp Hstep)
    as (v & ha & raw & hb & Hfirst & Hset & Hconv & Hfr & Hda & ->).
  rewrite Hnp in Hfirst. destruct Hfirst as (Hget & Hfra).
  assert (slot_empty hp data (f_name f)) as Hslot by (exists ep; eauto).
  assert (v = VRef (length hp) /\ ha = hp ++ [o]) as [-> ->].
  { destruct Hdef as [[Hdef [d0 ->]]|Hdef];
      rewrite (Field__get__calls_default _ _ _ _ _ _ Hslot Hdef) in Hget;
      cbn [py_call] in Hget.
    - rewrite (method_copy_dict _ _ _ Hcp) in Hget. by injection Hget as <- <-.
    - rewrite (copy_copy_object _ _ _ Hcp) in Hget. by injection Hget as <- <-. }
  cbn [is_none] in Hconv.
  assert (length (hp ++ [o]) = S (length hp)) as Hla
    by (rewrite length_app; simpl; lia).
  destruct (composite_to_json_container _ _ _ _ _ _ Hkind
              (ltac:(lia) : length hp < length (hp ++ [o])) Hconv)
    as (a & -> & Ha & Ha').
  destruct (Mapping__init__step_state data m' n f hp (hp ++ [o]) hb dmp ep
              (VRef (length hp)) (VRef a) Hmd Hmp Hdp)
    as (Hm1 & Hd1 & Hfa & Hla' & Hbs & Hfs); [by rewrite Hnp | exact Hfr |].
  rewrite Hnp in Hm1.
  set (e1 := dict_setitem (f_name f) (VRef a) ep) in *.
  set (hs := <[data := ODict e1]> hb) in *.
  (* the fields after [f] *)
  destruct (Mapping__init__loop fuel cls data m' input post hs h' dmp e1
              (fun n' f' Hin' =>
                 Hres n' f' ltac:(apply elem_of_app; right; by right))
              Hpost Hdmp Hmd Hm1 Hd1)
    as (_ & dm' & e' & Hmm' & Hd' & _ & _ & _ & Hfr' & Hkeep & _).
  { intros n' Hn'. rewrite Hlkp. rewrite bool_decide_eq_false_2; [reflexivity|].
    unfold declared_keys. intros Hin.
    apply list_elem_of_fmap in Hin as ([n'' f''] & [= ->] & Hin).
    apply (Hpre_post n'').
    - apply list_elem_of_fmap. by exists (n'', f'').
    - by right. }
  { exact Hloop_post. }
  exists data, e', a. split; [reflexivity|]. split; [exact Hd'|].
  assert (length hb = length hs) as Hlbs by (unfold hs; by rewrite length_insert).
  assert (length hs <= length h') as Hls by (by eapply heap_frame_length).
  split; [|split].
  - rewrite (Hkeep _ Hf_post). unfold e1. rewrite dict_lookup_setitem.
    by rewrite decide_True.
  - lia.
  - eapply heap_frame_lookup; [exact Hfr' | | intros [?|?]; done |].
    + pose proof (heap_frame_length _ _ _ _ Hfs). lia.
    + eapply heap_frame_lookup; [exact Hfs | lia | intros [?|?]; done | exact Hcp].
Qed.


End CompositeDefaults.


(** ** Round trip *)

Section Induction.

Lemma json_ind' (P : json -> Prop) :
  P JNull -> (forall b, P (JBool b)) -> (forall n, P (JInt n)) ->
  (forall x, P (JFloat x)) -> (forall s, P (JStr s)) ->
  (forall items, Forall P items -> P (JList items)) ->
  (forall items, Forall (fun kj => P (snd kj)) items -> P (JDict items)) ->
  forall j, P j.
Proof.
  intros Hnull Hbool Hint Hfloat Hstr Hlist Hdict.
  fix IH 1.
  intros [| | | | |items|items];
    [exact Hnull | apply Hbool | apply Hint | apply Hfloat | apply Hstr | |].
  - apply Hlist. induction items as [|j items IHitems]; constructor;
      [apply IH | exact IHitems].
  - apply Hdict. induction items as [|[k j] items IHitems]; constructor;
      [apply IH | exact IHitems].
Qed.

Lemma field_ind' (P : Field -> Prop) :
  (forall kind n d,
     match kind with
     | KList elt => P elt
     | KDict (Some cls) => Forall (fun nf => P (snd nf)) (c_fields cls)
     | _ => True
     end -> P (MkField kind n d)) ->
  forall f, P f.
Proof.
  intros Hstep. fix IH 1. intros [kind n d]. apply Hstep.
  destruct kind as [| | | | | | | | | |[[cname fields attrs]|]|elt];
    try exact I; [|apply IH].
  simpl. induction fields as [|[k f] fields IHfields]; constructor;
    [apply IH | exact IHfields].
Qed.

End Induction.

Section Representation.

Lemma represents_outside (S S' : addr -> Prop) (h h' : heap) j v :
  (forall a o, h !! a = Some o -> ~ S a -> h' !! a = Some o /\ ~ S' a) ->
  represents S h j v -> represents S' h' j v.
Proof.
  intros Hh. revert v. induction j as [| | | | |items IH|items IH] using json_ind';
    intros v Hrep;
    inversion Hrep as [| | | | |a items' vs HS Ha Hall|a items' d HS Ha Hall];
    subst; try constructor.
  - destruct (Hh _ _ Ha HS) as [Ha' HS']. econstructor; [exact HS' | exact Ha' |].
    clear -IH Hall. induction Hall; constructor; inversion IH; subst; auto.
  - destruct (Hh _ _ Ha HS) as [Ha' HS']. econstructor; [exact HS' | exact Ha' |].
    clear -IH Hall. induction Hall as [|[k j] [k' v] items d [Hk Hr] _ IHd];
      constructor; inversion IH; subst; auto.
Qed.

(** What is represented outside [S] survives every change of the heap
    that leaves the objects outside [S] as they are. *)
Lemma represents_frame (S : addr -> Prop) (h h' : heap) j v :
  heap_frame (length h) S h h' ->
  represents S h j v -> represents S h' j v.
Proof.
  intros Hfr. apply represents_outside. intros a o Ha HS. split; [|exact HS].
  eapply heap_frame_lookup; [exact Hfr | by eapply lookup_lt_Some | exact HS | exact Ha].
Qed.

(** Addresses the heap does not have yet can be added to [S]. *)
Lemma represents_fresh (S S' : addr -> Prop) (h : heap) j v :
  (forall a, S' a -> S a \/ length h <= a) ->
  represents S h j v -> represents S' h j v.
Proof.
  intros HS. apply represents_outside. intros a o Ha HnS. split; [exact Ha|].
  intros HS'. destruct (HS a HS') as [?|Hl]; [done|].
  apply lookup_lt_Some in Ha. lia.
Qed.

Lemma represents_items_frame (S : addr -> Prop) (h h' : heap) items d :
  heap_frame (length h) S h h' ->
  represents_items S h items d -> represents_items S h' items d.
Proof.
  intros Hfr Hrep. eapply Forall2_impl; [exact Hrep|].
  intros kj kv [Hk Hr]. split; [exact Hk | by eapply represents_frame].
Qed.

Lemma represents_items_fresh (S S' : addr -> Prop) (h : heap) items d :
  (forall a, S' a -> S a \/ length h <= a) ->
  represents_items S h items d -> represents_items S' h items d.
Proof.
  intros HS Hrep. eapply Forall2_impl; [exact Hrep|].
  intros kj kv [Hk Hr]. split; [exact Hk | by eapply represents_fresh].
Qed.

(** A value determines the JSON value it represents. *)
Lemma represents_inj (S : addr -> Prop) (h : heap) j1 j2 v :
  represents S h j1 v -> represents S h j2 v -> j1 = j2.
Proof.
  revert j2 v. induction j1 as [| | | | |items IH|items IH] using json_ind';
    intros j2 v H1 H2;
    inversion H1 as [| | | | |a1 items1 vs1 HS1 Ha1 Hall1|a1 items1 d1 HS1 Ha1 Hall1];
    subst;
    inversion H2 as [| | | | |a2 items2 vs2 HS2 Ha2 Hall2|a2 items2 d2 HS2 Ha2 Hall2];
    subst; try reflexivity; try congruence.
  - f_equal. assert (vs2 = vs1) as -> by congruence.
    clear -IH Hall1 Hall2. revert items2 Hall2.
    induction Hall1 as [|j v items vs Hj _ IHvs]; intros items2 Hall2;
      inversion Hall2; subst; [reflexivity|].
    inversion IH; subst. f_equal; eauto.
  - f_equal. assert (d2 = d1) as -> by congruence.
    clear -IH Hall1 Hall2. revert items2 Hall2.
    induction Hall1 as [|[k j] [k' v] items d [Hk Hj] _ IHd]; intros items2 Hall2;
      inversion Hall2 as [|[k0 j0] ? ? ? [Hk0 Hj0]]; subst; [reflexivity|].
    inversion IH; subst. simpl in *. f_equal; [|eauto].
    f_equal; [congruence | eauto].
Qed.

End Representation.

Section Lookups.

Lemma represents_weaken (S S' : addr -> Prop) (h : heap) j v :
  (forall a, S' a -> S a) ->
  represents S h j v -> represents S' h j v.
Proof.
  intros HS. apply represents_fresh. intros a Ha. left. by apply HS.
Qed.

Lemma NoDup_map_Some {A} (f : A -> string) (l : list A) :
  NoDup (map f l) -> NoDup (map (fun x => Some (f x)) l).
Proof.
  induction l as [|a l IH]; simpl; [constructor|].
  rewrite !NoDup_cons. intros [Hn Hl]. split; [|auto].
  intros Hin. apply Hn.
  apply list_elem_of_In, in_map_iff in Hin as (x & [= Hx] & Hin).
  apply list_elem_of_In, in_map_iff. eauto.
Qed.

Lemma assoc_lookup_elem {A} (n : string) (l : list (string * A)) x :
  assoc_lookup n l = Some x -> (n, x) ∈ l.
Proof.
  induction l as [|[k y] l IH]; simpl; [discriminate|].
  destruct (decide (k = n)) as [->|_]; [intros [= ->]; left | right; auto].
Qed.

Lemma assoc_lookup_key {A} (n : string) (l : list (string * A)) x :
  assoc_lookup n l = Some x -> n ∈ map fst l.
Proof.
  induction l as [|[k y] l IH]; simpl; [discriminate|].
  destruct (decide (k = n)) as [->|_]; [intros _; left | right; auto].
Qed.

Lemma assoc_lookup_declared {A} (n : string) (l : list (string * A)) :
  n ∈ map fst l -> exists x, assoc_lookup n l = Some x.
Proof.
  destruct (assoc_lookup n l) as [x|] eqn:Hl; [by exists x|].
  intros Hin. induction l as [|[k y] l IH]; simpl in *; [by apply elem_of_nil in Hin|].
  destruct (decide (k = n)) as [->|Hne]; [discriminate|].
  apply elem_of_cons in Hin as [->|Hin]; [done | auto].
Qed.

Lemma represents_null_inv (S : addr -> Prop) (h : heap) j :
  represents S h j VNone -> j = JNull.
Proof. by inversion 1. Qed.

Lemma represents_items_keys (S : addr -> Prop) (h : heap) items d :
  represents_items S h items d ->
  dict_keys d = map (fun kj => Some (fst kj)) items.
Proof.
  induction 1 as [|kj [k v] items d [Hk _] _ IH]; [reflexivity|].
  unfold dict_keys in *. simpl in *. by rewrite Hk, IH.
Qed.

(** Reading a key of the input mapping finds the value that represents
    the item of that name. *)
Lemma represents_items_lookup (S : addr -> Prop) (h : heap) items d n :
  represents_items S h items d ->
  match assoc_lookup n items with
  | Some j => exists v, dict_lookup (Some n) d = Some v /\ represents S h j v
  | None => dict_lookup (Some n) d = None
  end.
Proof.
  induction 1 as [|[k j] [k' v] items d [Hk Hj] _ IH]; [reflexivity|].
  simpl in *. subst k'.
  destruct (decide (k = n)) as [->|Hne].
  - rewrite decide_True by done. by exists v.
  - rewrite decide_False by congruence. exact IH.
Qed.

End Lookups.

Section Acyclic.

Lemma json_size_item j items :
  j ∈ items -> json_size j <= list_sum (map json_size items).
Proof.
  induction items as [|j0 items IH]; [by intros ?%elem_of_nil|].
  intros [->|Hin]%elem_of_cons; simpl; [lia|]. specialize (IH Hin). lia.
Qed.

Lemma json_size_entry (kj : string * json) items :
  kj ∈ items -> json_size (snd kj) <= list_sum (map (fun kj => json_size (snd kj)) items).
Proof.
  induction items as [|kj0 items IH]; [by intros ?%elem_of_nil|].
  intros [->|Hin]%elem_of_cons; simpl; [lia|]. specialize (IH Hin). lia.
Qed.

(** A raw value is a finite tree: what lies inside the mapping at [m]
    does not go through [m] itself. *)
Lemma represents_apart (S : addr -> Prop) (h : heap) m items j v :
  represents S h (JDict items) (VRef m) ->
  json_size j < json_size (JDict items) ->
  represents S h j v -> represents (fun a => S a \/ a = m) h j v.
Proof.
  intros Hm. revert v.
  induction j as [| | | | |items0 IH|items0 IH] using json_ind';
    intros v Hsize Hrep;
    inversion Hrep as [| | | | |a items' vs HS Ha Hall|a items' d HS Ha Hall];
    subst; try constructor.
  - econstructor; [|exact Ha|].
    + intros [?| ->]; [done|]. inversion Hm; congruence.
    + cbn [json_size] in Hsize. clear Hrep Ha.
      induction Hall as [|j v items0 vs Hj _ IHall]; constructor.
      * apply Forall_cons in IH as [IHj _]. apply IHj; [|exact Hj].
        simpl in Hsize. simpl. lia.
      * apply IHall; [by apply Forall_cons in IH as [_ ?]|].
        simpl in Hsize. simpl. lia.
  - econstructor; [|exact Ha|].
    + intros [?| ->]; [done|].
      pose proof (represents_inj _ _ _ _ _ Hrep Hm) as Heq.
      rewrite Heq in Hsize. lia.
    + cbn [json_size] in Hsize. clear Hrep Ha.
      induction Hall as [|[k j] [k' v] items0 d [Hk Hj] _ IHall]; constructor.
      * split; [exact Hk|]. apply Forall_cons in IH as [IHj _]. apply IHj; [|exact Hj].
        simpl in Hsize. simpl. lia.
      * apply IHall; [by apply Forall_cons in IH as [_ ?]|].
        simpl in Hsize. simpl. lia.
Qed.

Lemma represents_entries_apart (S : addr -> Prop) (h : heap) m items d :
  h !! m = Some (ODict d) ->
  represents S h (JDict items) (VRef m) ->
  represents_items (fun a => S a \/ a = m) h items d.
Proof.
  intros Hd Hm.
  inversion Hm as [| | | | | |a items' d' HS Ha Hall]; subst.
  assert (d' = d) as -> by congruence.
  unfold represents_items.
  assert (Forall (fun kj : string * json =>
                    json_size (snd kj) < json_size (JDict items)) items) as Hsz.
  { apply Forall_forall. intros kj Hin. pose proof (json_size_entry kj items Hin).
    cbn [json_size]. lia. }
  assert (forall items0 d0,
            represents_items S h items0 d0 ->
            Forall (fun kj : string * json =>
                      json_size (snd kj) < json_size (JDict items)) items0 ->
            represents_items (fun a => S a \/ a = m) h items0 d0) as Hgen.
  { intros items0 d0 H0.
    induction H0 as [|kj kv items0 d0 [Hk Hj] _ IHall]; intros Hsz0; constructor.
    - split; [exact Hk|]. apply Forall_cons in Hsz0 as [Hs _].
      by eapply represents_apart.
    - apply IHall. by apply Forall_cons in Hsz0 as [_ ?]. }
  by apply Hgen.
Qed.

End Acyclic.

Section CanonicalText.

Lemma digit_not (z : Z) (c : ascii) : is_digit c = false -> digit z <> c.
Proof. intros Hc Heq. rewrite <- Heq, is_digit_digit in Hc. discriminate. Qed.

Lemma split_first_cons_ne (sep c : ascii) (s : string) :
  c <> sep -> split_first sep (String c s) = String c (split_first sep s).
Proof. intros Hne. simpl. destruct (decide (c = sep)); [done | reflexivity]. Qed.

Lemma rstrip_cons_ne (c a : ascii) (s : string) :
  a <> c -> rstrip c (String a s) = String a (rstrip c s).
Proof.
  intros Hne. simpl. destruct (rstrip c s); [|reflexivity].
  destruct (decide (a = c)); [done | reflexivity].
Qed.

(** The text of a date-time without microseconds has no fraction to
    strip and does not end in Z. *)
Lemma datetime_text_stem (dt : datetime_t) :
  microsecond (dt_time dt) = 0%Z ->
  rstrip "Z" (split_first "." (datetime_isoformat dt)) = datetime_isoformat dt.
Proof.
  destruct dt as [[y mo d] [hh mi ss us]]. cbn [dt_time microsecond]. intros ->.
  unfold datetime_isoformat, date_isoformat, time_isoformat, pad4, pad2.
  cbv -[digit Z.div split_first rstrip].
  repeat (rewrite split_first_cons_ne by first [by apply digit_not | discriminate]).
  cbn [split_first].
  repeat (rewrite rstrip_cons_ne by first [by apply digit_not | discriminate]).
  reflexivity.
Qed.

End CanonicalText.

(** ** Round trip *)

Section Schemas.

(** The conditions on the fields of a nested schema, one per field. *)
Lemma field_plain_fields S h cname fields attrs n d :
  field_plain S h (MkField (KDict (Some (ClassObject cname fields attrs))) n d) <->
  NoDup (map fst fields)
  /\ Forall (fun nf => f_name (snd nf) = Some (fst nf)
               /\ assoc_lookup (fst nf) attrs = Some (FieldAttribute (snd nf))
               /\ default_plain S h (snd nf) /\ field_plain S h (snd nf)) fields.
Proof.
  cbn [field_plain]. apply and_iff_compat_l.
  induction fields as [|[k f] fields IH]; [by split; [constructor|]|].
  rewrite Forall_cons. cbn [fst snd]. rewrite <- IH. tauto.
Qed.

Lemma raw_item_fields cname fields attrs n d j :
  raw_item (MkField (KDict (Some (ClassObject cname fields attrs))) n d) j <->
  exists items,
    j = JDict items /\ assoc_lookup "cls" items = None
    /\ raw_mapping (ClassObject cname fields attrs) items.
Proof.
  cbn [raw_item]. unfold raw_mapping. cbn [c_fields].
  apply exist_proper. intros items.
  do 4 apply and_iff_compat_l.
  induction fields as [|[k f] fields IH]; [by split; [constructor|]|].
  rewrite Forall_cons. cbn [fst snd]. rewrite <- IH. tauto.
Qed.

Lemma complete_fields cname fields attrs n d items :
  complete (MkField (KDict (Some (ClassObject cname fields attrs))) n d) (JDict items) =
  JDict (completed (ClassObject cname fields attrs) items).
Proof.
  cbn [complete]. unfold completed. cbn [c_fields]. f_equal.
  induction fields as [|[k f] fields IH]; [reflexivity|].
  cbn [map fst snd]. by rewrite IH.
Qed.

Lemma fuel_needed_fields cname fields attrs n d :
  fuel_needed (MkField (KDict (Some (ClassObject cname fields attrs))) n d) =
  S (S (class_fuel (ClassObject cname fields attrs))).
Proof.
  cbn [fuel_needed]. unfold class_fuel. cbn [c_fields]. do 2 f_equal.
  induction fields as [|[k f] fields IH]; [reflexivity|].
  cbn [foldr snd]. by rewrite IH.
Qed.

Lemma class_fuel_field cls nf :
  nf ∈ c_fields cls -> fuel_needed (snd nf) <= class_fuel cls.
Proof.
  unfold class_fuel. induction (c_fields cls) as [|x l IH]; intros Hin;
    [by apply elem_of_nil in Hin|].
  apply elem_of_cons in Hin as [->|Hin]; cbn [foldr];
    [lia | specialize (IH Hin); lia].
Qed.

Lemma complete_null f : complete f JNull = JNull.
Proof. destruct f as [[| | | | | | | | | |[[]|]|] ? ?]; reflexivity. Qed.

Lemma complete_leaf f j :
  match f_kind f with KList _ | KDict (Some _) => False | _ => True end ->
  complete f j = j.
Proof. destruct f as [[| | | | | | | | | |[[]|]|] ? ?]; intros []; by destruct j. Qed.

Lemma completed_keys cls items : map fst (completed cls items) = map fst (c_fields cls).
Proof. unfold completed. rewrite map_map. reflexivity. Qed.

Lemma completed_lookup cls items n f :
  assoc_lookup n (c_fields cls) = Some f ->
  assoc_lookup n (completed cls items) =
    Some (match assoc_lookup n items with
          | Some j => complete f j
          | None => complete f (default_json f)
          end).
Proof.
  unfold completed. induction (c_fields cls) as [|[k f'] l IH]; [discriminate|].
  cbn [assoc_lookup map fst snd].
  destruct (decide (k = n)) as [->|Hne]; [by intros [= ->] | exact IH].
Qed.

(** Schemas are about the empty containers a default copies: they stay
    what they are while these containers do. *)
Lemma default_plain_outside (S S' : addr -> Prop) (h h' : heap) f :
  (forall a o, h !! a = Some o -> o = ODict [] \/ o = OList [] -> ~ S a ->
               h' !! a = Some o /\ ~ S' a) ->
  default_plain S h f -> default_plain S' h' f.
Proof.
  intros Hh. unfold default_plain.
  destruct (f_default f) as [| | | | | | | | | | | | |fn|]; try done.
  destruct fn as [dv|dv|id]; try done; destruct dv; try done;
    intros (Hk & HS & Hc);
    (destruct (Hh _ _ Hc) as [Hc' HS']; [by (left + right) | exact HS |]);
    done.
Qed.

Lemma field_plain_outside (S S' : addr -> Prop) (h h' : heap) f :
  (forall a o, h !! a = Some o -> o = ODict [] \/ o = OList [] -> ~ S a ->
               h' !! a = Some o /\ ~ S' a) ->
  field_plain S h f -> field_plain S' h' f.
Proof.
  intros Hh. induction f as [kind n dflt IH] using field_ind'.
  destruct kind as [| | | | | | | | | |[[cname fields attrs]|]|elt]; try done.
  rewrite !field_plain_fields. intros [Hnd Hall]. split; [exact Hnd|].
    cbn [c_fields] in IH. rewrite Forall_forall in IH, Hall. apply Forall_forall.
    intros nf Hin. destruct (Hall nf Hin) as (Hn & Ha & Hd & Hf).
    split; [exact Hn|]. split; [exact Ha|].
    split; [by eapply default_plain_outside | by apply (IH nf Hin)].
Qed.

Lemma field_plain_frame (S : addr -> Prop) (h h' : heap) f :
  heap_frame (length h) S h h' -> field_plain S h f -> field_plain S h' f.
Proof.
  intros Hfr. apply field_plain_outside. intros a o Ha _ HS. split; [|exact HS].
  eapply heap_frame_lookup; [exact Hfr | by eapply lookup_lt_Some | exact HS | exact Ha].
Qed.

Lemma default_plain_frame (S : addr -> Prop) (h h' : heap) f :
  heap_frame (length h) S h h' -> default_plain S h f -> default_plain S h' f.
Proof.
  intros Hfr. apply default_plain_outside. intros a o Ha _ HS. split; [|exact HS].
  eapply heap_frame_lookup; [exact Hfr | by eapply lookup_lt_Some | exact HS | exact Ha].
Qed.

Lemma dict_setitem_new k v (d : dict) :
  dict_lookup k d = None -> dict_setitem k v d = d ++ [(k, v)].
Proof.
  induction d as [|[k' v'] d IH]; simpl; [reflexivity|].
  destruct (decide (k' = k)); [discriminate|]. intros Hk. by rewrite IH.
Qed.

Lemma dict_lookup_app k (d1 d2 : dict) :
  dict_lookup k (d1 ++ d2) =
    match dict_lookup k d1 with Some v => Some v | None => dict_lookup k d2 end.
Proof.
  induction d1 as [|[k' v'] d1 IH]; simpl; [reflexivity|].
  destruct (decide (k' = k)); [reflexivity | exact IH].
Qed.

End Schemas.

Section RoundTrip.
Context {B : Builtins}.
Hypothesis Hlaws : leaf_codecs_roundtrip B.

(** The raw conversion of a leaf field, and of a nested-dictionary field
    without a schema, gives back a value that is already in raw form. *)
Lemma _to_json_raw_leaf rec f j v (S : addr -> Prop) (h : heap) :
  match f_kind f with KList _ | KDict (Some _) => False | _ => True end ->
  raw_item f j -> represents S h j v ->
  _to_json rec f v h = Returns v h.
Proof.
  destruct Hlaws as (Htext & Hint & Hlong & Hfloat & Htime).
  destruct f as [kind n dflt]. unfold _to_json, _to_python. cbn [f_kind raw_item].
  destruct kind as [| | | | | | | | | |[cls|]|elt]; intros Hleaf Hraw Hrep; try done.
  - (* Field *)
    destruct Hraw as (s & ->). inversion Hrep; subst.
    unfold builtin. by rewrite Htext.
  - (* TextField *)
    destruct Hraw as (s & ->). inversion Hrep; subst.
    unfold builtin. by rewrite Htext.
  - (* FloatField *)
    destruct Hraw as (x & ->). inversion Hrep; subst.
    unfold builtin. by rewrite Hfloat.
  - (* IntegerField *)
    destruct Hraw as (z & ->). inversion Hrep; subst.
    unfold builtin. by rewrite Hint.
  - (* LongField *)
    destruct Hraw as (z & ->). inversion Hrep; subst.
    unfold builtin, py_long. by destruct PY2; rewrite ?Hlong, ?Hint.
  - (* BooleanField *)
    destruct Hraw as (b & ->). inversion Hrep; subst. reflexivity.
  - (* DecimalField *)
    destruct Hraw as (s & ->). inversion Hrep; subst.
    unfold builtin. by rewrite Htext.
  - (* DateTimeField *)
    destruct Hraw as (dt & Hvalid & Hus & ->). inversion Hrep; subst.
    rewrite (DateTimeField_to_json_same_stem
               (datetime_isoformat dt +:+ "Z") (datetime_isoformat dt) h)
      by (apply rstrip_split_first_Z; discriminate).
    destruct (Htime dt Hvalid Hus) as (st & Hst & Hdt).
    unfold DateTimeField_to_json, DateTimeField_to_python, try_except, bind, lift.
    rewrite (datetime_text_stem dt Hus), Hst.
    unfold datetime_new. rewrite Hdt, Hvalid. cbn.
    by rewrite (datetime_replace_microsecond_zero dt Hus).
Qed.

(** A typed read of a field whose slot is absent returns the default: a
    value that is the default in raw form. *)
Lemma Field__get__default fuel (S : addr -> Prop) f cls data e (h : heap) :
  (forall a, S a -> a < length h) ->
  h !! data = Some (ODict e) -> dict_lookup (f_name f) e = None ->
  default_plain S h f ->
  exists v h1,
    Field__get__ (interp fuel) f (VRecord cls data) h = Returns v h1
    /\ represents S h1 (default_json f) v
    /\ (default_json f = JNull \/ raw_item f (default_json f))
    /\ heap_frame (length h) nowhere h h1.
Proof.
  intros HS Hd He Hdef. unfold Field__get__.
  rewrite (bind_returns _ _ _ _ _ (Mapping_get_stored _ (f_name f) _ _ Hd)).
  rewrite He. cbn [default from_option id is_none negb].
  unfold default_plain in Hdef. unfold default_json.
  destruct (f_default f) as [|b|z|x|s| | | | | | | | |fn|] eqn:Hdflt; try done;
    cbn [is_none negb callable].
  - exists VNone, h. split; [reflexivity|]. split; [constructor|].
    split; [by left | apply heap_frame_refl].
  - exists (VBool b), h. split; [reflexivity|]. split; [constructor|].
    split; [right | apply heap_frame_refl].
    unfold default_json in Hdef. by rewrite Hdflt in Hdef.
  - exists (VInt z), h. split; [reflexivity|]. split; [constructor|].
    split; [right | apply heap_frame_refl].
    unfold default_json in Hdef. by rewrite Hdflt in Hdef.
  - exists (VFloat x), h. split; [reflexivity|]. split; [constructor|].
    split; [right | apply heap_frame_refl].
    unfold default_json in Hdef. by rewrite Hdflt in Hdef.
  - exists (VStr s), h. split; [reflexivity|]. split; [constructor|].
    split; [right | apply heap_frame_refl].
    unfold default_json in Hdef. by rewrite Hdflt in Hdef.
  - destruct fn as [dv|dv|id]; try done; destruct dv as [| | | | | | | | | |c| | | |];
      try done; destruct Hdef as (Hkind & HSc & Hc).
    + (* the function of a nested-dictionary field *)
      destruct Hkind as [mapping Hkind]. rewrite Hkind.
      cbn [py_call method_copy].
      rewrite (bind_returns _ _ _ _ _ (read_lookup _ _ _ Hc)).
      exists (VRef (length h)), (h ++ [ODict []]).
      split; [reflexivity|]. split; [|split; [right|by apply heap_frame_app]].
      * econstructor; [|apply lookup_alloc_new|constructor].
        intros Hin. specialize (HS _ Hin). lia.
      * destruct f as [kind n dflt]. cbn [f_kind] in Hkind. subst kind.
        destruct mapping as [[cname fields attrs]|]; [|exact I].
        apply raw_item_fields. exists []. split; [reflexivity|].
        split; [reflexivity|]. split; [constructor|]. split.
        -- intros k Hk. by apply elem_of_nil in Hk.
        -- apply Forall_forall. intros nf _ j'. discriminate.
    + (* the function of a sequence field *)
      destruct Hkind as [elt Hkind]. rewrite Hkind.
      cbn [py_call copy_copy].
      rewrite (bind_returns _ _ _ _ _ (read_lookup _ _ _ Hc)).
      exists (VRef (length h)), (h ++ [OList []]).
      split; [reflexivity|]. split; [|split; [right|by apply heap_frame_app]].
      * econstructor; [|apply lookup_alloc_new|constructor].
        intros Hin. specialize (HS _ Hin). lia.
      * destruct f as [kind n dflt]. cbn [f_kind] in Hkind. subst kind.
        cbn [raw_item]. exists []. split; [reflexivity | constructor].
Qed.

(** What the induction on the schema provides for a field: the raw
    conversion of a value in raw form returns, given enough fuel, the
    value completed with the defaults. *)
Let converts (f : Field) : Prop :=
  forall fuel (S : addr -> Prop) (h : heap) j v,
    fuel_needed f <= fuel -> (forall a, S a -> a < length h) ->
    field_plain S h f -> raw_item f j -> represents S h j v ->
    exists raw h',
      rec_to_json (interp fuel) f v h = Returns raw h'
      /\ represents S h' (complete f j) raw.

(** The typed write of a value that is null or in raw form, under a
    name the record has no entry for. *)
Lemma Field__set__stores fuel (S : addr -> Prop) f cls data n e j v (h : heap) :
  converts f -> fuel_needed f <= fuel ->
  (forall a, S a -> a < length h) ->
  f_name f = Some n -> h !! data = Some (ODict e) ->
  dict_lookup (Some n) e = None ->
  field_plain S h f -> j = JNull \/ raw_item f j -> represents S h j v ->
  exists raw h1,
    Field__set__ (interp fuel) f (VRecord cls data) v h =
      Returns tt (<[data := ODict (e ++ [(Some n, raw)])]> h1)
    /\ heap_frame (length h) nowhere h h1
    /\ represents S h1 (complete f j) raw.
Proof.
  intros Hconv Hfuel HS Hname Hd He Hplain Hraw Hrep.
  unfold Field__set__. rewrite Hname.
  destruct (is_none v) eqn:Hnone; cbn [negb].
  - destruct v; try discriminate Hnone.
    apply represents_null_inv in Hrep as ->.
    exists VNone, h.
    rewrite (bind_returns _ _ _ _ _ (eq_refl : ret VNone h = Returns VNone h)).
    rewrite (Mapping__setitem__dict _ _ _ _ _ Hd), (dict_setitem_new _ _ _ He).
    split; [reflexivity|]. split; [apply heap_frame_refl|].
    rewrite complete_null. constructor.
  - assert (raw_item f j) as Hitem.
    { destruct Hraw as [->|Hr]; [|exact Hr].
      inversion Hrep; subst; discriminate Hnone. }
    destruct (Hconv fuel S h j v Hfuel HS Hplain Hitem Hrep) as (raw & h1 & Hrun & Hraw1).
    destruct (interp_preserves fuel (length h)) as (_ & Hpres & _).
    pose proof (preserves_returns _ _ _ _ _ _ (Hpres f v) (le_n _) Hrun) as Hfr.
    assert (h1 !! data = Some (ODict e)) as Hd1.
    { eapply heap_frame_lookup;
        [exact Hfr | by eapply lookup_lt_Some | intros [] | exact Hd]. }
    exists raw, h1. rewrite (bind_returns _ _ _ _ _ Hrun).
    rewrite (Mapping__setitem__dict _ _ _ _ _ Hd1), (dict_setitem_new _ _ _ He).
    split; [reflexivity|]. split; [exact Hfr | exact Hraw1].
Qed.

Section Loop.
Variables (fuel : nat) (cls : Klass) (data m : addr).
Variable items : list (string * json).
Variable S0 : addr -> Prop.

Let self := VRecord cls data.
Let touched : addr -> Prop := fun a => a = m \/ a = data.
Let S' : addr -> Prop := fun a => S0 a \/ a = m \/ a = data.
Let value_of (nf : string * Field) : json :=
  match assoc_lookup (fst nf) items with
  | Some j' => complete (snd nf) j'
  | None => complete (snd nf) (default_json (snd nf))
  end.

(** What the loop needs of a field it has not reached yet. *)
Let pending (h : heap) (dm e : dict) (nf : string * Field) : Prop :=
  class_attribute cls (fst nf) = Some (FieldAttribute (snd nf))
  /\ f_name (snd nf) = Some (fst nf)
  /\ default_plain S' h (snd nf) /\ field_plain S' h (snd nf)
  /\ fuel_needed (snd nf) <= fuel /\ converts (snd nf)
  /\ (forall j', assoc_lookup (fst nf) items = Some j' ->
                 j' = JNull \/ raw_item (snd nf) j')
  /\ dict_lookup (Some (fst nf)) e = None
  /\ match assoc_lookup (fst nf) items with
     | Some j => exists v, dict_lookup (Some (fst nf)) dm = Some v
                           /\ represents S' h j v
     | None => dict_lookup (Some (fst nf)) dm = None
     end.

Lemma touched_frame k (h h' : heap) :
  heap_frame k touched h h' -> heap_frame k S' h h'.
Proof.
  apply heap_frame_weaken; [lia|]. intros a [?|?]; right; [by left | by right].
Qed.

Lemma nowhere_frame k (S : addr -> Prop) (h h' : heap) :
  heap_frame k nowhere h h' -> heap_frame k S h h'.
Proof. apply heap_frame_weaken; [lia | by intros a []]. Qed.

(** One iteration of the loop. *)
Lemma Mapping__init__step_completes (nf : string * Field) (h : heap) (dm e : dict) :
  m <> data -> (forall a, S0 a -> a < length h) ->
  h !! m = Some (ODict dm) -> h !! data = Some (ODict e) -> is_dict dm ->
  pending h dm e nf ->
  exists hs raw dm1,
    Mapping__init__step (interp fuel) self (VRef m) nf h = Returns tt hs
    /\ hs !! m = Some (ODict dm1)
    /\ hs !! data = Some (ODict (e ++ [(Some (fst nf), raw)]))
    /\ is_dict dm1
    /\ (forall k, k <> Some (fst nf) -> dict_lookup k dm1 = dict_lookup k dm)
    /\ represents S' hs (value_of nf) raw
    /\ heap_frame (length h) touched h hs.
Proof.
  destruct nf as [n f]. cbn [fst snd].
  intros Hne HS Hm Hd Hdm (Hattr & Hname & Hdef & Hplain & Hfuel & Hconv & Hraw & He & Hin).
  cbn [fst snd] in *.
  assert (m < length h) as Hlm by (by eapply lookup_lt_Some).
  assert (data < length h) as Hld by (by eapply lookup_lt_Some).
  assert (forall a, S' a -> a < length h) as HS'.
  { intros a [Ha|[->| ->]]; [by apply HS | done | done]. }
  unfold self. rewrite (Mapping__init__step_descriptor _ _ _ _ _ _ _ Hattr).
  rewrite (bind_returns _ _ _ _ _ (py_contains_dict _ _ (Some n) _ Hm)).
  unfold value_of. cbn [fst snd].
  destruct (assoc_lookup n items) as [j|] eqn:Hj.
  - (* the name is a key of the input *)
    destruct Hin as (v & Hv & Hrep).
    rewrite bool_decide_eq_true_2 by eauto.
    rewrite (bind_returns _ _ _ _ _ (py_pop_dict _ _ _ _ _ Hm Hv)).
    set (dm1 := dict_delitem (Some n) dm).
    set (h1 := <[m := ODict dm1]> h).
    assert (heap_frame (length h) touched h h1) as Hf1
      by (apply heap_frame_write; right; by left).
    assert (length h1 = length h) as Hl1 by (unfold h1; by rewrite length_insert).
    assert (h1 !! data = Some (ODict e)) as Hd1
      by (unfold h1; rewrite lookup_write_other by done; exact Hd).
    assert (h1 !! m = Some (ODict dm1)) as Hm1
      by (eapply lookup_write_same; exact Hm).
    destruct (Field__set__stores fuel S' f cls data n e j v h1)
      as (raw & h2 & Hset & Hf2 & Hraw2); try assumption.
    { intros a Ha. rewrite Hl1. by apply HS'. }
    { eapply field_plain_frame; [apply touched_frame, Hf1 | exact Hplain]. }
    { by apply Hraw. }
    { eapply represents_frame; [apply touched_frame, Hf1 | exact Hrep]. }
    pose proof (heap_frame_length _ _ _ _ Hf2) as Hl2.
    exists (<[data := ODict (e ++ [(Some n, raw)])]> h2), raw, dm1.
    split; [exact Hset|].
    assert (h2 !! data = Some (ODict e)) as Hd2
      by (eapply heap_frame_lookup; [exact Hf2 | lia | intros [] | exact Hd1]).
    assert (h2 !! m = Some (ODict dm1)) as Hm2
      by (eapply heap_frame_lookup; [exact Hf2 | lia | intros [] | exact Hm1]).
    assert (heap_frame (length h2) touched h2
              (<[data := ODict (e ++ [(Some n, raw)])]> h2)) as Hf3
      by (apply heap_frame_write; right; by right).
    split; [rewrite lookup_write_other by done; exact Hm2|].
    split; [eapply lookup_write_same; exact Hd2|].
    split; [by apply dict_delitem_is_dict|].
    split; [intros k Hk; by apply dict_lookup_delitem_ne|].
    split; [eapply represents_frame; [apply touched_frame, Hf3 | exact Hraw2]|].
    eapply heap_frame_trans; [exact Hf1|].
    eapply heap_frame_trans;
      [eapply heap_frame_weaken; [| |exact Hf2]; [lia | by intros a []]|].
    eapply heap_frame_weaken; [| |exact Hf3]; [lia | done].
  - (* the name is not a key of the input *)
    rewrite Hin. rewrite bool_decide_eq_false_2 by (by intros [? ?]).
    destruct (Field__get__default fuel S' f cls data e h HS' Hd
                ltac:(by rewrite Hname) Hdef)
      as (v & h1 & Hget & Hrep & Hraw0 & Hf1).
    rewrite (bind_returns _ _ _ _ _ Hget).
    pose proof (heap_frame_length _ _ _ _ Hf1) as Hl1.
    assert (h1 !! data = Some (ODict e)) as Hd1
      by (eapply heap_frame_lookup; [exact Hf1 | lia | intros [] | exact Hd]).
    assert (h1 !! m = Some (ODict dm)) as Hm1
      by (eapply heap_frame_lookup; [exact Hf1 | lia | intros [] | exact Hm]).
    destruct (Field__set__stores fuel S' f cls data n e (default_json f) v h1)
      as (raw & h2 & Hset & Hf2 & Hraw2); try assumption.
    { intros a Ha. specialize (HS' a Ha). lia. }
    { eapply field_plain_frame; [apply nowhere_frame, Hf1 | exact Hplain]. }
    pose proof (heap_frame_length _ _ _ _ Hf2) as Hl2.
    exists (<[data := ODict (e ++ [(Some n, raw)])]> h2), raw, dm.
    split; [exact Hset|].
    assert (h2 !! data = Some (ODict e)) as Hd2
      by (eapply heap_frame_lookup; [exact Hf2 | lia | intros [] | exact Hd1]).
    assert (h2 !! m = Some (ODict dm)) as Hm2
      by (eapply heap_frame_lookup; [exact Hf2 | lia | intros [] | exact Hm1]).
    assert (heap_frame (length h2) touched h2
              (<[data := ODict (e ++ [(Some n, raw)])]> h2)) as Hf3
      by (apply heap_frame_write; right; by right).
    split; [rewrite lookup_write_other by done; exact Hm2|].
    split; [eapply lookup_write_same; exact Hd2|].
    split; [exact Hdm|].
    split; [done|].
    split; [eapply represents_frame; [apply touched_frame, Hf3 | exact Hraw2]|].
    eapply heap_frame_trans; [apply nowhere_frame, Hf1|].
    eapply heap_frame_trans;
      [eapply heap_frame_weaken; [| |exact Hf2]; [lia | by intros a []]|].
    eapply heap_frame_weaken; [| |exact Hf3]; [lia | done].
Qed.

(** The loop of [__init__], from any of its iterations on. *)
Lemma Mapping__init__loop_completes (fs : list (string * Field)) :
  forall (h : heap) (dm e : dict) (done : list (string * json)),
    m <> data -> (forall a, S0 a -> a < length h) ->
    h !! m = Some (ODict dm) -> h !! data = Some (ODict e) -> is_dict dm ->
    NoDup (map fst fs) ->
    Forall (pending h dm e) fs ->
    represents_items S' h done e ->
    exists h' e',
      for_each fs (Mapping__init__step (interp fuel) self (VRef m)) h = Returns tt h'
      /\ h' !! data = Some (ODict e')
      /\ represents_items S' h'
           (done ++ map (fun nf => (fst nf, value_of nf)) fs) e'
      /\ heap_frame (length h) touched h h'.
Proof.
  induction fs as [|nf fs IH]; intros h dm e done Hne HS Hm Hd Hdm Hnd Hpend Hdone.
  - exists h, e. split; [reflexivity|]. split; [exact Hd|].
    split; [by rewrite app_nil_r | apply heap_frame_refl].
  - cbn [map] in Hnd. apply NoDup_cons in Hnd as [Hn Hnd].
    apply Forall_cons in Hpend as [Hp Hpend].
    destruct (Mapping__init__step_completes nf h dm e Hne HS Hm Hd Hdm Hp)
      as (hs & raw & dm1 & Hstep & Hms & Hds & Hdm1 & Hlk & Hraw & Hfr).
    pose proof (heap_frame_length _ _ _ _ Hfr) as Hl.
    destruct (IH hs dm1 (e ++ [(Some (fst nf), raw)])
                (done ++ [(fst nf, value_of nf)]))
      as (h' & e' & Hrun & Hd' & Hrep' & Hfr'); try assumption.
    + intros a Ha. specialize (HS a Ha). lia.
    + rewrite Forall_forall in Hpend. apply Forall_forall. intros nf' Hin'.
      destruct (Hpend nf' Hin')
        as (Hattr & Hname & Hdef & Hplain & Hfuel & Hconv & Hrw & He & Hval).
      assert (fst nf' <> fst nf) as Hdiff.
      { intros Heq. apply Hn. rewrite <- Heq. apply list_elem_of_fmap. by exists nf'. }
      split; [exact Hattr|]. split; [exact Hname|].
      split; [eapply default_plain_frame; [apply touched_frame, Hfr | exact Hdef]|].
      split; [eapply field_plain_frame; [apply touched_frame, Hfr | exact Hplain]|].
      split; [exact Hfuel|]. split; [exact Hconv|]. split; [exact Hrw|].
      split.
      * rewrite dict_lookup_app, He. cbn [dict_lookup].
        rewrite decide_False by congruence. reflexivity.
      * destruct (assoc_lookup (fst nf') items) as [j|].
        -- destruct Hval as (v & Hv & Hrep). exists v.
           split; [rewrite Hlk by congruence; exact Hv|].
           eapply represents_frame; [apply touched_frame, Hfr | exact Hrep].
        -- rewrite Hlk by congruence. exact Hval.
    + apply Forall2_app.
      * eapply represents_items_frame; [apply touched_frame, Hfr | exact Hdone].
      * constructor; [|constructor]. split; [reflexivity | exact Hraw].
    + exists h', e'. split; [|split; [exact Hd'|split]].
      * cbn [for_each]. rewrite (bind_returns _ _ _ _ _ Hstep). exact Hrun.
      * rewrite <- app_assoc in Hrep'. exact Hrep'.
      * eapply heap_frame_trans; [exact Hfr|].
        eapply heap_frame_weaken; [| |exact Hfr']; [lia | done].
Qed.

End Loop.

(** The construction of a record from a raw mapping, by a class for the
    fields of which the raw conversion is known to return. *)
Lemma Mapping__init__completes (S : addr -> Prop) fuel cls m items d (h : heap) :
  (forall a, S a -> a < length h) ->
  class_fuel cls <= fuel ->
  Forall (fun nf => converts (snd nf)) (c_fields cls) ->
  class_plain (fun a => S a \/ (a = m /\ d <> [])) h cls ->
  raw_mapping cls items ->
  h !! m = Some (ODict d) ->
  represents_items (fun a => S a \/ a = m) h items d ->
  exists data h',
    Mapping__init__ (interp fuel) cls (VRef m) h = Returns (VRecord cls data) h'
    /\ length h <= data
    /\ represents S h' (JDict (completed cls items)) (VRef data)
    /\ heap_frame (length h) (fun a => a = m) h h'.
Proof.
  intros HS Hfuel Hconv Hplain (Hndi & Hdecl & Hraws) Hm Hitems.
  assert (m < length h) as Hlm by (by eapply lookup_lt_Some).
  pose proof (represents_items_keys _ _ _ _ Hitems) as Hkeys.
  assert (is_dict d) as Hd.
  { unfold is_dict. change (map fst d) with (dict_keys d). rewrite Hkeys.
    by apply NoDup_map_Some. }
  assert (forall (m' data : addr) (h0 : heap),
            h0 !! m' = Some (ODict d) -> h0 !! data = Some (ODict []) ->
            m' <> data -> length h <= data ->
            (m' = m /\ d <> []) \/ length h <= m' ->
            heap_frame (length h) nowhere h h0 ->
            exists h',
              for_each (c_fields cls)
                (Mapping__init__step (interp fuel) (VRecord cls data) (VRef m')) h0
              = Returns tt h'
              /\ represents S h' (JDict (completed cls items)) (VRef data)
              /\ heap_frame (length h) (fun a => a = m) h h') as Hloop.
  { intros m' data h0 Hm0 Hd0 Hmd Hdata Hm' Hfr0.
    pose proof (heap_frame_length _ _ _ _ Hfr0) as Hl0.
    assert (m' < length h0) as Hlm' by (by eapply lookup_lt_Some).
    assert (data < length h0) as Hld by (by eapply lookup_lt_Some).
    set (S' := fun a => S a \/ a = m' \/ a = data).
    assert (forall a o, h !! a = Some o -> ~ (S a \/ (a = m /\ d <> [])) ->
                        (o = ODict [] \/ o = OList []) ->
                        h0 !! a = Some o /\ ~ S' a) as Hout.
    { intros a o Ha HnS Hempty.
      assert (a < length h) as Hla by (by eapply lookup_lt_Some).
      split.
      - eapply heap_frame_lookup; [exact Hfr0 | exact Hla | intros [] | exact Ha].
      - intros [HSa|[->| ->]]; [apply HnS; by left | | lia].
        destruct Hm' as [[-> Hne]|Hge]; [|lia].
        apply HnS. right. done. }
    assert (represents_items S' h0 items d) as Hitems0.
    { eapply Forall2_impl; [exact Hitems|]. intros kj kv [Hk Hr].
      split; [exact Hk|]. eapply represents_outside; [|exact Hr].
      intros a o Ha HnS.
      assert (a < length h) as Hla by (by eapply lookup_lt_Some).
      split.
      - eapply heap_frame_lookup; [exact Hfr0 | exact Hla | intros [] | exact Ha].
      - intros [HSa|[->| ->]]; [apply HnS; by left | | lia].
        destruct Hm' as [[-> Hne]|Hge]; [|lia].
        apply HnS. by right. }
    destruct cls as [cname fields attrs]. unfold class_plain in Hplain.
    apply field_plain_fields in Hplain as [Hnd Hfields]. cbn [c_fields] in *.
    destruct (Mapping__init__loop_completes fuel (ClassObject cname fields attrs)
                data m' items S fields h0 d [] [])
      as (h' & e' & Hrun & Hd' & Hrep' & Hfr'); try assumption.
    - intros a Ha. specialize (HS a Ha). lia.
    - rewrite Forall_forall in Hfields, Hconv, Hraws. apply Forall_forall.
      intros nf Hin. destruct (Hfields nf Hin) as (Hname & Hattr & Hdef & Hpl).
      split; [exact Hattr|]. split; [exact Hname|].
      split; [eapply default_plain_outside; [|exact Hdef]; intros a o Ha He Hn;
              by apply Hout|].
      split; [eapply field_plain_outside; [|exact Hpl]; intros a o Ha He Hn;
              by apply Hout|].
      split.
      { pose proof (class_fuel_field (ClassObject cname fields attrs) nf Hin). lia. }
      split; [by apply Hconv|]. split; [by apply Hraws|]. split; [reflexivity|].
      apply (represents_items_lookup _ _ _ _ (fst nf) Hitems0).
    - constructor.
    - exists h'. split; [exact Hrun|]. split.
      + econstructor; [|exact Hd'|].
        * intros Hin. specialize (HS _ Hin). lia.
        * cbn [app] in Hrep'. unfold completed. cbn [c_fields].
          eapply Forall2_impl; [exact Hrep'|]. intros kj kv [Hk Hr].
          split; [exact Hk|]. eapply represents_weaken; [|exact Hr].
          intros a Ha. by left.
      + destruct Hfr0 as [_ Hf0]. destruct Hfr' as [Hl' Hf'].
        split; [lia|]. intros a Ha Hna.
        rewrite Hf', Hf0; [reflexivity | exact Ha | intros [] | lia |].
        intros [->| ->]; [|lia].
        destruct Hm' as [[-> _]|Hge]; [done | lia]. }
  unfold Mapping__init__.
  rewrite (bind_returns _ _ _ _ _ (py_bool_dict _ _ _ Hm)).
  destruct (decide (d = [])) as [Hempty|Hne].
  - (* an empty mapping is falsy: the loop reads a new, empty dict *)
    rewrite bool_decide_eq_true_2 by done. cbn [negb].
    erewrite bind_returns by reflexivity.
    erewrite bind_returns by reflexivity.
    set (m' := length h) in *.
    set (h_a := h ++ [ODict []]) in *.
    set (data := length h_a) in *.
    set (h0 := h_a ++ [ODict []]) in *.
    assert (length h_a = length h + 1) as Hla
      by (unfold h_a; rewrite length_app; simpl; lia).
    destruct (Hloop m' data h0) as (h' & Hrun & Hrep & Hfr).
    + rewrite Hempty. apply lookup_alloc_old, lookup_alloc_new.
    + apply lookup_alloc_new.
    + unfold data, m'. lia.
    + unfold data. lia.
    + right. unfold m'. lia.
    + unfold h0, h_a. rewrite <- app_assoc. by apply heap_frame_app.
    + exists data, h'. rewrite (bind_returns _ _ _ _ _ Hrun).
      split; [reflexivity|]. split; [unfold data; lia|]. by split.
  - (* the loop reads the mapping itself *)
    rewrite bool_decide_eq_false_2 by done. cbn [negb].
    erewrite bind_returns by reflexivity.
    erewrite bind_returns by reflexivity.
    set (data := length h) in *.
    set (h0 := h ++ [ODict []]) in *.
    destruct (Hloop m data h0) as (h' & Hrun & Hrep & Hfr).
    + by apply lookup_alloc_old.
    + apply lookup_alloc_new.
    + unfold data. lia.
    + unfold data. lia.
    + left. done.
    + by apply heap_frame_app.
    + exists data, h'. rewrite (bind_returns _ _ _ _ _ Hrun).
      split; [reflexivity|]. split; [unfold data; lia|]. by split.
Qed.

(** The raw conversion of the items of a raw sequence, in order. *)
Lemma mapM_to_json_completes fuel (S : addr -> Prop) elt :
  converts elt -> fuel_needed elt <= fuel ->
  forall items vs (h : heap),
    (forall a, S a -> a < length h) -> field_plain S h elt ->
    Forall (raw_item elt) items -> Forall2 (represents S h) items vs ->
    exists raws h',
      mapM (rec_to_json (interp fuel) elt) vs h = Returns raws h'
      /\ Forall2 (represents S h') (map (complete elt) items) raws
      /\ heap_frame (length h) nowhere h h'.
Proof.
  intros Hconv Hfuel items.
  induction items as [|j items IH]; intros vs h HS Hplain Hraw Hrep;
    inversion Hrep as [|? v ? vs' Hv Hvs]; subst.
  - exists [], h. split; [reflexivity|]. split; [constructor | apply heap_frame_refl].
  - apply Forall_cons in Hraw as [Hj Hraw].
    destruct (Hconv fuel S h j v Hfuel HS Hplain Hj Hv) as (raw & h1 & Hrun & Hraw1).
    destruct (interp_preserves fuel (length h)) as (_ & Hpres & _).
    pose proof (preserves_returns _ _ _ _ _ _ (Hpres elt v) (le_n _) Hrun) as Hfr.
    pose proof (heap_frame_length _ _ _ _ Hfr) as Hl.
    destruct (IH vs' h1) as (raws & h2 & Hrest & Hall & Hfr2).
    + intros a Ha. specialize (HS a Ha). lia.
    + eapply field_plain_frame; [apply nowhere_frame, Hfr | exact Hplain].
    + exact Hraw.
    + eapply Forall2_impl; [exact Hvs|]. intros j0 v0.
      apply represents_frame. apply nowhere_frame, Hfr.
    + exists (raw :: raws), h2. cbn [mapM map].
      rewrite (bind_returns _ _ _ _ _ Hrun), (bind_returns _ _ _ _ _ Hrest).
      split; [reflexivity|]. split.
      * constructor; [|exact Hall].
        eapply represents_frame; [apply nowhere_frame, Hfr2 | exact Hraw1].
      * eapply heap_frame_trans; [exact Hfr|].
        eapply heap_frame_weaken; [| |exact Hfr2]; [lia | done].
Qed.

(** The raw conversion of a value in raw form, for every field: a leaf
    is given back as it is, a sequence is rebuilt item by item, and a
    mapping for a nested schema becomes the backing store of a new
    record built from a copy of it. *)
Lemma _to_json_completes f : converts f.
Proof.
  induction f as [kind n dflt IH] using field_ind'.
  intros fuel S h j v Hfuel HS Hplain Hraw Hrep.
  destruct kind as [| | | | | | | | | |[[cname fields attrs]|]|elt];
    try (destruct fuel as [|k]; [cbn in Hfuel; lia|];
         cbn [interp rec_to_json]; exists v, h;
         split; [eapply _to_json_raw_leaf; [|exact Hraw|exact Hrep]; exact I
                | rewrite complete_leaf by exact I; exact Hrep]).
  - (* a nested schema *)
    rewrite fuel_needed_fields in Hfuel.
    destruct fuel as [|[|k]]; [lia | lia |].
    apply raw_item_fields in Hraw as (items & -> & Hcls & Hmap).
    inversion Hrep as [| | | | | |a items' d HSa Ha Hall]; subst.
    pose proof (represents_items_keys _ _ _ _ Hall) as Hkeys.
    assert (Forall (fun k : key => is_Some k) (dict_keys d)) as Hk.
    { rewrite Hkeys. apply Forall_forall. intros k0 Hin.
      apply list_elem_of_In, in_map_iff in Hin as (kj & <- & _). by eexists. }
    assert (dict_lookup (Some "cls") d = None) as Hnocls.
    { pose proof (represents_items_lookup _ _ _ _ "cls" Hall) as Hlk.
      by rewrite Hcls in Hlk. }
    assert (a < length h) as Hla by (by eapply lookup_lt_Some).
    set (cls := ClassObject cname fields attrs) in *.
    destruct (Mapping__init__completes S k cls (length h) items d (h ++ [ODict d]))
      as (data & h' & Hrun & Hdata & Hrep' & Hfr).
    + intros a0 Ha0. specialize (HS a0 Ha0). rewrite length_app. lia.
    + lia.
    + exact IH.
    + assert (field_plain (fun a0 => S a0 \/ (a0 = length h /\ d <> []))
                (h ++ [ODict d]) (MkField (KDict (Some cls)) n dflt)) as Hp.
      { eapply field_plain_outside; [|exact Hplain].
        intros a0 o Ha0 _ HnS. split; [by apply lookup_alloc_old|].
        intros [?|[-> _]]; [done|]. apply lookup_lt_Some in Ha0. lia. }
      exact Hp.
    + exact Hmap.
    + apply lookup_alloc_new.
    + eapply Forall2_impl; [exact Hall|]. intros kj kv [Hkk Hr].
      split; [exact Hkk|]. eapply represents_outside; [|exact Hr].
      intros a0 o Ha0 HnS. split; [by apply lookup_alloc_old|].
      intros [?| ->]; [done|]. apply lookup_lt_Some in Ha0. lia.
    + cbn [interp rec_to_json]. unfold _to_json. cbn [f_kind].
      unfold DictField_to_json.
      assert ((kwargs <- unpack_kwargs (VRef a) ;;
               Mapping_from_kwargs (interp (Datatypes.S k)) cls kwargs) h
              = Returns (VRecord cls data) h') as Hconv.
      { rewrite (bind_returns _ _ _ _ _ (unpack_kwargs_dict _ _ _ Ha Hk)).
        rewrite (Mapping_from_kwargs_call _ _ _ _ Hnocls). exact Hrun. }
      rewrite (bind_returns _ _ _ _ _ Hconv).
      exists (VRef data), h'. split; [reflexivity|].
      unfold cls. rewrite complete_fields. exact Hrep'.
  - (* a sequence *)
    cbn [fuel_needed] in Hfuel. destruct fuel as [|k]; [lia|].
    cbn [raw_item] in Hraw. destruct Hraw as (items & -> & Hraws).
    cbn [field_plain] in Hplain.
    inversion Hrep as [| | | | |a items' vs HSa Ha Hall|]; subst.
    cbn [interp rec_to_json]. unfold _to_json. cbn [f_kind].
    rewrite (ListField_to_json_list _ _ _ _ _ Ha).
    destruct (mapM_to_json_completes k S elt IH ltac:(lia) items vs h
                HS Hplain Hraws Hall) as (raws & h1 & Hmap & Hall' & Hfr).
    pose proof (heap_frame_length _ _ _ _ Hfr) as Hl.
    rewrite (bind_returns _ _ _ _ _ Hmap).
    exists (VRef (length h1)), (h1 ++ [OList raws]). split; [reflexivity|].
    cbn [complete]. econstructor; [|apply lookup_alloc_new|].
    + intros Hin. specialize (HS _ Hin). lia.
    + eapply Forall2_impl; [exact Hall'|]. intros j0 v0.
      apply represents_frame. by apply heap_frame_app.
Qed.

End RoundTrip.


(** ** The example instance reproduces raw values *)

Section ExampleCodecs.

Lemma digit_val_digit (z : Z) : Example.digit_val (digit z) = (z mod 10)%Z.
Proof.
  unfold digit, Example.digit_val.
  assert (0 <= z mod 10 < 10)%Z as Hr by (apply Z.mod_pos_bound; lia).
  assert (exists n : nat, (z mod 10)%Z = Z.of_nat n /\ n < 10) as (n & -> & Hn).
  { exists (Z.to_nat (z mod 10)). lia. }
  rewrite Nat2Z.id.
  do 10 (destruct n as [|n]; [reflexivity|]). lia.
Qed.

Lemma datetime_valid_bounds (dt : datetime_t) :
  datetime_valid dt = true ->
  (1 <= year (dt_date dt) <= 9999 /\ 1 <= month (dt_date dt) <= 12
   /\ 1 <= day (dt_date dt) <= 31
   /\ 0 <= hour (dt_time dt) <= 23 /\ 0 <= minute (dt_time dt) <= 59
   /\ 0 <= second (dt_time dt) <= 59)%Z.
Proof.
  destruct dt as [[y mo d] [hh mi ss us]].
  unfold datetime_valid, date_valid, time_valid, in_range. cbn.
  rewrite !andb_true_iff, !Z.leb_le.
  assert (days_in_month y mo <= 31)%Z.
  { unfold days_in_month. repeat destruct (_ : bool); lia. }
  lia.
Qed.

Lemma Example_parses_isoformat (dt : datetime_t) :
  datetime_valid dt = true -> microsecond (dt_time dt) = 0%Z ->
  exists st,
    Example.parse_time (datetime_isoformat dt) "%Y-%m-%dT%H:%M:%S" = Val st
    /\ mk_datetime (mk_date (tm_year st) (tm_mon st) (tm_mday st))
         (mk_time (tm_hour st) (tm_min st) (tm_sec st) 0) = dt.
Proof.
  intros Hvalid Hus. apply datetime_valid_bounds in Hvalid.
  destruct dt as [[y mo d] [hh mi ss us]]. cbn in Hvalid, Hus. subst us.
  unfold datetime_isoformat, date_isoformat, time_isoformat, pad4, pad2,
    Example.parse_time.
  cbv -[digit is_digit Example.digit_val Z.div Z.add Z.mul].
  rewrite !is_digit_digit, !digit_val_digit.
  eexists. split; [reflexivity|]. cbn.
  f_equal; f_equal; Z.div_mod_to_equations; lia.
Qed.

Lemma Example_leaf_codecs_roundtrip : leaf_codecs_roundtrip Example.builtins.
Proof.
  repeat split; try reflexivity. exact Example_parses_isoformat.
Qed.

End ExampleCodecs.


(** What the record of the example holds: the mapping it was built from,
    with the author's name, the age and the status added. *)
Lemma record_round_trip_example :
  let B := Example.builtins in
  let author :=
    MkClass "Author" [("email", MkField KText (Some "email") VNone);
                      ("name", MkField KText (Some "name") VNone)] in
  let cls :=
    MkClass "Post"
      [("title", MkField KText (Some "title") VNone);
       ("tags", MkField (KList (MkField KText None VNone)) (Some "tags")
                  (VFunction (LambdaCopyCopy (VRef 0))));
       ("author", MkField (KDict (Some author)) (Some "author")
                    (VFunction (LambdaDictCopy (VRef 1))));
       ("added", MkField KDateTime (Some "added") VNone);
       ("age", MkField KInteger (Some "age") VNone);
       ("status", MkField KText (Some "status") (VStr "draft"))] in
  let items :=
    [("title", JStr "Foo"); ("tags", JList [JStr "a"; JStr "b"]);
     ("author", JDict [("email", JStr "j@d.com")]);
     ("added", JStr "2007-04-01T15:30:00Z")] in
  completed cls items =
    [("title", JStr "Foo"); ("tags", JList [JStr "a"; JStr "b"]);
     ("author", JDict [("email", JStr "j@d.com"); ("name", JNull)]);
     ("added", JStr "2007-04-01T15:30:00Z"); ("age", JNull);
     ("status", JStr "draft")].
Proof. reflexivity. Qed.


(** * Further properties of the module *)

(** ** The descriptor: writes and reads *)

Section DescriptorAccess.
Context {B : Builtins}.

Lemma heap_frame_same k (S : addr -> Prop) (h h' : heap) a :
  heap_frame k S h h' -> a < k -> ~ S a -> h' !! a = h !! a.
Proof. intros [_ Hf] Ha HS. by apply Hf. Qed.



(** X3. The typed and the raw conversion of any field, and a typed read,
    never change an object that exists: whether they return or raise, the
    heap has only grown, by the objects they allocated. *)
Theorem conversions_never_mutate (fuel : nat) (f : Field) (v instance : value)
    (h : heap) :
  let untouched (o : outcome value) :=
    match o with
    | Returns _ h' | Raises _ h' =>
        length h <= length h' /\ forall a, a < length h -> h' !! a = h !! a
    | _ => True
    end in
  untouched (rec_to_python (interp fuel) f v h)
  /\ untouched (rec_to_json (interp fuel) f v h)
  /\ untouched (Field__get__ (interp fuel) f instance h).
Proof.
  intros untouched.
  destruct (interp_preserves fuel (length h)) as (Hp & Hj & Hi).
  pose proof (Field__get__interp_preserves fuel (length h) f instance) as Hg.
  assert (forall m : M value, preserves (length h) nowhere m -> untouched (m h)) as Hu.
  { intros m Hm. specialize (Hm h (le_n _)). unfold untouched.
    destruct (m h) as [x h'|e h'| |]; try exact I;
      (destruct Hm as [Hlen Hsame]; split; [exact Hlen|];
       intros a Ha; apply Hsame; [exact Ha | intros []]). }
  split; [apply Hu, Hp | split; [apply Hu, Hj | apply Hu, Hg]].
Qed.

End DescriptorAccess.



(** ** Reading a nested record *)

Section NestedRead.
Context {B : Builtins}.

Lemma unpack_kwargs_heap (v : value) (h : heap) kwargs h' :
  unpack_kwargs v h = Returns kwargs h' -> h' = h.
Proof.
  unfold unpack_kwargs, bind, read, raise, ret, unmodelled.
  destruct v; try discriminate;
    (destruct (h !! _) as [[l|d]|]; try discriminate;
     destruct (forallb _ _); try discriminate; congruence).
Qed.

Lemma is_none_false (v : value) : v <> VNone -> is_none v = false.
Proof. destruct v; try reflexivity. congruence. Qed.

(** X4. Reading a nested-record field that holds a raw mapping builds a
    new record over a copy: its backing store is an object that did not
    exist before the read, the read leaves every existing object as it
    was, and so does every typed write on the record read.  A write
    through the nested record therefore never reaches the raw mapping the
    parent stores (unlike an append through a sequence view). *)
Theorem nested_record_read_detached (fuel : nat) (nested cls : Klass)
    (name : option string) (dflt raw : value) (data : addr) (d : dict)
    (h h1 : heap) (r : value) :
  h !! data = Some (ODict d) ->
  dict_lookup name d = Some raw -> raw <> VNone ->
  Field__get__ (interp fuel) (MkField (KDict (Some nested)) name dflt)
    (VRecord cls data) h = Returns r h1 ->
  exists data',
    r = VRecord nested data' /\ length h <= data' < length h1
    /\ (forall a, a < length h -> h1 !! a = h !! a)
    /\ (forall fuel' g v h2,
          Field__set__ (interp fuel') g r v h1 = Returns tt h2 ->
          forall a, a < length h -> h2 !! a = h !! a).
Proof.
  intros Hd Hraw Hnn Hget.
  pose proof (preserves_returns _ _ _ _ _ _
                (Field__get__interp_preserves fuel (length h) _ _) (le_n _) Hget) as Hfr.
  unfold Field__get__ in Hget.
  rewrite (bind_returns _ _ _ _ _ (Mapping_get_stored data name _ _ Hd)) in Hget.
  rewrite Hraw in Hget. cbn [default from_option id f_name] in Hget.
  rewrite (is_none_false raw Hnn) in Hget. cbn [negb] in Hget.
  destruct fuel as [|n]; [discriminate|].
  change (rec_to_python (interp (S n)) (MkField (KDict (Some nested)) name dflt) raw)
    with (DictField_to_python (interp n) (Some nested) raw) in Hget.
  unfold DictField_to_python in Hget.
  apply bind_inv_returns in Hget as (kwargs & h0 & Hkw & Hget).
  apply unpack_kwargs_heap in Hkw as ->.
  apply Mapping_from_kwargs_returns in Hget as [_ Hget].
  apply rec_init_returns_fresh in Hget as (data' & -> & Hlo & Hhi).
  rewrite length_app in Hlo. cbn [length] in Hlo.
  exists data'. split; [reflexivity|]. split; [lia|]. split.
  - intros a Ha. eapply heap_frame_same; [exact Hfr | exact Ha | intros []].
  - intros fuel' g v h2 Hset a Ha.
    destruct (interp_preserves fuel' (length h)) as (Hp & Hj & Hi).
    assert (heap_frame (length h) nowhere h1 h2) as Hfr2.
    { eapply preserves_returns; [|apply heap_frame_length in Hfr; exact Hfr|exact Hset].
      apply preserves_Field__set__; [exact Hj | left; lia]. }
    rewrite (heap_frame_same _ _ _ _ _ Hfr2 Ha (fun F => F)).
    eapply heap_frame_same; [exact Hfr | exact Ha | intros []].
Qed.

End NestedRead.

(** A [Post] whose [author] slot holds a raw mapping: the record read from
    it lives at a new address. *)
Lemma nested_record_read_detached_witness :
  let B := Example.builtins in
  let author := MkClass "Author" [("email", MkField KText (Some "email") VNone)] in
  let cls := MkClass "Post" [("author", MkField (KDict (Some author)) (Some "author") VNone)] in
  let h := [ODict [(Some "author", VRef 1)]; ODict [(Some "email", VStr "j@d.com")]] in
  let h1 := h ++ [ODict []; ODict [(Some "email", VStr "j@d.com")]] in
  exists data',
    VRecord author 3 = VRecord author data' /\ length h <= data' < length h1
    /\ (forall a, a < length h -> h1 !! a = h !! a)
    /\ (forall fuel' g v h2,
          Field__set__ (interp fuel') g (VRecord author 3) v h1 = Returns tt h2 ->
          forall a, a < length h -> h2 !! a = h !! a).
Proof.
  intros B author cls h h1.
  apply (nested_record_read_detached 3 author cls (Some "author") VNone (VRef 1) 0
           [(Some "author", VRef 1)] h h1 (VRecord author 3)).
  - reflexivity.
  - reflexivity.
  - discriminate.
  - reflexivity.
Defined.

(** ** The record as a raw mapping *)

Section RawAccess.
Context {B : Builtins}.

Lemma dict_setitem_length k v (d : dict) :
  length (dict_setitem k v d) =
    if bool_decide (is_Some (dict_lookup k d)) then length d else S (length d).
Proof.
  induction d as [|[k' v'] d IH]; [reflexivity|]. cbn [dict_setitem dict_lookup].
  destruct (decide (k' = k)) as [->|Hne].
  - rewrite bool_decide_eq_true_2 by (by eexists). reflexivity.
  - cbn [length]. rewrite IH. by destruct (bool_decide _).
Qed.

Lemma dict_delitem_length k v (d : dict) :
  dict_lookup k d = Some v -> S (length (dict_delitem k d)) = length d.
Proof.
  induction d as [|[k' v'] d IH]; [discriminate|]. cbn [dict_delitem dict_lookup].
  destruct (decide (k' = k)) as [->|Hne]; [reflexivity|].
  intros Hk. cbn [length]. by rewrite (IH Hk).
Qed.

Lemma Mapping__getitem__stored data name (h : heap) (d : dict) :
  h !! data = Some (ODict d) ->
  Mapping__getitem__ data name h =
    match dict_lookup name d with
    | Some v => Returns v h
    | None => Raises (PyExc KeyError "%r" [key_value name]) h
    end.
Proof.
  intros Hd. unfold Mapping__getitem__.
  rewrite (bind_returns _ _ _ _ _ (read_lookup _ _ _ Hd)).
  by destruct (dict_lookup name d).
Qed.

Lemma py_contains_record cls data name (h : heap) (d : dict) :
  h !! data = Some (ODict d) ->
  py_contains (VRecord cls data) name h =
    Returns (bool_decide (is_Some (dict_lookup name d))) h.
Proof.
  intros Hd. unfold py_contains, try_except, bind.
  rewrite (Mapping__getitem__stored _ _ _ _ Hd).
  destruct (dict_lookup name d) as [v|].
  - rewrite bool_decide_eq_true_2 by (by eexists). reflexivity.
  - rewrite bool_decide_eq_false_2 by (by intros [? ?]). reflexivity.
Qed.

Lemma py_len_record cls data (h : heap) (d : dict) :
  h !! data = Some (ODict d) ->
  py_len (VRecord cls data) h = Returns (length d) h.
Proof.
  intros Hd. cbn [py_len]. by rewrite (bind_returns _ _ _ _ _ (read_lookup _ _ _ Hd)).
Qed.

Lemma stored_raw_dict (h : heap) data (d : dict) name :
  h !! data = Some (ODict d) -> stored_raw h data name = dict_lookup name d.
Proof. unfold stored_raw. by intros ->. Qed.

(** X5. Storing a raw value in a record, [r[name] = v]: the lookups that
    follow find it ([r[name]], [r.get(name)], [name in r]); the length
    grows by one exactly when the name is new; the other names keep
    their values. *)
Theorem Mapping_store_then_lookup (cls : Klass) (data : addr) (d : dict)
    (name : key) (v : value) (h : heap) :
  h !! data = Some (ODict d) ->
  exists h',
    Mapping__setitem__ data name v h = Returns tt h'
    /\ Mapping__getitem__ data name h' = Returns v h'
    /\ Mapping_get data name h' = Returns v h'
    /\ py_contains (VRecord cls data) name h' = Returns true h'
    /\ py_len (VRecord cls data) h' =
         Returns (if bool_decide (is_Some (dict_lookup name d)) then length d
                  else S (length d)) h'
    /\ (forall other, other <> name ->
          stored_raw h' data other = stored_raw h data other).
Proof.
  intros Hd. exists (<[data := ODict (dict_setitem name v d)]> h).
  pose proof (lookup_write_same _ _ (ODict (dict_setitem name v d)) _ Hd) as Hd'.
  split; [by apply Mapping__setitem__dict|].
  split; [|split; [|split; [|split]]].
  - rewrite (Mapping__getitem__stored _ _ _ _ Hd'), dict_lookup_setitem.
    by rewrite decide_True.
  - rewrite (Mapping_get_stored _ _ _ _ Hd'), dict_lookup_setitem.
    by rewrite decide_True.
  - rewrite (py_contains_record _ _ _ _ _ Hd'), dict_lookup_setitem.
    rewrite decide_True by done. by rewrite bool_decide_eq_true_2 by (by eexists).
  - by rewrite (py_len_record _ _ _ _ Hd'), dict_setitem_length.
  - intros other Hne.
    rewrite (stored_raw_dict _ _ _ _ Hd'), (stored_raw_dict _ _ _ _ Hd).
    rewrite dict_lookup_setitem. by rewrite decide_False.
Qed.

(** X6. A name the record does not hold: [r[name]], [del r[name]] and
    [r.pop(name)] raise [KeyError] carrying the name and leave the heap as
    it was; [r.get(name)] returns null and [name in r] is false. *)
Theorem Mapping_missing_key (cls : Klass) (data : addr) (d : dict)
    (name : key) (h : heap) :
  h !! data = Some (ODict d) -> dict_lookup name d = None ->
  let missing := PyExc KeyError "%r" [key_value name] in
  Mapping__getitem__ data name h = Raises missing h
  /\ Mapping__delitem__ data name h = Raises missing h
  /\ py_pop (VRecord cls data) name h = Raises missing h
  /\ Mapping_get data name h = Returns VNone h
  /\ py_contains (VRecord cls data) name h = Returns false h.
Proof.
  intros Hd Hk missing.
  assert (Mapping__getitem__ data name h = Raises missing h) as Hget
    by (by rewrite (Mapping__getitem__stored _ _ _ _ Hd), Hk).
  split; [exact Hget|]. split; [|split; [|split]].
  - unfold Mapping__delitem__.
    rewrite (bind_returns _ _ _ _ _ (read_lookup _ _ _ Hd)), Hk. reflexivity.
  - unfold py_pop. by rewrite (bind_raises _ _ _ _ _ Hget).
  - by rewrite (Mapping_get_stored _ _ _ _ Hd), Hk.
  - rewrite (py_contains_record _ _ _ _ _ Hd), Hk.
    by rewrite bool_decide_eq_false_2 by (by intros [? ?]).
Qed.

(** X7. Removing a name the record holds, by [del r[name]] or by
    [r.pop(name)], which also returns the value: afterwards the name is
    not in the record, the length is one less and the other names keep
    their values. *)
Theorem Mapping_delete_then_lookup (cls : Klass) (data : addr) (d : dict)
    (name : key) (v : value) (h : heap) :
  h !! data = Some (ODict d) -> is_dict d -> dict_lookup name d = Some v ->
  exists h',
    Mapping__delitem__ data name h = Returns tt h'
    /\ py_pop (VRecord cls data) name h = Returns v h'
    /\ py_contains (VRecord cls data) name h' = Returns false h'
    /\ Mapping_get data name h' = Returns VNone h'
    /\ (exists n, py_len (VRecord cls data) h' = Returns n h' /\ S n = length d)
    /\ (forall other, other <> name ->
          stored_raw h' data other = stored_raw h data other).
Proof.
  intros Hd Hnd Hk. exists (<[data := ODict (dict_delitem name d)]> h).
  pose proof (lookup_write_same _ _ (ODict (dict_delitem name d)) _ Hd) as Hd'.
  assert (Mapping__delitem__ data name h =
            Returns tt (<[data := ODict (dict_delitem name d)]> h)) as Hdel.
  { unfold Mapping__delitem__.
    rewrite (bind_returns _ _ _ _ _ (read_lookup _ _ _ Hd)), Hk. reflexivity. }
  split; [exact Hdel|]. split; [|split; [|split; [|split]]].
  - unfold py_pop.
    erewrite bind_returns by (by rewrite (Mapping__getitem__stored _ _ _ _ Hd), Hk).
    by rewrite (bind_returns _ _ _ _ _ Hdel).
  - rewrite (py_contains_record _ _ _ _ _ Hd'), dict_lookup_delitem_eq by done.
    by rewrite bool_decide_eq_false_2 by (by intros [? ?]).
  - by rewrite (Mapping_get_stored _ _ _ _ Hd'), dict_lookup_delitem_eq.
  - exists (length (dict_delitem name d)).
    split; [by apply py_len_record | by eapply dict_delitem_length].
  - intros other Hne.
    rewrite (stored_raw_dict _ _ _ _ Hd'), (stored_raw_dict _ _ _ _ Hd).
    by apply dict_lookup_delitem_ne.
Qed.

End RawAccess.

Lemma Mapping_store_then_lookup_witness :
  let B := Example.builtins in
  let cls := MkClass "Person" [] in
  let d := [(Some "name", VStr "John")] in
  let h := [ODict d] in
  exists h',
    Mapping__setitem__ 0 (Some "age") (VInt 42) h = Returns tt h'
    /\ Mapping__getitem__ 0 (Some "age") h' = Returns (VInt 42) h'
    /\ Mapping_get 0 (Some "age") h' = Returns (VInt 42) h'
    /\ py_contains (VRecord cls 0) (Some "age") h' = Returns true h'
    /\ py_len (VRecord cls 0) h' =
         Returns (if bool_decide (is_Some (dict_lookup (Some "age") d)) then length d
                  else S (length d)) h'
    /\ (forall other, other <> Some "age" ->
          stored_raw h' 0 other = stored_raw h 0 other).
Proof.
  intros B cls d h.
  apply (Mapping_store_then_lookup cls 0 d (Some "age") (VInt 42) h). reflexivity.
Defined.

Lemma Mapping_missing_key_witness :
  let B := Example.builtins in
  let cls := MkClass "Person" [] in
  let h := [ODict [(Some "name", VStr "John")]] in
  let missing := PyExc KeyError "%r" [VStr "age"] in
  Mapping__getitem__ 0 (Some "age") h = Raises missing h
  /\ Mapping__delitem__ 0 (Some "age") h = Raises missing h
  /\ py_pop (VRecord cls 0) (Some "age") h = Raises missing h
  /\ Mapping_get 0 (Some "age") h = Returns VNone h
  /\ py_contains (VRecord cls 0) (Some "age") h = Returns false h.
Proof.
  intros B cls h.
  apply (Mapping_missing_key cls 0 [(Some "name", VStr "John")] (Some "age") h);
    reflexivity.
Defined.

Lemma Mapping_delete_then_lookup_witness :
  let B := Example.builtins in
  let cls := MkClass "Person" [] in
  let d := [(Some "name", VStr "John"); (Some "age", VInt 42)] in
  let h := [ODict d] in
  exists h',
    Mapping__delitem__ 0 (Some "name") h = Returns tt h'
    /\ py_pop (VRecord cls 0) (Some "name") h = Returns (VStr "John") h'
    /\ py_contains (VRecord cls 0) (Some "name") h' = Returns false h'
    /\ Mapping_get 0 (Some "name") h' = Returns VNone h'
    /\ (exists n, py_len (VRecord cls 0) h' = Returns n h' /\ S n = length d)
    /\ (forall other, other <> Some "name" ->
          stored_raw h' 0 other = stored_raw h 0 other).
Proof.
  intros B cls d h.
  apply (Mapping_delete_then_lookup cls 0 d (Some "name") (VStr "John") h).
  - reflexivity.
  - unfold is_dict. compute_done.
  - reflexivity.
Defined.

(** ** What a new record holds *)

Section NewRecord.
Context {B : Builtins}.


End NewRecord.


(** ** Schema collection: the names of the descriptors *)

Section NameBinding.

Lemma bind_name_length r n (store : field_store) :
  length (bind_name r n store) = length store.
Proof.
  unfold bind_name. destruct (store !! r) as [f|]; [|reflexivity].
  destruct (name_unset (f_name f)); [apply length_insert | reflexivity].
Qed.

Lemma bind_name_lookup_other r r' n (store : field_store) :
  r <> r' -> bind_name r n store !! r' = store !! r'.
Proof.
  intros Hne. unfold bind_name. destruct (store !! r) as [f|]; [|reflexivity].
  destruct (name_unset (f_name f)); [by apply list_lookup_insert_ne | reflexivity].
Qed.

Lemma bind_name_lookup r n (store : field_store) f :
  store !! r = Some f ->
  bind_name r n store !! r =
    Some (if name_unset (f_name f) then set_name f (Some n) else f).
Proof.
  intros Hf. unfold bind_name. rewrite Hf.
  destruct (name_unset (f_name f)); [|exact Hf].
  apply list_lookup_insert_eq. by eapply lookup_lt_Some.
Qed.

Lemma bind_name_named r n (store : field_store) :
  (forall f, store !! r = Some f -> name_unset (f_name f) = false) ->
  bind_name r n store = store.
Proof.
  intros Hf. unfold bind_name. destruct (store !! r) as [f|]; [|reflexivity].
  by rewrite (Hf f eq_refl).
Qed.

(** The store after the loop over a class body. *)
Lemma MappingMeta__new__step_keeps dct : forall fields (store : field_store) r f,
  store !! r = Some f ->
  exists f',
    snd (fold_left MappingMeta__new__step dct (fields, store)) !! r = Some f'
    /\ f_kind f' = f_kind f /\ f_default f' = f_default f
    /\ (name_unset (f_name f) = false -> f' = f).
Proof.
  induction dct as [|[n [r0|]] dct IH]; intros fields store r f Hf; cbn [fold_left].
  - by exists f.
  - cbn [MappingMeta__new__step].
    destruct (decide (r0 = r)) as [->|Hne].
    + destruct (IH (assoc_set n r fields) _ r _ (bind_name_lookup r n store f Hf))
        as (f' & Hf' & Hk & Hd & Hn).
      exists f'. split; [exact Hf'|].
      destruct (name_unset (f_name f)) eqn:Hu.
      * by repeat split.
      * split; [exact Hk|]. split; [exact Hd|]. intros _. by apply Hn.
    + apply IH. by rewrite bind_name_lookup_other.
  - cbn [MappingMeta__new__step]. by apply IH.
Qed.

Lemma MappingMeta__new__step_untouched dct : forall fields (store : field_store) r,
  (forall n, (n, AttrField r) ∉ dct) ->
  snd (fold_left MappingMeta__new__step dct (fields, store)) !! r = store !! r.
Proof.
  induction dct as [|[n [r0|]] dct IH]; intros fields store r Hr; cbn [fold_left].
  - reflexivity.
  - cbn [MappingMeta__new__step]. rewrite IH.
    + apply bind_name_lookup_other. intros ->. apply (Hr n). by left.
    + intros n' Hin. apply (Hr n'). by right.
  - cbn [MappingMeta__new__step]. apply IH. intros n' Hin. apply (Hr n'). by right.
Qed.

Lemma MappingMeta__new__step_length dct : forall fields (store : field_store),
  length (snd (fold_left MappingMeta__new__step dct (fields, store))) = length store.
Proof.
  induction dct as [|[n [r0|]] dct IH]; intros fields store; cbn [fold_left].
  - reflexivity.
  - cbn [MappingMeta__new__step]. by rewrite IH, bind_name_length.
  - cbn [MappingMeta__new__step]. apply IH.
Qed.

Lemma name_unset_bound (n : string) : n <> "" -> name_unset (Some n) = false.
Proof. intros Hn. cbn. by apply bool_decide_eq_false_2. Qed.

Lemma MappingMeta__new__step_named dct : forall fields (store : field_store) n r f,
  (n, AttrField r) ∈ dct -> n <> "" -> store !! r = Some f ->
  exists f',
    snd (fold_left MappingMeta__new__step dct (fields, store)) !! r = Some f'
    /\ name_unset (f_name f') = false.
Proof.
  induction dct as [|[n0 a0] dct IH]; intros fields store n r f Hin Hn Hf.
  - by apply elem_of_nil in Hin.
  - apply elem_of_cons in Hin as [[= <- <-]|Hin]; cbn [fold_left].
    + cbn [MappingMeta__new__step].
      pose proof (bind_name_lookup r n store f Hf) as Hb.
      destruct (MappingMeta__new__step_keeps dct (assoc_set n r fields) _ r _ Hb)
        as (f' & Hf' & _ & _ & Hkeep).
      exists f'. split; [exact Hf'|].
      destruct (name_unset (f_name f)) eqn:Hu.
      * rewrite Hkeep; by apply name_unset_bound.
      * by rewrite Hkeep.
    + destruct a0 as [r0|]; cbn [MappingMeta__new__step]; [|by eapply IH].
      destruct (decide (r0 = r)) as [->|Hne].
      * eapply IH; [exact Hin | exact Hn | by apply bind_name_lookup].
      * eapply IH; [exact Hin | exact Hn |]. by rewrite bind_name_lookup_other.
Qed.

Lemma MappingMeta__new__step_app pre post acc :
  fold_left MappingMeta__new__step (pre ++ post) acc =
  fold_left MappingMeta__new__step post (fold_left MappingMeta__new__step pre acc).
Proof. apply fold_left_app. Qed.

(** X9. The names of the descriptors after a class is created.  The
    metaclass changes nothing of a descriptor but its name, and the name
    only when it is unset: an explicit name is kept.  A descriptor the
    body declares under a non-empty attribute name has a name afterwards;
    an unnamed one gets the attribute name of its first declaration in
    the body, also when the same object is declared under several names.
    Descriptors the body does not declare, the inherited ones among them,
    are left as they are. *)
Theorem MappingMeta__new__names (bases : list (option schema))
    (dct : list (string * attr)) (store : field_store) :
  let store' := snd (MappingMeta__new__ bases dct store) in
  length store' = length store
  /\ (forall r f, store !! r = Some f ->
        exists f', store' !! r = Some f'
                   /\ f_kind f' = f_kind f /\ f_default f' = f_default f
                   /\ (name_unset (f_name f) = false -> f' = f))
  /\ (forall r, (forall n, (n, AttrField r) ∉ dct) -> store' !! r = store !! r)
  /\ (forall n r f, (n, AttrField r) ∈ dct -> n <> "" -> store !! r = Some f ->
        exists f', store' !! r = Some f' /\ name_unset (f_name f') = false)
  /\ (forall pre n r post f,
        dct = pre ++ (n, AttrField r) :: post ->
        (forall n', (n', AttrField r) ∉ pre) ->
        store !! r = Some f -> name_unset (f_name f) = true -> n <> "" ->
        store' !! r = Some (set_name f (Some n))).
Proof.
  intros store'. unfold store', MappingMeta__new__.
  match goal with
  | |- context [fold_left MappingMeta__new__step dct (?x, store)] => set (fields0 := x)
  end.
  clearbody fields0.
  split; [apply MappingMeta__new__step_length|].
  split; [intros r f; apply MappingMeta__new__step_keeps|].
  split; [intros r; apply MappingMeta__new__step_untouched|].
  split; [intros n r f; apply MappingMeta__new__step_named|].
  intros pre n r post f -> Hpre Hf Hu Hn.
  rewrite MappingMeta__new__step_app.
  destruct (fold_left MappingMeta__new__step pre (fields0, store))
    as [fields1 store1] eqn:Hfold.
  assert (store1 !! r = Some f) as Hf1.
  { pose proof (f_equal snd Hfold) as Hs. cbn [snd] in Hs. rewrite <- Hs.
    etrans; [by apply MappingMeta__new__step_untouched | exact Hf]. }
  cbn [fold_left MappingMeta__new__step].
  pose proof (bind_name_lookup r n store1 f Hf1) as Hb. rewrite Hu in Hb.
  destruct (MappingMeta__new__step_keeps post (assoc_set n r fields1) _ r _ Hb)
    as (f' & Hf' & _ & _ & Hkeep).
  etrans; [exact Hf'|]. f_equal. apply Hkeep. by apply name_unset_bound.
Qed.

End NameBinding.

(** ** Mapping.build *)

Section Build.

Lemma Mapping_build_step_fields d : forall acc,
  Forall (fun item : string * attr => exists r, snd item = AttrField r) d ->
  fold_left Mapping_build_step d (Some acc) =
    Some (fold_left MappingMeta__new__step d acc).
Proof.
  induction d as [|[n a] d IH]; intros [fields store] Hd; [reflexivity|].
  apply Forall_cons in Hd as [[r Hr] Hd]. cbn [snd] in Hr. subst a.
  cbn [fold_left Mapping_build_step MappingMeta__new__step]. by apply IH.
Qed.

Lemma assoc_set_new {A} (k : string) (v : A) (d : list (string * A)) :
  k ∉ map fst d -> assoc_set k v d = d ++ [(k, v)].
Proof.
  induction d as [|[k' v'] d IH]; [reflexivity|]. cbn [map fst assoc_set].
  intros [Hne Hd]%not_elem_of_cons.
  rewrite decide_False by congruence. cbn [app]. by rewrite IH.
Qed.

Lemma MappingMeta__new__step_fields_only d : forall fields (store store' : field_store),
  fst (fold_left MappingMeta__new__step d (fields, store)) =
  fst (fold_left MappingMeta__new__step d (fields, store')).
Proof.
  induction d as [|[n [r|]] d IH]; intros fields store store'; cbn [fold_left];
    [reflexivity | |]; cbn [MappingMeta__new__step]; apply IH.
Qed.

Lemma MappingMeta__new__step_store_only d : forall fields fields' (store : field_store),
  snd (fold_left MappingMeta__new__step d (fields, store)) =
  snd (fold_left MappingMeta__new__step d (fields', store)).
Proof.
  induction d as [|[n [r|]] d IH]; intros fields fields' store; cbn [fold_left];
    [reflexivity | |]; cbn [MappingMeta__new__step]; apply IH.
Qed.

Lemma MappingMeta__new__step_other acc n :
  MappingMeta__new__step acc (n, AttrOther) = acc.
Proof. by destruct acc. Qed.

(** Binding the names a second time changes nothing. *)
Lemma MappingMeta__new__step_again d fields fields' (store : field_store) :
  Forall (fun item : string * attr => fst item <> "") d ->
  let bound := snd (fold_left MappingMeta__new__step d (fields', store)) in
  snd (fold_left MappingMeta__new__step d (fields, bound)) = bound.
Proof.
  intros Hnames bound.
  assert (forall l fs, (forall item, item ∈ l -> item ∈ d) ->
            snd (fold_left MappingMeta__new__step l (fs, bound)) = bound) as Hsub.
  { induction l as [|[n [r|]] l IH]; intros fs Hl; cbn [fold_left];
      [reflexivity | |]; cbn [MappingMeta__new__step].
    - rewrite bind_name_named; [apply IH; intros item Hin; apply Hl; by right|].
      intros f Hf.
      assert ((n, AttrField r) ∈ d) as Hin by (apply Hl; by left).
      assert (n <> "") as Hn
        by (rewrite Forall_forall in Hnames; exact (Hnames _ Hin)).
      assert (is_Some (store !! r)) as [f0 Hf0].
      { apply lookup_lt_is_Some. apply lookup_lt_Some in Hf.
        unfold bound in Hf. by rewrite MappingMeta__new__step_length in Hf. }
      destruct (MappingMeta__new__step_named d fields' store n r f0 Hin Hn Hf0)
        as (f' & Hf' & Hset).
      fold bound in Hf'. congruence.
    - apply IH. intros item Hin. apply Hl. by right. }
  by apply Hsub.
Qed.

(** X10. [Mapping.build] called on a class with keywords that are all
    descriptors, under non-empty names other than [_fields]: the class it
    returns has the [_fields] and the bound names that a class statement
    with the same base and the same body would give.  The dict that
    [build] fills itself is not what the class ends with: the metaclass
    computes [_fields] anew, from the base class and the keywords. *)
Theorem Mapping_build_as_class (base : option schema) (d : list (string * attr))
    (store : field_store) :
  Forall (fun item : string * attr => exists r, snd item = AttrField r) d ->
  Forall (fun item : string * attr => fst item <> "") d ->
  "_fields" ∉ map fst d ->
  Mapping_build base d store = Some (MappingMeta__new__ [base] d store).
Proof.
  intros Hfields Hnames Hreserved. unfold Mapping_build.
  match goal with
  | |- context [fold_left Mapping_build_step d ?acc] =>
      replace (fold_left Mapping_build_step d acc)
        with (Some (fold_left MappingMeta__new__step d ([], store)))
        by (symmetry; exact (Mapping_build_step_fields d ([], store) Hfields))
  end.
  destruct (fold_left MappingMeta__new__step d ([], store)) as [fields1 store1] eqn:Hpass.
  f_equal. unfold MappingMeta__new__.
  match goal with
  | |- context [fold_left MappingMeta__new__step d (?x, store)] => set (fields0 := x)
  end.
  clearbody fields0.
  rewrite (assoc_set_new _ _ _ Hreserved), fold_left_app.
  cbn [fold_left].
  etrans; [apply MappingMeta__new__step_other|].
  pose proof (f_equal snd Hpass) as Hs1. cbn [snd] in Hs1. subst store1.
  apply injective_projections.
  - apply MappingMeta__new__step_fields_only.
  - etrans; [apply (MappingMeta__new__step_again d fields0 [] store Hnames)|].
    apply MappingMeta__new__step_store_only.
Qed.

End Build.

(** An anonymous schema on a base class that declares [id]. *)
Lemma Mapping_build_as_class_witness :
  let base := Some [("id", 0)] in
  let d := [("name", AttrField 1); ("email", AttrField 2)] in
  let store := [MkField KInteger (Some "id") VNone; MkField KText None VNone;
                MkField KText (Some "mail") VNone] in
  Mapping_build base d store = Some (MappingMeta__new__ [base] d store).
Proof.
  intros base d store. apply (Mapping_build_as_class base d store).
  - repeat constructor; by eexists.
  - repeat constructor; discriminate.
  - compute_done.
Defined.

(** ** Dates and times: texts and typed values *)

Section IsoTexts.

Lemma time_valid_bounds (t : time_t) :
  time_valid t = true ->
  (0 <= hour t <= 23 /\ 0 <= minute t <= 59 /\ 0 <= second t <= 59
   /\ 0 <= microsecond t <= 999999)%Z.
Proof.
  destruct t as [hh mi ss us]. unfold time_valid, in_range. cbn.
  rewrite !andb_true_iff, !Z.leb_le. lia.
Qed.

Lemma date_valid_bounds (d : date_t) :
  date_valid d = true ->
  (1 <= year d <= 9999 /\ 1 <= month d <= 12 /\ 1 <= day d <= 31)%Z.
Proof.
  destruct d as [y mo dd]. unfold date_valid, in_range. cbn.
  rewrite !andb_true_iff, !Z.leb_le.
  assert (days_in_month y mo <= 31)%Z.
  { unfold days_in_month. repeat destruct (_ : bool); lia. }
  lia.
Qed.

Lemma time_replace_microsecond_valid (t : time_t) :
  time_valid t = true -> time_valid (time_replace_microsecond t 0) = true.
Proof.
  destruct t as [hh mi ss us]. unfold time_valid, in_range, time_replace_microsecond.
  cbn. rewrite !andb_true_iff. tauto.
Qed.

Lemma datetime_replace_microsecond_valid (dt : datetime_t) :
  datetime_valid dt = true ->
  datetime_valid (datetime_replace_microsecond dt 0) = true.
Proof.
  destruct dt as [d t]. unfold datetime_valid, datetime_replace_microsecond. cbn.
  rewrite !andb_true_iff. intros [Hd Ht]. split; [exact Hd|].
  by apply time_replace_microsecond_valid.
Qed.

(** The text before the fraction is the text of the value without its
    microseconds. *)
Lemma time_text_fraction (t : time_t) :
  split_first "." (time_isoformat t) = time_isoformat (time_replace_microsecond t 0).
Proof.
  destruct t as [hh mi ss us].
  unfold time_isoformat, time_replace_microsecond, pad2. cbn [hour minute second microsecond].
  destruct (us =? 0)%Z;
    cbv -[digit Z.div split_first pad6];
    repeat (rewrite split_first_cons_ne by first [by apply digit_not | discriminate]);
    reflexivity.
Qed.

Lemma datetime_text_fraction (dt : datetime_t) :
  split_first "." (datetime_isoformat dt) =
    datetime_isoformat (datetime_replace_microsecond dt 0).
Proof.
  destruct dt as [[y mo d] [hh mi ss us]].
  unfold datetime_isoformat, date_isoformat, time_isoformat,
    datetime_replace_microsecond, time_replace_microsecond, pad4, pad2.
  cbn [dt_date dt_time year month day hour minute second microsecond].
  destruct (us =? 0)%Z;
    cbv -[digit Z.div split_first pad6];
    repeat (rewrite split_first_cons_ne by first [by apply digit_not | discriminate]);
    reflexivity.
Qed.

Lemma Example_reads_isoformat : strptime_reads_isoformat Example.builtins.
Proof.
  split; [|split].
  - intros d Hvalid. apply date_valid_bounds in Hvalid.
    destruct d as [y mo dd]. cbn in Hvalid.
    unfold date_isoformat, pad4, pad2. cbn [strptime Example.builtins].
    unfold Example.parse_time.
    cbv -[digit is_digit Example.digit_val Z.div Z.add Z.mul].
    rewrite !is_digit_digit, !digit_val_digit.
    eexists. split; [reflexivity|]. cbn.
    f_equal; Z.div_mod_to_equations; lia.
  - intros t Hvalid Hus. apply time_valid_bounds in Hvalid.
    destruct t as [hh mi ss us]. cbn in Hvalid, Hus. subst us.
    unfold time_isoformat, pad2. cbn [strptime Example.builtins].
    unfold Example.parse_time.
    cbv -[digit is_digit Example.digit_val Z.div Z.add Z.mul].
    rewrite !is_digit_digit, !digit_val_digit.
    eexists. split; [reflexivity|]. cbn.
    f_equal; Z.div_mod_to_equations; lia.
  - exact Example_parses_isoformat.
Qed.

End IsoTexts.

Section LeafRoundTrips.
Context {B : Builtins}.
Hypothesis Hreads : strptime_reads_isoformat B.

(** X11. DateField: the raw form of a valid date is its ISO text, and the
    typed form of that text is the date again; of a date-time the raw
    form is the ISO text of its date. *)
Theorem DateField_round_trip (d : date_t) (h : heap) :
  date_valid d = true ->
  DateField_to_json (VDate d) h = Returns (VStr (date_isoformat d)) h
  /\ DateField_to_python (VStr (date_isoformat d)) h = Returns (VDate d) h
  /\ (forall t, DateField_to_json (VDateTime (mk_datetime d t)) h =
                  Returns (VStr (date_isoformat d)) h).
Proof.
  intros Hvalid. split; [reflexivity|]. split; [|reflexivity].
  destruct Hreads as (Hdate & _ & _).
  destruct (Hdate d Hvalid) as (st & Hst & Hd).
  unfold DateField_to_python, try_except, bind, lift. rewrite Hst.
  unfold date_new. by rewrite Hd, Hvalid.
Qed.

Lemma DateTimeField_to_python_iso (dt : datetime_t) (h : heap) :
  datetime_valid dt = true -> microsecond (dt_time dt) = 0%Z ->
  DateTimeField_to_python (VStr (datetime_isoformat dt)) h = Returns (VDateTime dt) h.
Proof.
  intros Hvalid Hus. destruct Hreads as (_ & _ & Hdatetime).
  destruct (Hdatetime dt Hvalid Hus) as (st & Hst & Hdt).
  unfold DateTimeField_to_python, try_except, bind, lift.
  rewrite (datetime_text_stem dt Hus), Hst.
  unfold datetime_new. by rewrite Hdt, Hvalid.
Qed.

Lemma datetime_replace_microsecond_us (dt : datetime_t) :
  microsecond (dt_time (datetime_replace_microsecond dt 0)) = 0%Z.
Proof. by destruct dt as [d [hh mi ss us]]. Qed.

(** X12. DateTimeField: the raw form of a valid date-time is the ISO text
    of the date-time without its microseconds, followed by Z, and the
    typed form of that text is the date-time without its microseconds:
    the round trip truncates to the second.  The ISO text with its
    fraction and without Z reads back to the same value.  A date is
    written as its midnight. *)
Theorem DateTimeField_round_trip (dt : datetime_t) (h : heap) :
  datetime_valid dt = true ->
  let whole := datetime_replace_microsecond dt 0 in
  DateTimeField_to_json (VDateTime dt) h =
    Returns (VStr (datetime_isoformat whole +:+ "Z")) h
  /\ DateTimeField_to_python (VStr (datetime_isoformat whole +:+ "Z")) h =
       Returns (VDateTime whole) h
  /\ DateTimeField_to_python (VStr (datetime_isoformat dt)) h =
       Returns (VDateTime whole) h
  /\ DateTimeField_to_json (VDate (dt_date dt)) h =
       Returns (VStr (datetime_isoformat (mk_datetime (dt_date dt) (mk_time 0 0 0 0))
                      +:+ "Z")) h.
Proof.
  intros Hvalid whole.
  pose proof (datetime_replace_microsecond_valid dt Hvalid) as Hwhole.
  pose proof (datetime_replace_microsecond_us dt) as Hus.
  split; [reflexivity|]. split; [|split; [|reflexivity]].
  - rewrite (DateTimeField_to_python_same_stem
               (datetime_isoformat whole +:+ "Z") (datetime_isoformat whole) h)
      by (apply rstrip_split_first_Z; discriminate).
    by apply DateTimeField_to_python_iso.
  - rewrite (DateTimeField_to_python_same_stem
               (datetime_isoformat dt) (datetime_isoformat whole) h).
    + by apply DateTimeField_to_python_iso.
    + rewrite (datetime_text_fraction dt), (datetime_text_fraction whole).
      fold whole. by rewrite (datetime_replace_microsecond_zero whole Hus).
Qed.

(** X13. TimeField: the raw form of a valid time is the ISO text of the
    time without its microseconds, and the typed form of the ISO text of
    the time, with or without a fraction, is the time without its
    microseconds; of a date-time the raw form is that of its time. *)
Theorem TimeField_round_trip (t : time_t) (h : heap) :
  time_valid t = true ->
  let whole := time_replace_microsecond t 0 in
  TimeField_to_json (VTime t) h = Returns (VStr (time_isoformat whole)) h
  /\ TimeField_to_python (VStr (time_isoformat t)) h = Returns (VTime whole) h
  /\ TimeField_to_python (VStr (time_isoformat whole)) h = Returns (VTime whole) h
  /\ (forall d, TimeField_to_json (VDateTime (mk_datetime d t)) h =
                  Returns (VStr (time_isoformat whole)) h).
Proof.
  intros Hvalid whole.
  pose proof (time_replace_microsecond_valid t Hvalid) as Hwhole.
  fold whole in Hwhole.
  assert (microsecond whole = 0%Z) as Hus by (by destruct t).
  assert (forall s, split_first "." s = time_isoformat whole ->
            TimeField_to_python (VStr s) h = Returns (VTime whole) h) as Hparse.
  { intros s Hs. destruct Hreads as (_ & Htime & _).
    destruct (Htime whole Hwhole Hus) as (st & Hst & Ht).
    unfold TimeField_to_python, try_except, bind, lift. rewrite Hs, Hst.
    unfold time_new. by rewrite Ht, Hwhole. }
  split; [reflexivity|]. split; [|split; [|reflexivity]].
  - apply Hparse, time_text_fraction.
  - apply Hparse. by rewrite (time_text_fraction whole).
Qed.

End LeafRoundTrips.

Lemma DateField_round_trip_witness :
  let B := Example.builtins in
  let d := mk_date 2007 4 1 in
  DateField_to_json (VDate d) [] = Returns (VStr (date_isoformat d)) []
  /\ DateField_to_python (VStr (date_isoformat d)) [] = Returns (VDate d) []
  /\ (forall t, DateField_to_json (VDateTime (mk_datetime d t)) [] =
                  Returns (VStr (date_isoformat d)) []).
Proof.
  intros B d.
  apply (DateField_round_trip Example_reads_isoformat d []). reflexivity.
Defined.

(** 2007-04-01 15:30:00.009876 is written as 2007-04-01T15:30:00Z. *)
Lemma DateTimeField_round_trip_witness :
  let B := Example.builtins in
  let dt := mk_datetime (mk_date 2007 4 1) (mk_time 15 30 0 9876) in
  let whole := datetime_replace_microsecond dt 0 in
  DateTimeField_to_json (VDateTime dt) [] =
    Returns (VStr (datetime_isoformat whole +:+ "Z")) []
  /\ DateTimeField_to_python (VStr (datetime_isoformat whole +:+ "Z")) [] =
       Returns (VDateTime whole) []
  /\ DateTimeField_to_python (VStr (datetime_isoformat dt)) [] =
       Returns (VDateTime whole) []
  /\ DateTimeField_to_json (VDate (dt_date dt)) [] =
       Returns (VStr (datetime_isoformat (mk_datetime (dt_date dt) (mk_time 0 0 0 0))
                      +:+ "Z")) [].
Proof.
  intros B dt.
  apply (DateTimeField_round_trip Example_reads_isoformat dt []). reflexivity.
Defined.

Lemma TimeField_round_trip_witness :
  let B := Example.builtins in
  let t := mk_time 15 30 0 9876 in
  let whole := time_replace_microsecond t 0 in
  TimeField_to_json (VTime t) [] = Returns (VStr (time_isoformat whole)) []
  /\ TimeField_to_python (VStr (time_isoformat t)) [] = Returns (VTime whole) []
  /\ TimeField_to_python (VStr (time_isoformat whole)) [] = Returns (VTime whole) []
  /\ (forall d, TimeField_to_json (VDateTime (mk_datetime d t)) [] =
                  Returns (VStr (time_isoformat whole)) []).
Proof.
  intros B t.
  apply (TimeField_round_trip Example_reads_isoformat t []). reflexivity.
Defined.

Section ParseErrors.
Context {B : Builtins}.

(** X14. The typed conversion of a text by the date, date-time and time
    fields never touches the heap and has two outcomes only: a valid
    value of the field's type, or an exception.  A [ValueError], whether
    [strptime] or the constructor raised it, is replaced by the field's
    own [ValueError]; its argument is the text as given for a date, and
    the text already stripped (of its fraction, and of trailing Z for a
    date-time) for the other two.  Any other exception is that of
    [strptime], passed on. *)
Theorem date_time_parse_outcomes (s : string) (h : heap) :
  let outcome_of (o : outcome value) (good : value -> Prop) (msg : string)
      (shown format : string) :=
    match o with
    | Returns v h' => h' = h /\ good v
    | Raises e h' =>
        h' = h
        /\ (e = PyExc ValueError msg [VStr shown]
            \/ (exc_class_of e <> ValueError /\ strptime shown format = Exc e))
    | _ => False
    end in
  outcome_of (DateField_to_python (VStr s) h)
    (fun v => exists d, v = VDate d /\ date_valid d = true)
    "Invalid ISO date %r" s "%Y-%m-%d"
  /\ outcome_of (DateTimeField_to_python (VStr s) h)
    (fun v => exists dt, v = VDateTime dt /\ datetime_valid dt = true
                         /\ microsecond (dt_time dt) = 0%Z)
    "Invalid ISO date/time %r" (rstrip "Z" (split_first "." s)) "%Y-%m-%dT%H:%M:%S"
  /\ outcome_of (TimeField_to_python (VStr s) h)
    (fun v => exists t, v = VTime t /\ time_valid t = true /\ microsecond t = 0%Z)
    "Invalid ISO time %r" (split_first "." s) "%H:%M:%S".
Proof.
  intros outcome_of. unfold outcome_of.
  unfold DateField_to_python, DateTimeField_to_python, TimeField_to_python,
    try_except, bind, lift, raise.
  split; [|split].
  - destruct (strptime s _) as [st|e] eqn:Hst.
    + unfold date_new. destruct (date_valid _) eqn:Hv.
      * split; [reflexivity|]. by eexists.
      * cbn. split; [reflexivity|]. by left.
    + destruct (decide (exc_class_of e = ValueError)) as [Hc|Hc].
      * split; [reflexivity|]. by left.
      * split; [reflexivity|]. by right.
  - destruct (strptime (rstrip _ _) _) as [st|e] eqn:Hst.
    + unfold datetime_new. destruct (datetime_valid _) eqn:Hv.
      * split; [reflexivity|]. by eexists.
      * cbn. split; [reflexivity|]. by left.
    + destruct (decide (exc_class_of e = ValueError)) as [Hc|Hc].
      * split; [reflexivity|]. by left.
      * split; [reflexivity|]. by right.
  - destruct (strptime (split_first _ _) _) as [st|e] eqn:Hst.
    + unfold time_new. destruct (time_valid _) eqn:Hv.
      * split; [reflexivity|]. by eexists.
      * cbn. split; [reflexivity|]. by left.
    + destruct (decide (exc_class_of e = ValueError)) as [Hc|Hc].
      * split; [reflexivity|]. by left.
      * split; [reflexivity|]. by right.
Qed.

End ParseErrors.

(** ** DictField and ListField: what they accept and what they build *)

Section CompositeConversions.
Context {B : Builtins}.

(** X15. A nested-record field with a schema converts mappings only: on
    any other value (null, a number, a text, a list, a sequence view)
    both conversions raise [TypeError], and so they do on a dict that
    has a key which is not a text; the heap is left as it was. *)
Theorem DictField_rejects_non_mapping (rec : Interp) (cls : Klass) (h : heap) :
  (forall v,
     match v with
     | VRef a => exists l, h !! a = Some (OList l)
     | VRecord _ _ => False
     | _ => True
     end ->
     let refused := Raises (PyExc TypeError "argument after ** must be a mapping" [v]) h in
     DictField_to_python rec (Some cls) v h = refused
     /\ DictField_to_json rec (Some cls) v h = refused)
  /\ (forall a d,
     h !! a = Some (ODict d) -> None ∈ dict_keys d ->
     let refused := Raises (PyExc TypeError "keywords must be strings" []) h in
     DictField_to_python rec (Some cls) (VRef a) h = refused
     /\ DictField_to_json rec (Some cls) (VRef a) h = refused).
Proof.
  split.
  - intros v Hv refused.
    assert (unpack_kwargs v h = Raises (PyExc TypeError
              "argument after ** must be a mapping" [v]) h) as Hu.
    { destruct v; try done.
      destruct Hv as (l & Hl). unfold unpack_kwargs.
      by rewrite (bind_returns _ _ _ _ _ (read_lookup _ _ _ Hl)). }
    unfold DictField_to_python, DictField_to_json.
    split; [by rewrite (bind_raises _ _ _ _ _ Hu)|].
    destruct v; try done;
      by erewrite bind_raises by (by rewrite (bind_raises _ _ _ _ _ Hu)).
  - intros a d Ha Hnone refused.
    assert (unpack_kwargs (VRef a) h =
              Raises (PyExc TypeError "keywords must be strings" []) h) as Hu.
    { unfold unpack_kwargs. rewrite (bind_returns _ _ _ _ _ (read_lookup _ _ _ Ha)).
      destruct (forallb _ _) eqn:Hall; [exfalso | reflexivity].
      rewrite forallb_forall in Hall.
      specialize (Hall None (proj1 (list_elem_of_In _ _) Hnone)).
      apply bool_decide_eq_true in Hall. by destruct Hall. }
    unfold DictField_to_python, DictField_to_json.
    split; [by rewrite (bind_raises _ _ _ _ _ Hu)|].
    by erewrite bind_raises by (by rewrite (bind_raises _ _ _ _ _ Hu)).
Qed.

Lemma mapM_returns_each {A C} (f : A -> M C) (l : list A) (h : heap) ys h' :
  mapM f l h = Returns ys h' ->
  Forall2 (fun x y => exists h1 h2, f x h1 = Returns y h2) l ys.
Proof.
  revert h ys. induction l as [|x l IH]; intros h ys Hrun; cbn [mapM] in Hrun.
  - injection Hrun as <- <-. constructor.
  - apply bind_inv_returns in Hrun as (y & h1 & Hy & Hrun).
    apply bind_inv_returns in Hrun as (ys' & h2 & Hys & Hret).
    injection Hret as <- <-. constructor; [by exists h, h1 | by eapply IH].
Qed.

(** X16. The raw form of a raw list, for a sequence field: the items are
    converted in order, each on the heap the conversion of the one
    before left, and the results are stored in a new list object, never
    the list given, which is left as it was; the new list has as many
    items as the list given. *)
Theorem ListField_to_json_new_list (fuel : nat) (field : Field)
    (name : option string) (dflt : value) (a : addr) (l : list value) (h : heap) :
  h !! a = Some (OList l) ->
  _to_json (interp fuel) (MkField (KList field) name dflt) (VRef a) h =
    (raws <- mapM (rec_to_json (interp fuel) field) l ;; alloc (OList raws)) h
  /\ forall r h',
       _to_json (interp fuel) (MkField (KList field) name dflt) (VRef a) h
         = Returns r h' ->
       exists raws h1,
         mapM (rec_to_json (interp fuel) field) l h = Returns raws h1
         /\ r = VRef (length h1) /\ h' = h1 ++ [OList raws]
         /\ length raws = length l
         /\ length h <= length h1
         /\ h' !! length h1 = Some (OList raws)
         /\ h' !! a = Some (OList l).
Proof.
  intros Ha.
  assert (_to_json (interp fuel) (MkField (KList field) name dflt) (VRef a) h =
            (raws <- mapM (rec_to_json (interp fuel) field) l ;; alloc (OList raws)) h)
    as Heq.
  { unfold _to_json. cbn [f_kind]. by rewrite (ListField_to_json_list _ _ _ _ _ Ha). }
  split; [exact Heq|]. intros r h' Hrun. rewrite Heq in Hrun.
  apply bind_inv_returns in Hrun as (raws & h1 & Hmap & Halloc).
  injection Halloc as <- <-.
  destruct (interp_preserves fuel (length h)) as (_ & Hj & _).
  assert (heap_frame (length h) nowhere h h1) as Hfr.
  { eapply preserves_returns; [|apply le_n|exact Hmap]. by apply preserves_mapM. }
  exists raws, h1. split; [exact Hmap|]. split; [reflexivity|].
  split; [reflexivity|].
  split; [symmetry; eapply Forall2_length, mapM_returns_each, Hmap|].
  split; [by eapply heap_frame_length|]. split; [apply lookup_alloc_new|].
  apply lookup_alloc_old.
  eapply heap_frame_lookup; [exact Hfr | by eapply lookup_lt_Some | intros [] | exact Ha].
Qed.

End CompositeConversions.

(** Two raw date-time texts, one of them with a fraction. *)
Lemma ListField_to_json_new_list_witness :
  let B := Example.builtins in
  let field := MkField KDateTime None VNone in
  let l := [VStr "2007-04-01T15:30:00Z"; VStr "2008-01-02T03:04:05.250"] in
  let h := [OList l] in
  _to_json (interp 1) (MkField (KList field) (Some "dates") VNone) (VRef 0) h =
    (raws <- mapM (rec_to_json (interp 1) field) l ;; alloc (OList raws)) h
  /\ forall r h',
       _to_json (interp 1) (MkField (KList field) (Some "dates") VNone) (VRef 0) h
         = Returns r h' ->
       exists raws h1,
         mapM (rec_to_json (interp 1) field) l h = Returns raws h1
         /\ r = VRef (length h1) /\ h' = h1 ++ [OList raws]
         /\ length raws = length l
         /\ length h <= length h1
         /\ h' !! length h1 = Some (OList raws)
         /\ h' !! 0 = Some (OList l).
Proof.
  intros B field l h.
  apply (ListField_to_json_new_list 1 field (Some "dates") VNone 0 l h).
  reflexivity.
Defined.

(** The run of the example: the two texts in canonical form, in a new
    list. *)
Lemma ListField_to_json_new_list_example :
  let B := Example.builtins in
  let field := MkField KDateTime None VNone in
  let l := [VStr "2007-04-01T15:30:00Z"; VStr "2008-01-02T03:04:05.250"] in
  _to_json (interp 1) (MkField (KList field) (Some "dates") VNone) (VRef 0) [OList l] =
    Returns (VRef 1)
      [OList l; OList [VStr "2007-04-01T15:30:00Z"; VStr "2008-01-02T03:04:05Z"]].
Proof. reflexivity. Qed.

(** ** The sequence view: reading *)

Section ViewReading.
Context {B : Builtins}.

Lemma list_index_nat {A} (l : list A) (i : nat) :
  list_index l (Z.of_nat i) = l !! i.
Proof.
  assert ((Z.of_nat i <? 0)%Z = false) as Hi by (apply Z.ltb_ge; lia).
  unfold list_index. cbv zeta. rewrite Hi. cbv iota. rewrite Hi.
  by rewrite Nat2Z.id.
Qed.

Lemma Proxy__getitem__index rec a field (l : list value) i (h : heap) :
  h !! a = Some (OList l) ->
  Proxy__getitem__ rec (VRef a) field (Index i) h =
    match list_index l i with
    | Some item => rec_to_python rec field item h
    | None => Raises (PyExc IndexError "list index out of range" []) h
    end.
Proof.
  intros Ha. unfold Proxy__getitem__, py_getitem, bind at 1.
  rewrite (bind_returns _ _ _ _ _ (read_lookup _ _ _ Ha)).
  by destruct (list_index l i).
Qed.

(** Running the reads of an iteration one after the other. *)
Lemma Proxy__iter__reads fuel a field (l : list value) :
  forall rest k (h : heap),
    drop k l = rest -> h !! a = Some (OList l) ->
    mapM id (map (fun index =>
                    Proxy__getitem__ (interp fuel) (VRef a) field (Index (Z.of_nat index)))
                 (seq k (length rest))) h
    = mapM (rec_to_python (interp fuel) field) rest h.
Proof.
  induction rest as [|x rest IH]; intros k h Hdrop Ha; [reflexivity|].
  cbn [length seq map mapM].
  assert (l !! k = Some x) as Hx.
  { rewrite <- (Nat.add_0_r k), <- lookup_drop, Hdrop. reflexivity. }
  unfold bind at 1 3. unfold id at 1.
  rewrite (Proxy__getitem__index _ _ _ _ _ _ Ha), list_index_nat, Hx.
  destruct (interp_preserves fuel (length h)) as (Hp & _ & _).
  pose proof (Hp field x h (le_n _)) as Hfr.
  destruct (rec_to_python (interp fuel) field x h) as [y h1|e h1| |]; try reflexivity.
  unfold bind. rewrite (IH (S k) h1); [reflexivity | |].
  - replace (S k) with (k + 1) by lia. by rewrite <- drop_drop, Hdrop.
  - eapply heap_frame_lookup; [exact Hfr | by eapply lookup_lt_Some | intros [] | exact Ha].
Qed.

(** X17. A view over a raw list: its length is the length of the list;
    it is true exactly when the list is not empty, on Python 2 (through
    [__nonzero__]) as on Python 3 (through [__len__]); and iterating it
    yields, in order, the typed conversion of each raw item, each
    converted when the iteration reaches it. *)
Theorem Proxy_iteration (fuel : nat) (a : addr) (field : Field) (l : list value)
    (h : heap) :
  h !! a = Some (OList l) ->
  py_len (VProxy (VRef a) field) h = Returns (length l) h
  /\ py_bool (VProxy (VRef a) field) h = Returns (negb (bool_decide (l = []))) h
  /\ exists reads,
       py_iter (interp fuel) (VProxy (VRef a) field) h = Returns reads h
       /\ length reads = length l
       /\ mapM id reads h = mapM (rec_to_python (interp fuel) field) l h.
Proof.
  intros Ha.
  assert (py_len (VRef a) h = Returns (length l) h) as Hlen.
  { cbn [py_len]. by rewrite (bind_returns _ _ _ _ _ (read_lookup _ _ _ Ha)). }
  split; [exact Hlen|]. split.
  - cbn [py_bool]. destruct PY2.
    + cbn [py_bool]. rewrite (bind_returns _ _ _ _ _ Hlen). by destruct l.
    + rewrite (bind_returns _ _ _ _ _ Hlen). by destruct l.
  - eexists. split; [|split].
    + cbn [py_iter]. unfold Proxy__iter__, Proxy__len__. cbn [py_len].
      rewrite (bind_returns _ _ _ _ _ Hlen). reflexivity.
    + by rewrite length_map, length_seq.
    + by apply (Proxy__iter__reads fuel a field l l 0 h).
Qed.

(** X18. Reading one item of a view: a negative index counts from the
    end, an index out of range raises [IndexError] and converts nothing.
    With a slice for index, as Python 3 passes it, [__getitem__] applies
    the element conversion to the sliced copy of the list as a whole
    where [__getslice__] wraps it in a view; for a date-time element,
    whose conversion returns what is not a text as it is, the result is
    the plain raw list of the slice. *)
Theorem Proxy__getitem__edges (fuel : nat) (a : addr) (field : Field)
    (l : list value) (h : heap) :
  h !! a = Some (OList l) ->
  (forall i, (Z.of_nat (length l) <= i \/ i < - Z.of_nat (length l))%Z ->
     Proxy__getitem__ (interp fuel) (VRef a) field (Index i) h =
       Raises (PyExc IndexError "list index out of range" []) h)
  /\ (forall k item, l !! k = Some item ->
     Proxy__getitem__ (interp fuel) (VRef a) field
       (Index (Z.of_nat k - Z.of_nat (length l))) h =
       rec_to_python (interp fuel) field item h)
  /\ (forall start stop,
     Proxy__getitem__ (interp fuel) (VRef a) field (Slice start stop) h =
       rec_to_python (interp fuel) field (VRef (length h))
         (h ++ [OList (list_slice l start stop)]))
  /\ (forall start stop name dflt,
     Proxy__getitem__ (interp (S fuel)) (VRef a) (MkField KDateTime name dflt)
       (Slice start stop) h =
       Returns (VRef (length h)) (h ++ [OList (list_slice l start stop)])).
Proof.
  intros Ha. split; [|split; [|split]].
  - intros i Hi. rewrite (Proxy__getitem__index _ _ _ _ _ _ Ha).
    assert (list_index l i = None) as ->; [|reflexivity].
    unfold list_index. cbv zeta. destruct (i <? 0)%Z eqn:Hneg.
    + apply Z.ltb_lt in Hneg.
      assert ((i + Z.of_nat (length l) <? 0)%Z = true) as -> by (apply Z.ltb_lt; lia).
      reflexivity.
    + rewrite Hneg. apply Z.ltb_ge in Hneg. apply lookup_ge_None. lia.
  - intros k item Hk. rewrite (Proxy__getitem__index _ _ _ _ _ _ Ha).
    assert (list_index l (Z.of_nat k - Z.of_nat (length l)) = Some item) as ->;
      [|reflexivity].
    pose proof (lookup_lt_Some _ _ _ Hk) as Hlt.
    unfold list_index. cbv zeta.
    assert ((Z.of_nat k - Z.of_nat (length l) <? 0)%Z = true) as ->
      by (apply Z.ltb_lt; lia).
    replace (Z.of_nat k - Z.of_nat (length l) + Z.of_nat (length l))%Z
      with (Z.of_nat k) by lia.
    assert ((Z.of_nat k <? 0)%Z = false) as -> by (apply Z.ltb_ge; lia).
    by rewrite Nat2Z.id.
  - intros start stop. unfold Proxy__getitem__, py_getitem, bind at 1.
    by rewrite (bind_returns _ _ _ _ _ (read_lookup _ _ _ Ha)).
  - intros start stop name dflt. unfold Proxy__getitem__, py_getitem, bind at 1.
    by rewrite (bind_returns _ _ _ _ _ (read_lookup _ _ _ Ha)).
Qed.

End ViewReading.

Lemma Proxy_iteration_witness :
  let B := Example.builtins in
  let field := MkField KDateTime None VNone in
  let l := [VStr "2007-04-01T15:30:00Z"; VStr "2008-01-02T03:04:05Z"] in
  let h := [OList l] in
  py_len (VProxy (VRef 0) field) h = Returns (length l) h
  /\ py_bool (VProxy (VRef 0) field) h = Returns (negb (bool_decide (l = []))) h
  /\ exists reads,
       py_iter (interp 1) (VProxy (VRef 0) field) h = Returns reads h
       /\ length reads = length l
       /\ mapM id reads h = mapM (rec_to_python (interp 1) field) l h.
Proof.
  intros B field l h. apply (Proxy_iteration 1 0 field l h). reflexivity.
Defined.

Lemma Proxy__getitem__edges_witness :
  let B := Example.builtins in
  let field := MkField KText None VNone in
  let l := [VStr "a"; VStr "b"] in
  let h := [OList l] in
  (forall i, (Z.of_nat (length l) <= i \/ i < - Z.of_nat (length l))%Z ->
     Proxy__getitem__ (interp 1) (VRef 0) field (Index i) h =
       Raises (PyExc IndexError "list index out of range" []) h)
  /\ (forall k item, l !! k = Some item ->
     Proxy__getitem__ (interp 1) (VRef 0) field
       (Index (Z.of_nat k - Z.of_nat (length l))) h =
       rec_to_python (interp 1) field item h)
  /\ (forall start stop,
     Proxy__getitem__ (interp 1) (VRef 0) field (Slice start stop) h =
       rec_to_python (interp 1) field (VRef (length h))
         (h ++ [OList (list_slice l start stop)]))
  /\ (forall start stop name dflt,
     Proxy__getitem__ (interp 2) (VRef 0) (MkField KDateTime name dflt)
       (Slice start stop) h =
       Returns (VRef (length h)) (h ++ [OList (list_slice l start stop)])).
Proof.
  intros B field l h. apply (Proxy__getitem__edges 1 0 field l h). reflexivity.
Defined.

(** ** The sequence view: changing the list *)

Section ViewWriting.
Context {B : Builtins}.

Lemma list_position_Some {A} (l : list A) (i : Z) n :
  list_position l i = Some n -> n < length l /\ list_index l i = l !! n.
Proof.
  unfold list_position, list_index. cbv zeta.
  set (i' := (if (i <? 0)%Z then (i + Z.of_nat (length l))%Z else i)).
  destruct ((0 <=? i')%Z && (i' <? Z.of_nat (length l))%Z) eqn:Hr; [|discriminate].
  apply andb_true_iff in Hr as [H0 Hn]. apply Z.leb_le in H0. apply Z.ltb_lt in Hn.
  intros [= <-]. split; [lia|].
  assert ((i' <? 0)%Z = false) as -> by (apply Z.ltb_ge; lia). reflexivity.
Qed.

Lemma list_position_last {A} (l : list A) (x : A) :
  list_position (l ++ [x]) (-1) = Some (length l).
Proof.
  unfold list_position. cbv zeta. rewrite length_app. cbn [length Z.ltb Z.compare].
  assert ((0 <=? -1 + Z.of_nat (length l + 1))%Z
          && (-1 + Z.of_nat (length l + 1) <? Z.of_nat (length l + 1))%Z = true) as ->.
  { apply andb_true_iff. split; [apply Z.leb_le | apply Z.ltb_lt]; lia. }
  f_equal. lia.
Qed.

Lemma rec_to_json_keeps fuel field v (h : heap) a x :
  h !! a = Some x ->
  match rec_to_json (interp fuel) field v h with
  | Returns _ h1 | Raises _ h1 => h1 !! a = Some x
  | _ => True
  end.
Proof.
  intros Ha. destruct (interp_preserves fuel (length h)) as (_ & Hj & _).
  specialize (Hj field v h (le_n _)).
  destruct (rec_to_json (interp fuel) field v h) as [y h1|e h1| |]; try exact I;
    (eapply heap_frame_lookup; [exact Hj | by eapply lookup_lt_Some | intros [] | exact Ha]).
Qed.

Lemma py_setitem_list a (l : list value) i item (h : heap) :
  h !! a = Some (OList l) ->
  py_setitem (VRef a) (Index i) item h =
    match list_position l i with
    | Some n => Returns tt (<[a := OList (<[n := item]> l)]> h)
    | None => Raises (PyExc IndexError "list assignment index out of range" []) h
    end.
Proof.
  intros Ha. unfold py_setitem.
  rewrite (bind_returns _ _ _ _ _ (read_lookup _ _ _ Ha)).
  by destruct (list_position l i).
Qed.

(** X19. Assigning to an item of a view, [view[i] = v]: the raw form of
    the value is computed first, so when the conversion raises, or the
    index is out of range, the list is as it was; otherwise the raw form
    replaces the item at the index (a negative index counts from the
    end), the length is unchanged, and reading the item gives the typed
    conversion of the raw form stored. *)
Theorem Proxy__setitem__then_read (fuel : nat) (a : addr) (field : Field)
    (l : list value) (i : Z) (v : value) (h : heap) :
  h !! a = Some (OList l) ->
  match rec_to_json (interp fuel) field v h with
  | Returns raw h1 =>
      match list_position l i with
      | Some n =>
          let h2 := <[a := OList (<[n := raw]> l)]> h1 in
          Proxy__setitem__ (interp fuel) (VRef a) field (Index i) v h = Returns tt h2
          /\ Proxy__getitem__ (interp fuel) (VRef a) field (Index i) h2 =
               rec_to_python (interp fuel) field raw h2
          /\ py_len (VProxy (VRef a) field) h2 = Returns (length l) h2
      | None =>
          Proxy__setitem__ (interp fuel) (VRef a) field (Index i) v h =
            Raises (PyExc IndexError "list assignment index out of range" []) h1
          /\ h1 !! a = Some (OList l)
      end
  | Raises e h1 =>
      Proxy__setitem__ (interp fuel) (VRef a) field (Index i) v h = Raises e h1
      /\ h1 !! a = Some (OList l)
  | _ => True
  end.
Proof.
  intros Ha. pose proof (rec_to_json_keeps fuel field v h a _ Ha) as Hkeep.
  unfold Proxy__setitem__.
  destruct (rec_to_json (interp fuel) field v h) as [raw h1|e h1| |] eqn:Hconv;
    [| |exact I|exact I].
  - rewrite (bind_returns _ _ _ _ _ Hconv), (py_setitem_list _ _ _ _ _ Hkeep).
    destruct (list_position l i) as [n|] eqn:Hpos; [|by split].
    destruct (list_position_Some l i n Hpos) as [Hn Hidx].
    pose proof (lookup_write_same _ _ (OList (<[n := raw]> l)) _ Hkeep) as Ha2.
    split; [reflexivity|]. split.
    + rewrite (Proxy__getitem__index _ _ _ _ _ _ Ha2).
      assert (list_position (<[n := raw]> l) i = Some n) as Hpos'
        by (unfold list_position in *; by rewrite length_insert).
      destruct (list_position_Some _ i n Hpos') as [_ ->].
      by rewrite list_lookup_insert_eq.
    + cbn [py_len]. rewrite (bind_returns _ _ _ _ _ (read_lookup _ _ _ Ha2)).
      by rewrite length_insert.
  - by rewrite (bind_raises _ _ _ _ _ Hconv).
Qed.

(** X20. Deleting an item of a view, [del view[i]]: within range the item
    at the index (a negative index counts from the end) is removed, the
    items before it stay in place and those after it move down by one;
    out of range it raises [IndexError] and the heap is as it was. *)
Theorem Proxy__delitem__removes (a : addr) (l : list value) (i : Z) (h : heap) :
  h !! a = Some (OList l) ->
  match list_position l i with
  | Some n =>
      Proxy__delitem__ (VRef a) (Index i) h =
        Returns tt (<[a := OList (delete n l)]> h)
      /\ list_index l i = l !! n
      /\ S (length (delete n l)) = length l
      /\ (forall m, delete n l !! m = if decide (m < n) then l !! m else l !! S m)
  | None =>
      Proxy__delitem__ (VRef a) (Index i) h =
        Raises (PyExc IndexError "list assignment index out of range" []) h
  end.
Proof.
  intros Ha. unfold Proxy__delitem__, py_delitem.
  rewrite (bind_returns _ _ _ _ _ (read_lookup _ _ _ Ha)).
  destruct (list_position l i) as [n|] eqn:Hpos; [|reflexivity].
  destruct (list_position_Some l i n Hpos) as [Hn Hidx].
  split; [reflexivity|]. split; [exact Hidx|]. split.
  - rewrite length_delete by (by apply lookup_lt_is_Some). lia.
  - intros m. destruct (decide (m < n)).
    + by apply list_lookup_delete_lt.
    + apply list_lookup_delete_ge. lia.
Qed.

End ViewWriting.

Lemma Proxy__setitem__then_read_witness :
  let B := Example.builtins in
  let field := MkField KDateTime None VNone in
  let l := [VStr "2007-04-01T15:30:00Z"; VStr "2008-01-02T03:04:05Z"] in
  let h := [OList l] in
  let v := VDateTime (mk_datetime (mk_date 2009 12 31) (mk_time 23 59 59 7)) in
  match rec_to_json (interp 1) field v h with
  | Returns raw h1 =>
      match list_position l (-1) with
      | Some n =>
          let h2 := <[0 := OList (<[n := raw]> l)]> h1 in
          Proxy__setitem__ (interp 1) (VRef 0) field (Index (-1)) v h = Returns tt h2
          /\ Proxy__getitem__ (interp 1) (VRef 0) field (Index (-1)) h2 =
               rec_to_python (interp 1) field raw h2
          /\ py_len (VProxy (VRef 0) field) h2 = Returns (length l) h2
      | None =>
          Proxy__setitem__ (interp 1) (VRef 0) field (Index (-1)) v h =
            Raises (PyExc IndexError "list assignment index out of range" []) h1
          /\ h1 !! 0 = Some (OList l)
      end
  | Raises e h1 =>
      Proxy__setitem__ (interp 1) (VRef 0) field (Index (-1)) v h = Raises e h1
      /\ h1 !! 0 = Some (OList l)
  | _ => True
  end.
Proof.
  intros B field l h v.
  apply (Proxy__setitem__then_read 1 0 field l (-1) v h). reflexivity.
Defined.

Lemma Proxy__delitem__removes_witness :
  let B := Example.builtins in
  let l := [VStr "a"; VStr "b"; VStr "c"] in
  let h := [OList l] in
  match list_position l (-2) with
  | Some n =>
      Proxy__delitem__ (VRef 0) (Index (-2)) h =
        Returns tt (<[0 := OList (delete n l)]> h)
      /\ list_index l (-2) = l !! n
      /\ S (length (delete n l)) = length l
      /\ (forall m, delete n l !! m = if decide (m < n) then l !! m else l !! S m)
  | None =>
      Proxy__delitem__ (VRef 0) (Index (-2)) h =
        Raises (PyExc IndexError "list assignment index out of range" []) h
  end.
Proof.
  intros B l h. apply (Proxy__delitem__removes 0 l (-2) h). reflexivity.
Defined.

Section ViewGrowing.
Context {B : Builtins}.

Lemma Proxy_argument_one msg field v kwargs (h : heap) :
  Proxy_argument msg field [v] kwargs h = Returns v h.
Proof.
  unfold Proxy_argument. by rewrite bool_decide_eq_false_2 by done.
Qed.

(** [append] with one positional value, on a view over a list. *)
Lemma Proxy_append_list fuel a field (l : list value) v kwargs (h : heap) :
  h !! a = Some (OList l) ->
  Proxy_append (interp fuel) (VRef a) field [v] kwargs h =
    match rec_to_json (interp fuel) field v h with
    | Returns raw h1 => Returns tt (<[a := OList (l ++ [raw])]> h1)
    | Raises e h1 => Raises e h1
    | OutOfFuel => OutOfFuel
    | Unmodelled => Unmodelled
    end.
Proof.
  intros Ha. pose proof (rec_to_json_keeps fuel field v h a _ Ha) as Hkeep.
  unfold Proxy_append.
  rewrite (bind_returns _ _ _ _ _ (Proxy_argument_one _ _ _ _ _)).
  rewrite (bind_returns _ _ _ _ _ (list_method_list _ _ _ _ Ha)).
  unfold bind at 1.
  destruct (rec_to_json (interp fuel) field v h) as [raw h1|e h1| |]; try reflexivity.
  exact (list_update_list a l (fun l => l ++ [raw]) h1 Hkeep).
Qed.

Lemma Proxy_insert_list fuel a field (l : list value) idx v kwargs (h : heap) :
  h !! a = Some (OList l) ->
  Proxy_insert (interp fuel) (VRef a) field idx [v] kwargs h =
    match rec_to_json (interp fuel) field v h with
    | Returns raw h1 => Returns tt (<[a := OList (list_insert_at l idx raw)]> h1)
    | Raises e h1 => Raises e h1
    | OutOfFuel => OutOfFuel
    | Unmodelled => Unmodelled
    end.
Proof.
  intros Ha. pose proof (rec_to_json_keeps fuel field v h a _ Ha) as Hkeep.
  unfold Proxy_insert.
  rewrite (bind_returns _ _ _ _ _ (Proxy_argument_one _ _ _ _ _)).
  rewrite (bind_returns _ _ _ _ _ (list_method_list _ _ _ _ Ha)).
  unfold bind at 1.
  destruct (rec_to_json (interp fuel) field v h) as [raw h1|e h1| |]; try reflexivity.
  exact (list_update_list a l (fun l => list_insert_at l idx raw) h1 Hkeep).
Qed.

Lemma list_pop_last a (l : list value) x (h : heap) :
  h !! a = Some (OList (l ++ [x])) ->
  list_pop (VRef a) [] h = Returns x (<[a := OList l]> h).
Proof.
  intros Ha. unfold list_pop.
  rewrite (bind_returns _ _ _ _ _ (read_lookup _ _ _ Ha)).
  destruct (l ++ [x]) as [|y l'] eqn:Hl; [by destruct l|]. rewrite <- Hl.
  rewrite list_position_last.
  rewrite lookup_app_r by lia. rewrite Nat.sub_diag. cbn [lookup list_lookup].
  unfold bind, write, ret. do 3 f_equal.
  clear. induction l as [|z l IH]; [reflexivity|]. cbn. f_equal. exact IH.
Qed.

(** X21. [pop] on a view.  On an empty list it raises [IndexError], with
    or without an index; with an index out of range on a list that is
    not empty it raises [IndexError] too; in both cases the heap is as it
    was.  Without an index on a list that is not empty it removes the
    last raw item and then converts it: the result is the typed
    conversion of that item, computed on the heap from which the item is
    already gone. *)
Theorem Proxy_pop_outcomes (rec : Interp) (a : addr) (field : Field)
    (l : list value) (h : heap) :
  h !! a = Some (OList l) ->
  (l = [] ->
     Proxy_pop rec (VRef a) field [] h =
       Raises (PyExc IndexError "pop from empty list" []) h
     /\ forall i, Proxy_pop rec (VRef a) field [VInt i] h =
                    Raises (PyExc IndexError "pop from empty list" []) h)
  /\ (forall i, l <> [] -> list_position l i = None ->
        Proxy_pop rec (VRef a) field [VInt i] h =
          Raises (PyExc IndexError "pop index out of range" []) h)
  /\ (forall l' x, l = l' ++ [x] ->
        Proxy_pop rec (VRef a) field [] h =
          rec_to_python rec field x (<[a := OList l']> h)).
Proof.
  intros Ha. split; [|split].
  - intros ->. unfold Proxy_pop, list_pop.
    split; [|intros i];
      by erewrite bind_raises
        by (by rewrite (bind_returns _ _ _ _ _ (read_lookup _ _ _ Ha))).
  - intros i Hne Hpos. unfold Proxy_pop, list_pop.
    erewrite bind_raises; [reflexivity|].
    rewrite (bind_returns _ _ _ _ _ (read_lookup _ _ _ Ha)).
    destruct l; [done|]. by rewrite Hpos.
  - intros l' x ->. unfold Proxy_pop.
    by rewrite (bind_returns _ _ _ _ _ (list_pop_last _ _ _ _ Ha)).
Qed.

(** X22. Appending one value to a view and popping it again: the append
    adds the raw form of the value at the end of the list, which is one
    longer; the pop that follows returns the typed conversion of that
    raw form and leaves the list as it was before the append. *)
Theorem Proxy_append_then_pop (fuel : nat) (a : addr) (field : Field)
    (l : list value) (v raw : value) (h h1 : heap) :
  h !! a = Some (OList l) ->
  rec_to_json (interp fuel) field v h = Returns raw h1 ->
  let h2 := <[a := OList (l ++ [raw])]> h1 in
  let h3 := <[a := OList l]> h1 in
  Proxy_append (interp fuel) (VRef a) field [v] [] h = Returns tt h2
  /\ py_len (VProxy (VRef a) field) h2 = Returns (S (length l)) h2
  /\ Proxy_pop (interp fuel) (VRef a) field [] h2 =
       rec_to_python (interp fuel) field raw h3
  /\ h3 !! a = Some (OList l)
  /\ (forall b, b <> a -> h3 !! b = h1 !! b).
Proof.
  intros Ha Hconv h2 h3.
  pose proof (rec_to_json_keeps fuel field v h a _ Ha) as Hkeep. rewrite Hconv in Hkeep.
  pose proof (lookup_write_same _ _ (OList (l ++ [raw])) _ Hkeep) as Ha2.
  split; [by rewrite (Proxy_append_list _ _ _ _ _ _ _ Ha), Hconv|].
  split; [|split; [|split]].
  - cbn [py_len]. rewrite (bind_returns _ _ _ _ _ (read_lookup _ _ _ Ha2)).
    rewrite length_app. cbn [length]. f_equal. lia.
  - destruct (Proxy_pop_outcomes (interp fuel) a field _ h2 Ha2) as (_ & _ & Hpop).
    rewrite (Hpop l raw eq_refl). unfold h2, h3. by rewrite list_insert_insert_eq.
  - by eapply lookup_write_same.
  - intros b Hb. by apply lookup_write_other.
Qed.

(** X23. [insert] with one positional value never raises [IndexError]:
    the raw form of the value goes before the item at the index, a
    negative index counting from the end; an index past the end appends
    and an index before the start prepends.  The list is one longer. *)
Theorem Proxy_insert_position (fuel : nat) (a : addr) (field : Field)
    (l : list value) (idx : Z) (v raw : value) (kwargs : list (string * value))
    (h h1 : heap) :
  h !! a = Some (OList l) ->
  rec_to_json (interp fuel) field v h = Returns raw h1 ->
  let len := Z.of_nat (length l) in
  Proxy_insert (interp fuel) (VRef a) field idx [v] kwargs h =
    Returns tt (<[a := OList (list_insert_at l idx raw)]> h1)
  /\ length (list_insert_at l idx raw) = S (length l)
  /\ ((len <= idx)%Z -> list_insert_at l idx raw = l ++ [raw])
  /\ ((idx <= - len)%Z -> list_insert_at l idx raw = raw :: l)
  /\ (forall k, k <= length l ->
        list_insert_at l (Z.of_nat k) raw = take k l ++ raw :: drop k l)
  /\ (forall k, 0 < k <= length l ->
        list_insert_at l (- Z.of_nat k) raw =
          take (length l - k) l ++ raw :: drop (length l - k) l).
Proof.
  intros Ha Hconv len.
  split; [by rewrite (Proxy_insert_list _ _ _ _ _ _ _ _ Ha), Hconv|].
  assert (forall i, exists n, n <= length l /\
            Z.to_nat (clamp 0 len (if (i <? 0)%Z then (i + len)%Z else i)) = n
            /\ ((len <= i)%Z -> n = length l) /\ ((i <= - len)%Z -> n = 0)
            /\ (forall k, k <= length l -> i = Z.of_nat k -> n = k)
            /\ (forall k, 0 < k <= length l -> i = (- Z.of_nat k)%Z -> n = length l - k))
    as Hclamp.
  { intros i. eexists. split; [|split; [reflexivity|]].
    - unfold clamp, len. destruct (i <? 0)%Z; lia.
    - unfold clamp, len. destruct (i <? 0)%Z eqn:Hneg;
        [apply Z.ltb_lt in Hneg | apply Z.ltb_ge in Hneg]; repeat split; intros; lia. }
  unfold list_insert_at. cbv zeta. fold len.
  split; [|split; [|split; [|split]]].
  - destruct (Hclamp idx) as (n & Hn & -> & _).
    rewrite length_app, length_take. cbn [length]. rewrite length_drop. lia.
  - intros Hge. destruct (Hclamp idx) as (n & _ & -> & Hlast & _).
    rewrite (Hlast Hge), firstn_all, drop_all. reflexivity.
  - intros Hle. destruct (Hclamp idx) as (n & _ & -> & _ & Hfirst & _).
    rewrite (Hfirst Hle). reflexivity.
  - intros k Hk. destruct (Hclamp (Z.of_nat k)) as (n & _ & -> & _ & _ & Hmid & _).
    by rewrite (Hmid k Hk eq_refl).
  - intros k Hk. destruct (Hclamp (- Z.of_nat k)%Z) as (n & _ & -> & _ & _ & _ & Hneg).
    by rewrite (Hneg k Hk eq_refl).
Qed.

End ViewGrowing.

Lemma Proxy_pop_outcomes_witness :
  let B := Example.builtins in
  let field := MkField KDateTime None VNone in
  let l := [VStr "2007-04-01T15:30:00Z"; VStr "2008-01-02T03:04:05Z"] in
  let h := [OList l] in
  (l = [] ->
     Proxy_pop (interp 1) (VRef 0) field [] h =
       Raises (PyExc IndexError "pop from empty list" []) h
     /\ forall i, Proxy_pop (interp 1) (VRef 0) field [VInt i] h =
                    Raises (PyExc IndexError "pop from empty list" []) h)
  /\ (forall i, l <> [] -> list_position l i = None ->
        Proxy_pop (interp 1) (VRef 0) field [VInt i] h =
          Raises (PyExc IndexError "pop index out of range" []) h)
  /\ (forall l' x, l = l' ++ [x] ->
        Proxy_pop (interp 1) (VRef 0) field [] h =
          rec_to_python (interp 1) field x (<[0 := OList l']> h)).
Proof.
  intros B field l h. apply (Proxy_pop_outcomes (interp 1) 0 field l h). reflexivity.
Defined.

Lemma Proxy_append_then_pop_witness :
  let B := Example.builtins in
  let field := MkField KDateTime None VNone in
  let l := [VStr "2007-04-01T15:30:00Z"] in
  let h := [OList l] in
  let v := VDateTime (mk_datetime (mk_date 2009 12 31) (mk_time 23 59 59 7)) in
  let raw := VStr "2009-12-31T23:59:59Z" in
  let h2 := <[0 := OList (l ++ [raw])]> h in
  let h3 := <[0 := OList l]> h in
  Proxy_append (interp 1) (VRef 0) field [v] [] h = Returns tt h2
  /\ py_len (VProxy (VRef 0) field) h2 = Returns (S (length l)) h2
  /\ Proxy_pop (interp 1) (VRef 0) field [] h2 = rec_to_python (interp 1) field raw h3
  /\ h3 !! 0 = Some (OList l)
  /\ (forall b, b <> 0 -> h3 !! b = h !! b).
Proof.
  intros B field l h v raw.
  apply (Proxy_append_then_pop 1 0 field l v raw h h); reflexivity.
Defined.

Lemma Proxy_insert_position_witness :
  let B := Example.builtins in
  let field := MkField KText None VNone in
  let l := [VStr "a"; VStr "c"] in
  let h := [OList l] in
  let raw := VStr "b" in
  let len := Z.of_nat (length l) in
  Proxy_insert (interp 1) (VRef 0) field 1 [VStr "b"] [] h =
    Returns tt (<[0 := OList (list_insert_at l 1 raw)]> h)
  /\ length (list_insert_at l 1 raw) = S (length l)
  /\ ((len <= 1)%Z -> list_insert_at l 1 raw = l ++ [raw])
  /\ ((1 <= - len)%Z -> list_insert_at l 1 raw = raw :: l)
  /\ (forall k, k <= length l ->
        list_insert_at l (Z.of_nat k) raw = take k l ++ raw :: drop k l)
  /\ (forall k, 0 < k <= length l ->
        list_insert_at l (- Z.of_nat k) raw =
          take (length l - k) l ++ raw :: drop (length l - k) l).
Proof.
  intros B field l h raw.
  apply (Proxy_insert_position 1 0 field l 1 (VStr "b") raw [] h h); reflexivity.
Defined.

(** ** The sequence view: extending *)

Section ViewExtending.
Context {B : Builtins}.

(** Appending to the list at [a] leaves every other object as it was. *)
Lemma Proxy_append_other fuel a field (l : list value) v (h : heap) b x :
  h !! a = Some (OList l) -> h !! b = Some x -> b <> a ->
  match Proxy_append (interp fuel) (VRef a) field [v] [] h with
  | Returns _ h1 | Raises _ h1 => h1 !! b = Some x
  | _ => True
  end.
Proof.
  intros Ha Hb Hne. rewrite (Proxy_append_list _ _ _ _ _ _ _ Ha).
  pose proof (rec_to_json_keeps fuel field v h b _ Hb) as Hkeep.
  destruct (rec_to_json (interp fuel) field v h) as [raw h1|e h1| |]; try done.
  by rewrite lookup_write_other.
Qed.

Lemma Proxy_append_grows fuel a field (l : list value) v (h : heap) u h1 :
  h !! a = Some (OList l) ->
  Proxy_append (interp fuel) (VRef a) field [v] [] h = Returns u h1 ->
  exists raw, h1 !! a = Some (OList (l ++ [raw])).
Proof.
  intros Ha. rewrite (Proxy_append_list _ _ _ _ _ _ _ Ha).
  pose proof (rec_to_json_keeps fuel field v h a _ Ha) as Hkeep.
  destruct (rec_to_json (interp fuel) field v h) as [raw h1'|e h1'| |]; try done.
  intros [= _ <-]. exists raw. by eapply lookup_write_same.
Qed.

Lemma for_list_other fuel a b field (lb : list value) :
  b <> a ->
  forall rest k steps (h : heap) la,
    h !! a = Some (OList la) -> h !! b = Some (OList lb) ->
    drop k lb = rest -> length rest < steps ->
    for_list steps b k (fun item => Proxy_append (interp fuel) (VRef a) field [item] []) h
    = for_each rest (fun item => Proxy_append (interp fuel) (VRef a) field [item] []) h.
Proof.
  intros Hne. induction rest as [|x rest IH]; intros k steps h la Ha Hb Hdrop Hsteps;
    (destruct steps as [|steps]; [cbn [length] in Hsteps; lia|]); cbn [for_list for_each].
  - rewrite (bind_returns _ _ _ _ _ (read_lookup _ _ _ Hb)).
    assert (lb !! k = None) as ->; [|reflexivity].
    apply lookup_ge_None.
    assert (length (drop k lb) = 0) as Hlen by (by rewrite Hdrop).
    rewrite length_drop in Hlen. lia.
  - rewrite (bind_returns _ _ _ _ _ (read_lookup _ _ _ Hb)).
    assert (lb !! k = Some x) as ->.
    { rewrite <- (Nat.add_0_r k), <- lookup_drop, Hdrop. reflexivity. }
    pose proof (Proxy_append_other fuel a field la x h b _ Ha Hb Hne) as Hother.
    pose proof (Proxy_append_grows fuel a field la x h) as Hgrow.
    unfold bind.
    destruct (Proxy_append (interp fuel) (VRef a) field [x] [] h) as [u h1|e h1| |];
      try reflexivity.
    destruct (Hgrow u h1 Ha eq_refl) as (raw & Ha1).
    apply (IH (S k) steps h1 (la ++ [raw]) Ha1 Hother).
    + replace (S k) with (k + 1) by lia. by rewrite <- drop_drop, Hdrop.
    + cbn [length] in Hsteps. lia.
Qed.

(** X24. Extending a view with a list other than its own: each item is
    appended in turn, exactly as a sequence of [append] calls would do,
    so the items converted before one whose conversion raises stay in
    the list.  When the call returns, the list given is as it was. *)
Theorem Proxy_extend_appends (fuel steps : nat) (a b : addr) (field : Field)
    (la lb : list value) (h : heap) :
  h !! a = Some (OList la) -> h !! b = Some (OList lb) -> b <> a ->
  length lb < steps ->
  Proxy_extend (interp fuel) steps (VRef a) field (VRef b) h =
    for_each lb (fun item => Proxy_append (interp fuel) (VRef a) field [item] []) h
  /\ (forall u h',
        Proxy_extend (interp fuel) steps (VRef a) field (VRef b) h = Returns u h' ->
        h' !! b = Some (OList lb)
        /\ exists raws, h' !! a = Some (OList (la ++ raws)) /\ length raws = length lb).
Proof.
  intros Ha Hb Hne Hsteps.
  assert (Proxy_extend (interp fuel) steps (VRef a) field (VRef b) h =
          for_each lb (fun item =>
                         Proxy_append (interp fuel) (VRef a) field [item] []) h) as Heq.
  { unfold Proxy_extend. rewrite (bind_returns _ _ _ _ _ (read_lookup _ _ _ Hb)).
    by apply (for_list_other fuel a b field lb Hne lb 0 steps h la). }
  split; [exact Heq|]. rewrite Heq. clear Heq Hsteps.
  revert la h Ha Hb. induction lb as [|x lb' IH] using rev_ind.
  - intros la h Ha Hb u h' [= _ <-]. split; [exact Hb|].
    exists []. by rewrite app_nil_r.
  - intros la h Ha Hb u h' Hrun.
    assert (forall l (h0 : heap) la0 u0 h0',
              h0 !! a = Some (OList la0) -> h0 !! b = Some (OList (lb' ++ [x])) ->
              for_each l (fun item =>
                            Proxy_append (interp fuel) (VRef a) field [item] []) h0
                = Returns u0 h0' ->
              h0' !! b = Some (OList (lb' ++ [x]))
              /\ exists raws, h0' !! a = Some (OList (la0 ++ raws))
                              /\ length raws = length l) as Hgen.
    { clear -Hne. induction l as [|y l IHl]; intros h0 la0 u0 h0' Ha0 Hb0 Hrun0.
      - injection Hrun0 as _ <-. split; [exact Hb0|]. exists []. by rewrite app_nil_r.
      - cbn [for_each] in Hrun0.
        apply bind_inv_returns in Hrun0 as (u1 & h1 & Happ & Hrest).
        pose proof (Proxy_append_other fuel a field la0 y h0 b _ Ha0 Hb0 Hne) as Hother.
        rewrite Happ in Hother.
        destruct (Proxy_append_grows fuel a field la0 y h0 u1 h1 Ha0 Happ) as (raw & Ha1).
        destruct (IHl h1 (la0 ++ [raw]) u0 h0' Ha1 Hother Hrest)
          as (Hb' & raws & Ha' & Hlen).
        split; [exact Hb'|]. exists (raw :: raws).
        rewrite <- app_assoc in Ha'. split; [exact Ha'|]. cbn [length]. lia. }
    by apply (Hgen (lb' ++ [x]) h la u h').
Qed.

(** X25. Extending a view with its own list never returns when the list
    is not empty: every append puts one more item in front of the
    iteration, so with any bound on the steps the loop is still running
    when the bound is reached, unless a conversion raised first. *)
Theorem Proxy_extend_own_list (fuel : nat) (a : addr) (field : Field)
    (l : list value) (h : heap) :
  h !! a = Some (OList l) -> l <> [] ->
  forall steps,
    match Proxy_extend (interp fuel) steps (VRef a) field (VRef a) h with
    | Returns _ _ => False
    | _ => True
    end.
Proof.
  intros Ha Hne steps. unfold Proxy_extend.
  rewrite (bind_returns _ _ _ _ _ (read_lookup _ _ _ Ha)).
  assert (0 < length l) as Hk by (destruct l; [done | cbn; lia]).
  clear Hne. revert Hk. generalize 0 as k. revert l h Ha.
  induction steps as [|steps IH]; intros l h Ha k Hk; cbn [for_list]; [exact I|].
  rewrite (bind_returns _ _ _ _ _ (read_lookup _ _ _ Ha)).
  destruct (lookup_lt_is_Some_2 l k Hk) as [item Hitem]. rewrite Hitem.
  pose proof (Proxy_append_grows fuel a field l item h) as Hgrow.
  unfold bind.
  destruct (Proxy_append (interp fuel) (VRef a) field [item] [] h) as [u1 h1|e h1| |];
    try exact I.
  destruct (Hgrow u1 h1 Ha eq_refl) as (raw & Ha1).
  apply (IH (l ++ [raw]) h1 Ha1 (S k)). rewrite length_app. cbn [length]. lia.
Qed.

End ViewExtending.

Lemma Proxy_extend_appends_witness :
  let B := Example.builtins in
  let field := MkField KText None VNone in
  let la := [VStr "a"] in
  let lb := [VStr "b"; VStr "c"] in
  let h := [OList la; OList lb] in
  Proxy_extend (interp 1) 3 (VRef 0) field (VRef 1) h =
    for_each lb (fun item => Proxy_append (interp 1) (VRef 0) field [item] []) h
  /\ (forall u h',
        Proxy_extend (interp 1) 3 (VRef 0) field (VRef 1) h = Returns u h' ->
        h' !! 1 = Some (OList lb)
        /\ exists raws, h' !! 0 = Some (OList (la ++ raws)) /\ length raws = length lb).
Proof.
  intros B field la lb h.
  apply (Proxy_extend_appends 1 3 0 1 field la lb h).
  - reflexivity.
  - reflexivity.
  - discriminate.
  - cbn. lia.
Defined.

Lemma Proxy_extend_own_list_witness :
  let B := Example.builtins in
  let field := MkField KText None VNone in
  let h := [OList [VStr "a"]] in
  match Proxy_extend (interp 1) 100 (VRef 0) field (VRef 0) h with
  | Returns _ _ => False
  | _ => True
  end.
Proof.
  intros B field h.
  apply (Proxy_extend_own_list 1 0 field [VStr "a"] h); [reflexivity | discriminate].
Defined.
